(** * Renovation cost dataset generator: model and properties

    A shallow embedding of [dataset_generation.py].

    - Python [float] values are Rocq's primitive binary64 floats, so every
      arithmetic step rounds exactly as CPython's does.
    - Python [int] values are [Z].
    - Exceptions are an error type; the module-level pseudo-random generator
      is an explicit state threaded through every draw.
    - The functions of Python's [random] module that the source calls
      ([choice], [choices], [uniform], [random]) follow CPython 3.9 and
      later; the generator underneath is any generator whose [random()]
      lies in [[0, 1)] and whose [_randbelow(n)] lies in [[0, n)].
    - The module-level constants are gathered in a [Config] record whose
      default value is the tables of the source. *)

From Stdlib Require Import ZArith List String Bool Lia Reals Lra Floats.
From Stdlib Require Uint63.
Import ListNotations.
Local Open Scope string_scope.
Local Open Scope Z_scope.

Set Warnings "-inexact-float".

(* ================================================================== *)
(** ** Exceptions and the generator monad *)

(** The Python exceptions that the code and the library calls it makes
    can raise. *)
Inductive exn : Set :=
| IndexError
| KeyError
| ValueError
| OverflowError
| ZeroDivisionError.

Inductive result (A : Type) : Type :=
| Ok (a : A)
| Raise (e : exn).
Arguments Ok {A} a.
Arguments Raise {A} e.

Definition rbind {A B} (r : result A) (k : A -> result B) : result B :=
  match r with
  | Ok a => k a
  | Raise e => Raise e
  end.

(** A computation that reads and advances a generator state of type [G]
    and may raise. *)
Definition M (G A : Type) : Type := G -> result (A * G).

Definition ret {G A} (a : A) : M G A := fun g => Ok (a, g).

Definition bind {G A B} (c : M G A) (k : A -> M G B) : M G B :=
  fun g =>
    match c g with
    | Ok (a, g') => k a g'
    | Raise e => Raise e
    end.

Definition raise {G A} (e : exn) : M G A := fun _ => Raise e.

Definition lift {G A} (r : result A) : M G A :=
  fun g =>
    match r with
    | Ok a => Ok (a, g)
    | Raise e => Raise e
    end.

Declare Scope gen_scope.
Delimit Scope gen_scope with gen.
Notation "x <- c ;; k" := (bind c (fun x => k))
  (at level 61, c at next level, right associativity) : gen_scope.
Notation "' p <- c ;; k" := (bind c (fun x => let p := x in k))
  (at level 61, p pattern, c at next level, right associativity) : gen_scope.
Local Open Scope gen_scope.

(** A list comprehension [[f(i) for i in xs]] whose body draws from the
    generator: elements are evaluated left to right; the first exception
    aborts the whole comprehension. *)
Fixpoint mapM {G A B} (f : A -> M G B) (xs : list A) : M G (list B) :=
  match xs with
  | [] => ret []
  | x :: xs' =>
      y <- f x ;;
      ys <- mapM f xs' ;;
      ret (y :: ys)
  end.

(* ================================================================== *)
(** ** Python numbers *)

(** Round-to-nearest, ties-to-even quotient of [n] by [d], for [0 <= n]
    and [0 < d]. *)
Definition rhe_div (n d : Z) : Z :=
  let q := n / d in
  let r := n mod d in
  match 2 * r ?= d with
  | Lt => q
  | Gt => q + 1
  | Eq => if Z.even q then q else q + 1
  end.

(** The integer part of the dyadic [m * 2^e]. *)
Definition trunc_dyadic (m : positive) (e : Z) : Z :=
  if 0 <=? e then Zpos m * 2 ^ e else Zpos m / 2 ^ (- e).

(** The integer nearest to [m * 2^e * 10^nd], ties to even. *)
Definition round_dyadic (m : positive) (e : Z) (nd : Z) : Z :=
  if 0 <=? e then Zpos m * 2 ^ e * 10 ^ nd
  else rhe_div (Zpos m * 10 ^ nd) (2 ^ (- e)).

(** The binary64 value nearest to the integer [z] (CPython's
    [PyLong_AsDouble] rounds to nearest, ties to even). *)
Definition Z2SF (z : Z) : spec_float := binary_normalize prec emax z 0 false.

(** An integer with a sign that also distinguishes [-0]. *)
Definition int_SF (s : bool) (n : Z) : spec_float :=
  match n with
  | Zpos p => S754_finite s p 0
  | _ => S754_zero s
  end.

(** [float(z)]: raises [OverflowError] when [z] is too large. *)
Definition float_of_int (z : Z) : result float :=
  let f := SF2Prim (Z2SF z) in
  if is_infinity f then Raise OverflowError else Ok f.

(** [int(x)] on a float: truncation toward zero. *)
Definition py_int (x : float) : result Z :=
  match Prim2SF x with
  | S754_nan => Raise ValueError
  | S754_infinity _ => Raise OverflowError
  | S754_zero _ => Ok 0
  | S754_finite s m e => Ok (cond_Zopp s (trunc_dyadic m e))
  end.

(** [round(x)] on a float: the nearest integer, ties to even. *)
Definition py_round (x : float) : result Z :=
  match Prim2SF x with
  | S754_nan => Raise ValueError
  | S754_infinity _ => Raise OverflowError
  | S754_zero _ => Ok 0
  | S754_finite s m e => Ok (cond_Zopp s (round_dyadic m e 0))
  end.

(** [round(x, nd)] for [0 <= nd]: CPython prints [x] with [nd] decimals,
    correctly rounded (ties of the exact binary value go to even), and reads
    the decimal string back as the nearest float; NaN and the infinities
    round to themselves. *)
Definition py_round_nd (x : float) (nd : Z) : float :=
  match Prim2SF x with
  | S754_finite s m e =>
      SF2Prim (SFdiv prec emax (int_SF s (round_dyadic m e nd))
                               (int_SF false (10 ^ nd)))
  | _ => x
  end.

(** [max(a, b)] keeps its first argument unless the second is greater. *)
Definition py_max_float (a b : float) : float :=
  if (a <? b)%float then b else a.

Definition py_max_int (a b : Z) : Z :=
  if a <? b then b else a.

(** True division [x / y] of floats. *)
Definition py_div (x y : float) : result float :=
  if (y =? 0)%float then Raise ZeroDivisionError else Ok (x / y)%float.

(** A Python number: the tables of the source hold both [int] and [float]
    literals, and the arithmetic operators convert an [int] operand to
    [float] when the other one is a [float]. *)
Inductive number : Set :=
| PyInt (z : Z)
| PyFloat (f : float).

Definition to_float (n : number) : result float :=
  match n with
  | PyInt z => float_of_int z
  | PyFloat f => Ok f
  end.

Definition num_sub (b a : number) : result number :=
  match b, a with
  | PyInt x, PyInt y => Ok (PyInt (x - y))
  | _, _ =>
      rbind (to_float b) (fun fb =>
      rbind (to_float a) (fun fa =>
      Ok (PyFloat (fb - fa)%float)))
  end.

(** [n * x] and [n + x] with a float right operand. *)
Definition num_mul_float (n : number) (x : float) : result float :=
  rbind (to_float n) (fun f => Ok (f * x)%float).

Definition num_add_float (n : number) (x : float) : result float :=
  rbind (to_float n) (fun f => Ok (f + x)%float).

(** [x * z] and [z * x] with an [int] operand [z]. *)
Definition float_mul_int (x : float) (z : Z) : result float :=
  rbind (float_of_int z) (fun f => Ok (x * f)%float).

Definition int_mul_float (z : Z) (x : float) : result float :=
  rbind (float_of_int z) (fun f => Ok (f * x)%float).

Definition int_div_float (z : Z) (x : float) : result float :=
  rbind (float_of_int z) (fun f => py_div f x).

Definition float_div_int (x : float) (z : Z) : result float :=
  rbind (float_of_int z) (fun f => py_div x f).

(* ================================================================== *)
(** ** Dictionaries and sequences *)

(** A Python [dict] with string keys, in insertion order. *)
Definition dict (V : Type) : Type := list (string * V).

Definition keys {V} (d : dict V) : list string := map fst d.

Fixpoint lookup {V} (d : dict V) (k : string) : option V :=
  match d with
  | [] => None
  | (k', v) :: d' => if String.eqb k k' then Some v else lookup d' k
  end.

(** [d[k]]: raises [KeyError] on a missing key. *)
Definition getitem {V} (d : dict V) (k : string) : result V :=
  match lookup d k with
  | Some v => Ok v
  | None => Raise KeyError
  end.

Definition len {A} (l : list A) : Z := Z.of_nat (List.length l).

(** [seq[i]] for [0 <= i]. *)
Definition index {A} (l : list A) (i : Z) : result A :=
  match nth_error l (Z.to_nat i) with
  | Some a => Ok a
  | None => Raise IndexError
  end.

(** [k in l] for a list of strings. *)
Definition str_in (k : string) (l : list string) : bool :=
  existsb (String.eqb k) l.

(** [range(lo, hi)]. *)
Definition py_range (lo hi : Z) : list Z :=
  map (fun k => lo + Z.of_nat k) (seq 0 (Z.to_nat (hi - lo))).

(* ================================================================== *)
(** ** The pseudo-random generator *)

(** The generator behind Python's [random] module, through the two
    primitives every function used by the source is built on:
    [random()], which returns a float [0.0 <= x < 1.0], and
    [_randbelow(n)], which returns an int in [[0, n)] for [0 < n].
    [seed] is [random.seed]. *)
Record PRNG : Type := {
  gen : Type;
  seed : Z -> gen;
  next_random : gen -> float * gen;
  randbelow : Z -> gen -> Z * gen;
  next_random_unit : forall g,
    (0 <=? fst (next_random g))%float = true /\
    (fst (next_random g) <? 1)%float = true;
  randbelow_range : forall n g,
    0 < n -> 0 <= fst (randbelow n g) < n
}.

(** Cumulative sums, as [itertools.accumulate]. *)
Fixpoint accumulate_from (acc : float) (ws : list float) : list float :=
  match ws with
  | [] => []
  | w :: ws' => let acc' := (acc + w)%float in acc' :: accumulate_from acc' ws'
  end.

Definition accumulate (ws : list float) : list float :=
  match ws with
  | [] => []
  | w :: ws' => w :: accumulate_from w ws'
  end.

(** [bisect.bisect_right(a, x, lo, hi)]: the loop halves [hi - lo], so
    [hi - lo] iterations always suffice. *)
Fixpoint bisect_loop (fuel : nat) (a : list float) (x : float) (lo hi : Z)
  : result Z :=
  if lo <? hi then
    match fuel with
    | O => Ok lo
    | S fuel' =>
        let mid := (lo + hi) / 2 in
        rbind (index a mid) (fun am =>
        if (x <? am)%float then bisect_loop fuel' a x lo mid
        else bisect_loop fuel' a x (mid + 1) hi)
    end
  else Ok lo.

Definition bisect (a : list float) (x : float) (lo hi : Z) : result Z :=
  bisect_loop (Z.to_nat (hi - lo)) a x lo hi.

Definition is_finite (x : float) : bool :=
  negb (is_nan x) && negb (is_infinity x).

Section Random.
Context {P : PRNG}.

(** [random.random()]. *)
Definition random_random : M (gen P) float :=
  fun g => Ok (next_random P g).

(** [random.choice(seq)]. *)
Definition random_choice {A} (seq : list A) : M (gen P) A :=
  if len seq =? 0 then raise IndexError
  else fun g =>
    let (i, g') := randbelow P (len seq) g in
    lift (index seq i) g'.

(** [random.uniform(a, b)], that is [a + (b - a) * random()]. *)
Definition random_uniform (a b : number) : M (gen P) float :=
  d <- lift (num_sub b a) ;;
  u <- random_random ;;
  p <- lift (num_mul_float d u) ;;
  lift (num_add_float a p).

(** [random.choices(population, weights=weights, k=1)[0]]. *)
Definition random_choices1 {A} (population : list A) (weights : list float)
  : M (gen P) A :=
  let n := len population in
  let cum_weights := accumulate weights in
  if negb (len cum_weights =? n) then raise ValueError
  else
    last_w <- lift (match cum_weights with
                    | [] => Raise IndexError
                    | _ => index cum_weights (len cum_weights - 1)
                    end) ;;
    let total := (last_w + 0)%float in
    if (total <=? 0)%float then raise ValueError
    else if negb (is_finite total) then raise ValueError
    else
      u <- random_random ;;
      i <- lift (bisect cum_weights (u * total)%float 0 (n - 1)) ;;
      lift (index population i).
End Random.

(* ================================================================== *)
(** ** Configuration: the module-level constants *)

(** A [(min, max)] tuple. *)
Definition range : Set := (number * number)%type.

(** An entry of [cities]. *)
Record city_info : Set := {
  tier : string;
  multiplier : float;
  labor_day_rate : range
}.

(** An entry of [renovation_levels]. *)
Record level_info : Set := {
  labor_overhead : range
}.

Record Config : Type := {
  N_ROWS : Z;
  AS_OF_DATE : string;
  INCLUDE_GST : bool;
  GST_RATE : float;
  MATERIAL_PRICE_INDEX : float;
  cities : dict city_info;
  room_types : list string;
  renovation_levels : dict level_info;
  quality_tiers : dict float;
  painting_psf : range;
  flooring_catalog : dict range;
  ceiling_catalog : dict range;
  electrical_psf : range;
  plumbing_per_bath : range;
  plumbing_per_kitchen : range;
  kitchen_packages : dict range;
  bathroom_packages : dict range;
  furniture_room : dict range;
  productivity : dict range
}.

Definition city_names (cfg : Config) : list string := keys (cities cfg).

Definition irange (a b : Z) : range := (PyInt a, PyInt b).
Definition frange (a b : float) : range := (PyFloat a, PyFloat b).

Definition city (t : string) (m : float) (lo hi : Z) : city_info :=
  {| tier := t; multiplier := m; labor_day_rate := irange lo hi |}.

(** The tables as the source defines them. *)
Definition default_config : Config := {|
  N_ROWS := 10000;
  AS_OF_DATE := "2025-09-07";
  INCLUDE_GST := true;
  GST_RATE := 0.18%float;
  MATERIAL_PRICE_INDEX := 1.00%float;
  cities := [
    ("Delhi",      city "Metro" 1.20%float 750 900);
    ("Mumbai",     city "Metro" 1.30%float 800 950);
    ("Bangalore",  city "Metro" 1.25%float 750 900);
    ("Hyderabad",  city "Metro" 1.15%float 700 850);
    ("Chennai",    city "Metro" 1.10%float 650 800);
    ("Kolkata",    city "Metro" 1.00%float 600 750);
    ("Pune",       city "Metro" 1.20%float 700 850);
    ("Ahmedabad",  city "Metro" 1.05%float 600 750);
    ("Lucknow",    city "Tier-2" 0.92%float 500 650);
    ("Jaipur",     city "Tier-2" 0.95%float 550 700);
    ("Indore",     city "Tier-2" 0.96%float 550 700);
    ("Surat",      city "Tier-2" 1.00%float 550 700);
    ("Nagpur",     city "Tier-2" 0.95%float 520 680);
    ("Vadodara",   city "Tier-2" 0.98%float 550 700);
    ("Coimbatore", city "Tier-2" 0.95%float 520 660);
    ("Bhopal",     city "Tier-2" 0.93%float 500 640);
    ("Chandigarh", city "Tier-2" 1.02%float 600 750);
    ("Patna",      city "Tier-3" 0.88%float 450 600);
    ("Ranchi",     city "Tier-3" 0.90%float 480 620);
    ("Guwahati",   city "Tier-3" 0.92%float 500 640);
    ("Kanpur",     city "Tier-3" 0.90%float 480 620);
    ("Varanasi",   city "Tier-3" 0.90%float 480 620);
    ("Mysuru",     city "Tier-3" 0.94%float 520 660)
  ];
  room_types :=
    ["Bedroom"; "Living Room"; "Kitchen"; "Bathroom"; "Dining"; "Study";
     "Kids Room"];
  renovation_levels := [
    ("Basic",  {| labor_overhead := frange 0.10 0.15 |});
    ("Mid",    {| labor_overhead := frange 0.15 0.25 |});
    ("Luxury", {| labor_overhead := frange 0.25 0.35 |})
  ];
  quality_tiers := [
    ("Economy", 0.90%float);
    ("Standard", 1.00%float);
    ("Premium", 1.20%float);
    ("Luxury", 1.40%float)
  ];
  painting_psf := irange 18 35;
  flooring_catalog := [
    ("Vitrified_Tile",  irange 90 200);
    ("Ceramic_Tile",    irange 80 160);
    ("Wood_Laminate",   irange 140 260);
    ("Engineered_Wood", irange 220 380);
    ("Marble",          irange 350 900);
    ("Granite",         irange 220 450);
    ("Epoxy",           irange 60 160)
  ];
  ceiling_catalog := [
    ("POP",    irange 90 160);
    ("Gypsum", irange 120 220);
    ("Grid",   irange 100 180)
  ];
  electrical_psf := irange 70 160;
  plumbing_per_bath := irange 40000 95000;
  plumbing_per_kitchen := irange 25000 60000;
  kitchen_packages := [
    ("Basic_L",       irange 120000 250000);
    ("Standard_L",    irange 180000 350000);
    ("Premium_U",     irange 300000 600000);
    ("Luxury_Island", irange 500000 1200000)
  ];
  bathroom_packages := [
    ("Basic",    irange 70000 130000);
    ("Standard", irange 120000 220000);
    ("Premium",  irange 200000 400000)
  ];
  furniture_room := [
    ("None",     irange 0 0);
    ("Basic",    irange 30000 80000);
    ("Standard", irange 80000 180000);
    ("Premium",  irange 180000 500000)
  ];
  productivity := [
    ("painting_sqft_per_day",   irange 180 280);
    ("flooring_sqft_per_day",   irange 90 160);
    ("ceiling_sqft_per_day",    irange 120 180);
    ("electrical_sqft_per_day", irange 150 240)
  ]
|}.

(* ================================================================== *)
(** ** Helper functions *)

Section Generator.
Context {P : PRNG}.
Variable cfg : Config.

Definition rand_range (r : range) : M (gen P) float :=
  random_uniform (fst r) (snd r).

(** [pick_weighted(d)]: [d] maps keys to weights. *)
Definition pick_weighted (d : dict float) : M (gen P) string :=
  random_choices1 (keys d) (map snd d).

Definition choose_quality : M (gen P) string :=
  random_choices1 (keys (quality_tiers cfg))
    [0.25; 0.45; 0.22; 0.08]%float.

Definition choose_flooring_type (room_type : string) : M (gen P) string :=
  if str_in room_type ["Kitchen"; "Bathroom"] then
    random_choices1 ["Ceramic_Tile"; "Vitrified_Tile"; "Granite"]
      [0.45; 0.40; 0.15]%float
  else
    random_choices1 (keys (flooring_catalog cfg))
      [0.25; 0.35; 0.10; 0.08; 0.10; 0.07; 0.05]%float.

Definition choose_ceiling_type : M (gen P) string :=
  random_choice (keys (ceiling_catalog cfg)).

Definition choose_furniture_level (room_type : string) : M (gen P) string :=
  if str_in room_type ["Kitchen"; "Bathroom"] then ret "None"
  else
    random_choices1 ["None"; "Basic"; "Standard"; "Premium"]
      [0.35; 0.35; 0.22; 0.08]%float.

Definition kitchen_package_by_level (renov_level : string)
  : M (gen P) string :=
  if String.eqb renov_level "Basic" then ret "Basic_L"
  else if String.eqb renov_level "Mid" then
    random_choice ["Basic_L"; "Standard_L"]
  else random_choice ["Standard_L"; "Premium_U"; "Luxury_Island"].

Definition bathroom_package_by_level (renov_level : string)
  : M (gen P) string :=
  if String.eqb renov_level "Basic" then ret "Basic"
  else if String.eqb renov_level "Mid" then
    random_choice ["Basic"; "Standard"]
  else random_choice ["Standard"; "Premium"].

Definition psf_cost (base_rng : range) (quality_factor city_mult : float)
  : M (gen P) float :=
  base <- rand_range base_rng ;;
  ret (base * quality_factor * city_mult * MATERIAL_PRICE_INDEX cfg)%float.

Definition unit_cost (base_rng : range) (quality_factor city_mult : float)
  : M (gen P) float :=
  base <- rand_range base_rng ;;
  ret (base * quality_factor * city_mult * MATERIAL_PRICE_INDEX cfg)%float.

Definition labor_component_cost (area_sqft : Z) (cinfo : city_info)
    (category : string) : M (gen P) float :=
  day_rate <- rand_range (labor_day_rate cinfo) ;;
  sqft_per_day <-
    (if String.eqb category "painting" then
       r <- lift (getitem (productivity cfg) "painting_sqft_per_day") ;;
       rand_range r
     else if String.eqb category "flooring" then
       r <- lift (getitem (productivity cfg) "flooring_sqft_per_day") ;;
       rand_range r
     else if String.eqb category "ceiling" then
       r <- lift (getitem (productivity cfg) "ceiling_sqft_per_day") ;;
       rand_range r
     else if String.eqb category "electrical" then
       r <- lift (getitem (productivity cfg) "electrical_sqft_per_day") ;;
       rand_range r
     else ret 150.0%float) ;;
  q <- lift (int_div_float area_sqft sqft_per_day) ;;
  let days := py_max_float 1.0 q in
  ret (day_rate * days)%float.

(* ================================================================ *)
(** ** Row generator *)

(** The local variables of [generate_row] once its body has run, before
    the record is built. *)
Record Locals : Type := {
  l_city : string;
  l_cinfo : city_info;
  l_room_type : string;
  l_area : Z;
  l_renov_level : string;
  l_labor_overhead_pct : float;
  l_paint_quality : string;
  l_floor_quality : string;
  l_ceiling_quality : string;
  l_painting_material_cost : float;
  l_painting_labor_cost : float;
  l_floor_type : string;
  l_flooring_material_cost : float;
  l_flooring_labor_cost : float;
  l_has_ceiling : bool;
  l_ceiling_type : string;
  l_ceiling_area : Z;
  l_ceiling_material_cost : float;
  l_ceiling_labor_cost : float;
  l_has_electrical : bool;
  l_electrical_material_cost : float;
  l_electrical_labor_cost : float;
  l_kitchen_pkg_name : string;
  l_kitchen_pkg_cost : float;
  l_bath_pkg_name : string;
  l_bath_pkg_cost : float;
  l_plumbing_cost : float;
  l_furniture_level : string;
  l_furniture_cost : float;
  l_material_subtotal : float;
  l_wastage_cost : float;
  l_labor_subtotal : float;
  l_contractor_overhead : float;
  l_subtotal_pre_tax : float;
  l_gst_amount : float;
  l_grand_total : float;
  l_total_psf : float
}.

(** The body of [generate_row] up to the [return]. *)
Definition generate_row_body : M (gen P) Locals :=
  city <- random_choice (city_names cfg) ;;
  cinfo <- lift (getitem (cities cfg) city) ;;
  let city_mult := multiplier cinfo in
  room_type <- random_choice (room_types cfg) ;;
  area_f <- rand_range (irange 70 550) ;;
  area <- lift (py_int area_f) ;;
  renov_level <- random_choice (keys (renovation_levels cfg)) ;;
  linfo <- lift (getitem (renovation_levels cfg) renov_level) ;;
  overhead_f <- rand_range (labor_overhead linfo) ;;
  let labor_overhead_pct := py_round_nd overhead_f 3 in
  (* Quality selections *)
  paint_quality <- choose_quality ;;
  floor_quality <- choose_quality ;;
  ceiling_quality <- choose_quality ;;
  (* Painting *)
  paint_q <- lift (getitem (quality_tiers cfg) paint_quality) ;;
  painting_rate_psf <- psf_cost (painting_psf cfg) paint_q city_mult ;;
  painting_material_cost <- lift (float_mul_int painting_rate_psf area) ;;
  painting_labor_cost <- labor_component_cost area cinfo "painting" ;;
  (* Flooring *)
  floor_type <- choose_flooring_type room_type ;;
  floor_rng <- lift (getitem (flooring_catalog cfg) floor_type) ;;
  floor_q <- lift (getitem (quality_tiers cfg) floor_quality) ;;
  floor_rate_psf <- psf_cost floor_rng floor_q city_mult ;;
  flooring_material_cost <- lift (float_mul_int floor_rate_psf area) ;;
  flooring_labor_cost <- labor_component_cost area cinfo "flooring" ;;
  (* False ceiling *)
  has_ceiling <-
    (if negb (String.eqb room_type "Bathroom") then
       u <- random_random ;; ret (u <? 0.65)%float
     else ret false) ;;
  ceiling_type <-
    (if has_ceiling then choose_ceiling_type else ret "None") ;;
  ceiling_area <-
    (if has_ceiling then
       f <- rand_range (frange 0.8 1.05) ;;
       a <- lift (int_mul_float area f) ;;
       lift (py_int a)
     else ret 0) ;;
  ceiling_rate_psf <-
    (if has_ceiling then
       ceil_rng <- lift (getitem (ceiling_catalog cfg) ceiling_type) ;;
       ceil_q <- lift (getitem (quality_tiers cfg) ceiling_quality) ;;
       psf_cost ceil_rng ceil_q city_mult
     else ret 0.0%float) ;;
  ceiling_material_cost <-
    lift (float_mul_int ceiling_rate_psf ceiling_area) ;;
  ceiling_labor_cost <-
    (if has_ceiling then labor_component_cost ceiling_area cinfo "ceiling"
     else ret 0.0%float) ;;
  (* Electrical rewiring *)
  u_el <- random_random ;;
  p_el <- lift (getitem [("Basic", 0.4); ("Mid", 0.65); ("Luxury", 0.9)]%float
                  renov_level) ;;
  let has_electrical := (u_el <? p_el)%float in
  electrical_rate_psf <-
    (if has_electrical then psf_cost (electrical_psf cfg) 1.0%float city_mult
     else ret 0.0%float) ;;
  electrical_material_cost <-
    lift (float_mul_int electrical_rate_psf area) ;;
  electrical_labor_cost <-
    (if has_electrical then labor_component_cost area cinfo "electrical"
     else ret 0.0%float) ;;
  (* Kitchen package if room is Kitchen *)
  '(kitchen_pkg_name, kitchen_pkg_cost) <-
    (if String.eqb room_type "Kitchen" then
       kname <- kitchen_package_by_level renov_level ;;
       k_rng <- lift (getitem (kitchen_packages cfg) kname) ;;
       k_quality <- choose_quality ;;
       k_q <- lift (getitem (quality_tiers cfg) k_quality) ;;
       kcost <- unit_cost k_rng k_q city_mult ;;
       ret (kname, kcost)
     else ret ("None", 0.0%float)) ;;
  (* Bathroom package if room is Bathroom *)
  '(bath_pkg_name, bath_pkg_cost) <-
    (if String.eqb room_type "Bathroom" then
       bname <- bathroom_package_by_level renov_level ;;
       b_rng <- lift (getitem (bathroom_packages cfg) bname) ;;
       b_quality <- choose_quality ;;
       b_q <- lift (getitem (quality_tiers cfg) b_quality) ;;
       bcost <- unit_cost b_rng b_q city_mult ;;
       ret (bname, bcost)
     else ret ("None", 0.0%float)) ;;
  (* Plumbing add-ons for Kitchen/Bathroom *)
  let plumbing_cost0 := 0.0%float in
  plumbing_cost1 <-
    (if String.eqb room_type "Kitchen" then
       c <- unit_cost (plumbing_per_kitchen cfg) 1.0%float city_mult ;;
       ret (plumbing_cost0 + c)%float
     else ret plumbing_cost0) ;;
  plumbing_cost <-
    (if String.eqb room_type "Bathroom" then
       c <- unit_cost (plumbing_per_bath cfg) 1.0%float city_mult ;;
       ret (plumbing_cost1 + c)%float
     else ret plumbing_cost1) ;;
  (* Furniture/Storage *)
  furniture_level <- choose_furniture_level room_type ;;
  furniture_cost <-
    (if negb (String.eqb furniture_level "None") then
       f_rng <- lift (getitem (furniture_room cfg) furniture_level) ;;
       unit_cost f_rng 1.0%float city_mult
     else ret 0.0%float) ;;
  (* Wastage & sundries *)
  let material_subtotal :=
    (painting_material_cost + flooring_material_cost
     + ceiling_material_cost + electrical_material_cost
     + kitchen_pkg_cost + bath_pkg_cost + plumbing_cost
     + furniture_cost)%float in
  wastage_pct <- rand_range (frange 0.05 0.10) ;;
  let wastage_cost := (material_subtotal * wastage_pct)%float in
  (* Labor subtotal + contractor overhead *)
  let labor_subtotal :=
    (painting_labor_cost + flooring_labor_cost + ceiling_labor_cost
     + electrical_labor_cost)%float in
  let contractor_overhead :=
    ((material_subtotal + labor_subtotal) * labor_overhead_pct)%float in
  (* Pre-tax subtotal *)
  let subtotal_pre_tax :=
    (material_subtotal + wastage_cost + labor_subtotal
     + contractor_overhead)%float in
  (* Apply GST if chosen *)
  let gst_amount :=
    if INCLUDE_GST cfg then (subtotal_pre_tax * GST_RATE cfg)%float
    else 0.0%float in
  let grand_total := (subtotal_pre_tax + gst_amount)%float in
  (* Per sq.ft sanity metric *)
  total_psf <- lift (float_div_int grand_total (py_max_int 1 area)) ;;
  ret {|
    l_city := city;
    l_cinfo := cinfo;
    l_room_type := room_type;
    l_area := area;
    l_renov_level := renov_level;
    l_labor_overhead_pct := labor_overhead_pct;
    l_paint_quality := paint_quality;
    l_floor_quality := floor_quality;
    l_ceiling_quality := ceiling_quality;
    l_painting_material_cost := painting_material_cost;
    l_painting_labor_cost := painting_labor_cost;
    l_floor_type := floor_type;
    l_flooring_material_cost := flooring_material_cost;
    l_flooring_labor_cost := flooring_labor_cost;
    l_has_ceiling := has_ceiling;
    l_ceiling_type := ceiling_type;
    l_ceiling_area := ceiling_area;
    l_ceiling_material_cost := ceiling_material_cost;
    l_ceiling_labor_cost := ceiling_labor_cost;
    l_has_electrical := has_electrical;
    l_electrical_material_cost := electrical_material_cost;
    l_electrical_labor_cost := electrical_labor_cost;
    l_kitchen_pkg_name := kitchen_pkg_name;
    l_kitchen_pkg_cost := kitchen_pkg_cost;
    l_bath_pkg_name := bath_pkg_name;
    l_bath_pkg_cost := bath_pkg_cost;
    l_plumbing_cost := plumbing_cost;
    l_furniture_level := furniture_level;
    l_furniture_cost := furniture_cost;
    l_material_subtotal := material_subtotal;
    l_wastage_cost := wastage_cost;
    l_labor_subtotal := labor_subtotal;
    l_contractor_overhead := contractor_overhead;
    l_subtotal_pre_tax := subtotal_pre_tax;
    l_gst_amount := gst_amount;
    l_grand_total := grand_total;
    l_total_psf := total_psf
  |}.
End Generator.

(** The record [generate_row] returns, one field per key of the source's
    dictionary. *)
Record Row : Type := {
  Row_ID : Z;
  As_Of_Date : string;
  Material_Price_Index : float;
  City : string;
  City_Tier : string;
  City_Multiplier : float;
  Labor_Day_Rate_Min : number;
  Labor_Day_Rate_Max : number;
  Room_Type : string;
  Area_Sqft : Z;
  Renovation_Level : string;
  Paint_Quality : string;
  Floor_Type : string;
  Floor_Quality : string;
  Ceiling_Type : string;
  Ceiling_Quality : string;
  Has_Electrical : bool;
  Furniture_Level : string;
  Kitchen_Package : string;
  Bathroom_Package : string;
  Painting_Material_Cost : Z;
  Painting_Labor_Cost : Z;
  Flooring_Material_Cost : Z;
  Flooring_Labor_Cost : Z;
  Ceiling_Material_Cost : Z;
  Ceiling_Labor_Cost : Z;
  Electrical_Material_Cost : Z;
  Electrical_Labor_Cost : Z;
  Kitchen_Package_Cost : Z;
  Bathroom_Package_Cost : Z;
  Plumbing_Cost : Z;
  Furniture_Cost : Z;
  Wastage_Sundries_Cost : Z;
  Contractor_Overhead_Cost : Z;
  GST_Amount : Z;
  Grand_Total : Z;
  Total_Cost_per_Sqft : float
}.

(** The [return {...}] of [generate_row]: the dictionary display is
    evaluated top to bottom. *)
Definition build_row (cfg : Config) (idx : Z) (l : Locals) : result Row :=
  rbind (getitem (cities cfg) (l_city l)) (fun c_min =>
  rbind (getitem (cities cfg) (l_city l)) (fun c_max =>
  rbind (py_round (l_painting_material_cost l)) (fun painting_material =>
  rbind (py_round (l_painting_labor_cost l)) (fun painting_labor =>
  rbind (py_round (l_flooring_material_cost l)) (fun flooring_material =>
  rbind (py_round (l_flooring_labor_cost l)) (fun flooring_labor =>
  rbind (py_round (l_ceiling_material_cost l)) (fun ceiling_material =>
  rbind (py_round (l_ceiling_labor_cost l)) (fun ceiling_labor =>
  rbind (py_round (l_electrical_material_cost l)) (fun electrical_material =>
  rbind (py_round (l_electrical_labor_cost l)) (fun electrical_labor =>
  rbind (py_round (l_kitchen_pkg_cost l)) (fun kitchen_pkg =>
  rbind (py_round (l_bath_pkg_cost l)) (fun bath_pkg =>
  rbind (py_round (l_plumbing_cost l)) (fun plumbing =>
  rbind (py_round (l_furniture_cost l)) (fun furniture =>
  rbind (py_round (l_wastage_cost l)) (fun wastage =>
  rbind (py_round (l_contractor_overhead l)) (fun overhead =>
  rbind (py_round (l_gst_amount l)) (fun gst =>
  rbind (py_round (l_grand_total l)) (fun grand =>
  Ok {|
    Row_ID := idx;
    As_Of_Date := AS_OF_DATE cfg;
    Material_Price_Index := MATERIAL_PRICE_INDEX cfg;
    City := l_city l;
    City_Tier := tier (l_cinfo l);
    City_Multiplier := multiplier (l_cinfo l);
    Labor_Day_Rate_Min := fst (labor_day_rate c_min);
    Labor_Day_Rate_Max := snd (labor_day_rate c_max);
    Room_Type := l_room_type l;
    Area_Sqft := l_area l;
    Renovation_Level := l_renov_level l;
    Paint_Quality := l_paint_quality l;
    Floor_Type := l_floor_type l;
    Floor_Quality := l_floor_quality l;
    Ceiling_Type := l_ceiling_type l;
    Ceiling_Quality :=
      if l_has_ceiling l then l_ceiling_quality l else "None";
    Has_Electrical := l_has_electrical l;
    Furniture_Level := l_furniture_level l;
    Kitchen_Package := l_kitchen_pkg_name l;
    Bathroom_Package := l_bath_pkg_name l;
    Painting_Material_Cost := painting_material;
    Painting_Labor_Cost := painting_labor;
    Flooring_Material_Cost := flooring_material;
    Flooring_Labor_Cost := flooring_labor;
    Ceiling_Material_Cost := ceiling_material;
    Ceiling_Labor_Cost := ceiling_labor;
    Electrical_Material_Cost := electrical_material;
    Electrical_Labor_Cost := electrical_labor;
    Kitchen_Package_Cost := kitchen_pkg;
    Bathroom_Package_Cost := bath_pkg;
    Plumbing_Cost := plumbing;
    Furniture_Cost := furniture;
    Wastage_Sundries_Cost := wastage;
    Contractor_Overhead_Cost := overhead;
    GST_Amount := gst;
    Grand_Total := grand;
    Total_Cost_per_Sqft := py_round_nd (l_total_psf l) 2
  |})))))))))))))))))).

Section Dataset.
Context {P : PRNG}.
Variable cfg : Config.

Definition generate_row (idx : Z) : M (gen P) Row :=
  l <- generate_row_body cfg ;;
  lift (build_row cfg idx l).

(** [rows = [generate_row(i) for i in range(1, N_ROWS + 1)]]. *)
Definition rows : M (gen P) (list Row) :=
  mapM generate_row (py_range 1 (N_ROWS cfg + 1)).

(** The whole run, from [random.seed(s)] to the assembled list. *)
Definition run (s : Z) : result (list Row) :=
  match rows (seed P s) with
  | Ok (rs, _) => Ok rs
  | Raise e => Raise e
  end.
End Dataset.

(** The program as the source runs it: [random.seed(42)], then [rows]. *)
Definition SEED : Z := 42.

Definition program (P : PRNG) : result (list Row) :=
  run (P := P) default_config SEED.

(* ================================================================== *)
(** ** A replay generator

    A generator whose state is the script of the values it will return:
    the floats for [random()], filtered to the unit interval, and the
    integers for [_randbelow], reduced below the bound.  Any finite run of
    any generator is a replay of the values it drew. *)

Record script : Set := {
  floats : list float;
  ints : list Z
}.

Definition clamp_unit (x : float) : float :=
  if ((0 <=? x) && (x <? 1))%float then x else 0%float.

Definition replay_random (g : script) : float * script :=
  match floats g with
  | [] => (0%float, g)
  | x :: xs => (clamp_unit x, {| floats := xs; ints := ints g |})
  end.

Definition replay_randbelow (n : Z) (g : script) : Z * script :=
  match ints g with
  | [] => (0, g)
  | z :: zs => (z mod n, {| floats := floats g; ints := zs |})
  end.

Lemma replay_random_unit : forall g,
  (0 <=? fst (replay_random g))%float = true /\
  (fst (replay_random g) <? 1)%float = true.
Proof.
  intros [fs zs]. unfold replay_random; simpl.
  destruct fs as [|x xs]; simpl.
  - split; reflexivity.
  - unfold clamp_unit.
    destruct ((0 <=? x)%float) eqn:E0; simpl.
    + destruct ((x <? 1)%float) eqn:E1; simpl.
      * now rewrite E0.
      * split; reflexivity.
    + split; reflexivity.
Qed.

Lemma replay_randbelow_range : forall n g,
  0 < n -> 0 <= fst (replay_randbelow n g) < n.
Proof.
  intros n [fs zs] Hn. unfold replay_randbelow; simpl.
  destruct zs as [|z zs]; simpl.
  - lia.
  - apply Z.mod_pos_bound; exact Hn.
Qed.

(** Seeding the replay generator ignores the seed: the script is the
    source of every draw. *)
Definition replay (g : script) : PRNG := {|
  gen := script;
  seed := fun _ => g;
  next_random := replay_random;
  randbelow := replay_randbelow;
  next_random_unit := replay_random_unit;
  randbelow_range := replay_randbelow_range
|}.

(* ================================================================== *)
(** ** Variants of the configuration *)

(** The configuration [cfg] with its row count set to [n]. *)
Definition with_rows (cfg : Config) (n : Z) : Config := {|
  N_ROWS := n;
  AS_OF_DATE := AS_OF_DATE cfg;
  INCLUDE_GST := INCLUDE_GST cfg;
  GST_RATE := GST_RATE cfg;
  MATERIAL_PRICE_INDEX := MATERIAL_PRICE_INDEX cfg;
  cities := cities cfg;
  room_types := room_types cfg;
  renovation_levels := renovation_levels cfg;
  quality_tiers := quality_tiers cfg;
  painting_psf := painting_psf cfg;
  flooring_catalog := flooring_catalog cfg;
  ceiling_catalog := ceiling_catalog cfg;
  electrical_psf := electrical_psf cfg;
  plumbing_per_bath := plumbing_per_bath cfg;
  plumbing_per_kitchen := plumbing_per_kitchen cfg;
  kitchen_packages := kitchen_packages cfg;
  bathroom_packages := bathroom_packages cfg;
  furniture_room := furniture_room cfg;
  productivity := productivity cfg
|}.

(** The configuration [cfg] with [painting_psf] set to [r]. *)
Definition with_painting_psf (cfg : Config) (r : range) : Config := {|
  N_ROWS := N_ROWS cfg;
  AS_OF_DATE := AS_OF_DATE cfg;
  INCLUDE_GST := INCLUDE_GST cfg;
  GST_RATE := GST_RATE cfg;
  MATERIAL_PRICE_INDEX := MATERIAL_PRICE_INDEX cfg;
  cities := cities cfg;
  room_types := room_types cfg;
  renovation_levels := renovation_levels cfg;
  quality_tiers := quality_tiers cfg;
  painting_psf := r;
  flooring_catalog := flooring_catalog cfg;
  ceiling_catalog := ceiling_catalog cfg;
  electrical_psf := electrical_psf cfg;
  plumbing_per_bath := plumbing_per_bath cfg;
  plumbing_per_kitchen := plumbing_per_kitchen cfg;
  kitchen_packages := kitchen_packages cfg;
  bathroom_packages := bathroom_packages cfg;
  furniture_room := furniture_room cfg;
  productivity := productivity cfg
|}.

(* ================================================================== *)
(** ** Two statements of the specification, as it words them *)

(** [a / b] on two [int]s: the float nearest to the quotient. *)
Definition int_div_int (a b : Z) : result float :=
  if b =? 0 then Raise ZeroDivisionError
  else
    let f := SF2Prim (SFdiv prec emax (int_SF (a <? 0) (Z.abs a))
                                      (int_SF (b <? 0) (Z.abs b))) in
    if is_infinity f then Raise OverflowError else Ok f.

(** [round(Grand_Total / Area_Sqft, 2)] on the fields of the row: what the
    specification says [Total_Cost_per_Sqft] is. *)
Definition claimed_cost_per_sqft (row : Row) : result float :=
  rbind (int_div_int (Grand_Total row) (Area_Sqft row))
        (fun q => Ok (py_round_nd q 2)).






(* ================================================================== *)
(** ** Three recorded runs

    Scripts for the replay generator and the rows [generate_row] returns
    on them with the tables of the source. *)

(** The largest value [random()] can return: CPython computes
    [(a * 2^26 + b) / 2^53] from a 27-bit [a] and a 26-bit [b], so the
    largest value is [(2^53 - 1) / 2^53 = 1 - 2^-53]. *)
Definition largest_unit_float : float := 0x1.fffffffffffffp-1%float.

(** A bedroom in Delhi, basic level: no false ceiling, no rewiring, basic
    furniture. *)
Definition sample_script : script := {|
  floats := [0.5; 0.5; 0.5; 0.5; 0.5; 0.5; 0.5; 0.5; 0.5; 0.5; 0.5; 0.5;
             0.75; 0.75; 0.5; 0.5; 0.15625]%float;
  ints := [0; 0; 0]
|}.

(** A bathroom in Delhi, basic level. *)
Definition bathroom_script : script := {|
  floats := [0.5; 0.5; 0.5; 0.5; 0.5; 0.5; 0.5; 0.5; 0.5; 0.5; 0.5; 0.5;
             0.75; 0.5; 0.5; 0.5; 0.5]%float;
  ints := [0; 3; 0]
|}.

(** The bedroom again, the area drawn with the largest value of
    [random()]. *)
Definition endpoint_script : script := {|
  floats := [largest_unit_float;
             0.5; 0.5; 0.5; 0.5; 0.5; 0.5; 0.5; 0.5; 0.5; 0.5; 0.5;
             0.75; 0.75; 0.5; 0.5; 0.5]%float;
  ints := [0; 0; 0]
|}.

(** A script that has been played to its end. *)
Definition spent : script := {| floats := []; ints := [] |}.

Definition sample_row : Row := {|
  Row_ID := 1;
  As_Of_Date := "2025-09-07";
  Material_Price_Index := 1;
  City := "Delhi";
  City_Tier := "Metro";
  City_Multiplier := 1.2;
  Labor_Day_Rate_Min := PyInt 750;
  Labor_Day_Rate_Max := PyInt 900;
  Room_Type := "Bedroom";
  Area_Sqft := 310;
  Renovation_Level := "Basic";
  Paint_Quality := "Standard";
  Floor_Type := "Ceramic_Tile";
  Floor_Quality := "Standard";
  Ceiling_Type := "None";
  Ceiling_Quality := "None";
  Has_Electrical := false;
  Furniture_Level := "Basic";
  Kitchen_Package := "None";
  Bathroom_Package := "None";
  Painting_Material_Cost := 9858;
  Painting_Labor_Cost := 1112;
  Flooring_Material_Cost := 44640;
  Flooring_Labor_Cost := 2046;
  Ceiling_Material_Cost := 0;
  Ceiling_Labor_Cost := 0;
  Electrical_Material_Cost := 0;
  Electrical_Labor_Cost := 0;
  Kitchen_Package_Cost := 0;
  Bathroom_Package_Cost := 0;
  Plumbing_Cost := 0;
  Furniture_Cost := 66000;
  Wastage_Sundries_Cost := 6966;
  Contractor_Overhead_Cost := 15457;
  GST_Amount := 26294;
  Grand_Total := 172374;
  Total_Cost_per_Sqft := 556.03999999999996
|}.

Definition bathroom_row : Row := {|
  Row_ID := 1;
  As_Of_Date := "2025-09-07";
  Material_Price_Index := 1;
  City := "Delhi";
  City_Tier := "Metro";
  City_Multiplier := 1.2;
  Labor_Day_Rate_Min := PyInt 750;
  Labor_Day_Rate_Max := PyInt 900;
  Room_Type := "Bathroom";
  Area_Sqft := 310;
  Renovation_Level := "Basic";
  Paint_Quality := "Standard";
  Floor_Type := "Vitrified_Tile";
  Floor_Quality := "Standard";
  Ceiling_Type := "None";
  Ceiling_Quality := "None";
  Has_Electrical := false;
  Furniture_Level := "None";
  Kitchen_Package := "None";
  Bathroom_Package := "Basic";
  Painting_Material_Cost := 9858;
  Painting_Labor_Cost := 1112;
  Flooring_Material_Cost := 53940;
  Flooring_Labor_Cost := 2046;
  Ceiling_Material_Cost := 0;
  Ceiling_Labor_Cost := 0;
  Electrical_Material_Cost := 0;
  Electrical_Labor_Cost := 0;
  Kitchen_Package_Cost := 0;
  Bathroom_Package_Cost := 120000;
  Plumbing_Cost := 81000;
  Furniture_Cost := 0;
  Wastage_Sundries_Cost := 19860;
  Contractor_Overhead_Cost := 33494;
  GST_Amount := 57836;
  Grand_Total := 379146;
  Total_Cost_per_Sqft := 1223.05
|}.

Definition endpoint_row : Row := {|
  Row_ID := 1;
  As_Of_Date := "2025-09-07";
  Material_Price_Index := 1;
  City := "Delhi";
  City_Tier := "Metro";
  City_Multiplier := 1.2;
  Labor_Day_Rate_Min := PyInt 750;
  Labor_Day_Rate_Max := PyInt 900;
  Room_Type := "Bedroom";
  Area_Sqft := 550;
  Renovation_Level := "Basic";
  Paint_Quality := "Standard";
  Floor_Type := "Ceramic_Tile";
  Floor_Quality := "Standard";
  Ceiling_Type := "None";
  Ceiling_Quality := "None";
  Has_Electrical := false;
  Furniture_Level := "Basic";
  Kitchen_Package := "None";
  Bathroom_Package := "None";
  Painting_Material_Cost := 17490;
  Painting_Labor_Cost := 1973;
  Flooring_Material_Cost := 79200;
  Flooring_Labor_Cost := 3630;
  Ceiling_Material_Cost := 0;
  Ceiling_Labor_Cost := 0;
  Electrical_Material_Cost := 0;
  Electrical_Labor_Cost := 0;
  Kitchen_Package_Cost := 0;
  Bathroom_Package_Cost := 0;
  Plumbing_Cost := 0;
  Furniture_Cost := 66000;
  Wastage_Sundries_Cost := 12202;
  Contractor_Overhead_Cost := 21037;
  GST_Amount := 36276;
  Grand_Total := 237807;
  Total_Cost_per_Sqft := 432.38
|}.


(* ================================================================== *)
(** ** The Python numbers on known values

    What CPython prints for the same expressions. *)

Example py_round_half_even :
  py_round 0.5 = Ok 0 /\ py_round 1.5 = Ok 2 /\ py_round 2.5 = Ok 2 /\
  py_round (-2.5) = Ok (-2) /\ py_round 172373.50522010867 = Ok 172374.
Proof. repeat split; reflexivity. Qed.

Example py_round_nd_decimals :
  py_round_nd 2.675 2 = 2.67%float /\
  py_round_nd 1.005 2 = 1.0%float /\
  py_round_nd 0.125 2 = 0.12%float /\
  py_round_nd 0.375 2 = 0.38%float /\
  py_round_nd 0.1235 3 = 0.123%float /\
  py_round_nd 556.04356522615694 2 = 556.04%float.
Proof. repeat split; reflexivity. Qed.

Example py_int_truncates :
  py_int 549.9999 = Ok 549 /\ py_int (-3.7) = Ok (-3) /\
  py_int infinity = Raise OverflowError /\ py_int nan = Raise ValueError.
Proof. repeat split; reflexivity. Qed.

Example float_of_int_rounds :
  float_of_int 9007199254740993 = Ok 9007199254740992%float /\
  float_of_int (2 ^ 1024) = Raise OverflowError.
Proof. split; reflexivity. Qed.

Example int_div_int_172374_310 :
  int_div_int 172374 310 = Ok (172374 / 310)%float.
Proof. reflexivity. Qed.

(* ================================================================== *)
(** * Properties *)

(** ** Inversion of the monadic operations *)

Lemma rbind_Ok {A B} (r : result A) (k : A -> result B) b :
  rbind r k = Ok b -> exists a, r = Ok a /\ k a = Ok b.
Proof. destruct r as [a|e]; simpl; intros H; [eauto | discriminate]. Qed.

Lemma bind_Ok {G A B} (c : M G A) (k : A -> M G B) g b g2 :
  bind c k g = Ok (b, g2) ->
  exists a g1, c g = Ok (a, g1) /\ k a g1 = Ok (b, g2).
Proof.
  unfold bind. destruct (c g) as [[a g1]|e]; intros H; [eauto | discriminate].
Qed.

Lemma ret_Ok {G A} (a b : A) (g g' : G) :
  ret a g = Ok (b, g') -> b = a /\ g' = g.
Proof. unfold ret. intros H. inversion H. auto. Qed.

Lemma lift_Ok {G A} (r : result A) (a : A) (g g' : G) :
  lift r g = Ok (a, g') -> r = Ok a /\ g' = g.
Proof. unfold lift. destruct r; intros H; inversion H; auto. Qed.

(** One step of inversion on a hypothesis [c g = Ok _]. *)
Ltac minv1 H :=
  lazymatch type of H with
  | bind _ _ _ = Ok _ =>
      let a := fresh "v" in
      let g := fresh "g" in
      let Hc := fresh "Hc" in
      apply bind_Ok in H; destruct H as (a & g & Hc & H); cbv beta in H
  | ret _ _ = Ok _ =>
      let E := fresh "E" in
      apply ret_Ok in H; destruct H as [H E]
  | lift _ _ = Ok _ =>
      let E := fresh "E" in
      apply lift_Ok in H; destruct H as [H E]
  | rbind _ _ = Ok _ =>
      let a := fresh "v" in
      let Hc := fresh "Hr" in
      apply rbind_Ok in H; destruct H as (a & Hc & H); cbv beta in H
  | (let '(_, _) := ?p in _) _ = Ok _ => destruct p
  end.

Ltac minv H := repeat minv1 H.

(** Inversion of a run of the body of [generate_row]: one hypothesis per
    statement of the source. *)
Ltac invert_body H :=
  unfold generate_row_body in H; minv H;
  repeat match goal with
  | Hl : lift _ _ = Ok _ |- _ =>
      let E := fresh "E" in
      apply lift_Ok in Hl; destruct Hl as [Hl E]
  end.

(* ================================================================== *)
(** ** The binary search of [random.choices] *)

(** The fuel of [bisect] is enough: with [hi - lo] iterations or more the
    loop ends on its own test, and more fuel changes nothing. *)
Lemma bisect_loop_fuel a x :
  forall n m lo hi,
    (Z.to_nat (hi - lo) <= n)%nat -> (Z.to_nat (hi - lo) <= m)%nat ->
    bisect_loop n a x lo hi = bisect_loop m a x lo hi.
Proof.
  induction n as [|n IH]; intros m lo hi Hn Hm.
  - destruct m; simpl; destruct (lo <? hi) eqn:E; try reflexivity.
    apply Z.ltb_lt in E. lia.
  - destruct m as [|m]; simpl; destruct (lo <? hi) eqn:E; try reflexivity.
    + apply Z.ltb_lt in E. lia.
    + apply Z.ltb_lt in E.
      assert (Hmid : lo <= (lo + hi) / 2 < hi).
      { split.
        - apply Z.div_le_lower_bound; lia.
        - apply Z.div_lt_upper_bound; lia. }
      destruct (index a ((lo + hi) / 2)) as [am|e]; simpl; [|reflexivity].
      destruct (x <? am)%float; apply IH; lia.
Qed.

(* ================================================================== *)
(** ** The cost breakdown *)

(** The cost fields of [row] are the roundings of the unrounded costs
    held in the locals [l]. *)
Definition rounded_costs (l : Locals) (row : Row) : Prop :=
  py_round (l_painting_material_cost l) = Ok (Painting_Material_Cost row) /\
  py_round (l_painting_labor_cost l) = Ok (Painting_Labor_Cost row) /\
  py_round (l_flooring_material_cost l) = Ok (Flooring_Material_Cost row) /\
  py_round (l_flooring_labor_cost l) = Ok (Flooring_Labor_Cost row) /\
  py_round (l_ceiling_material_cost l) = Ok (Ceiling_Material_Cost row) /\
  py_round (l_ceiling_labor_cost l) = Ok (Ceiling_Labor_Cost row) /\
  py_round (l_electrical_material_cost l) = Ok (Electrical_Material_Cost row) /\
  py_round (l_electrical_labor_cost l) = Ok (Electrical_Labor_Cost row) /\
  py_round (l_kitchen_pkg_cost l) = Ok (Kitchen_Package_Cost row) /\
  py_round (l_bath_pkg_cost l) = Ok (Bathroom_Package_Cost row) /\
  py_round (l_plumbing_cost l) = Ok (Plumbing_Cost row) /\
  py_round (l_furniture_cost l) = Ok (Furniture_Cost row) /\
  py_round (l_wastage_cost l) = Ok (Wastage_Sundries_Cost row) /\
  py_round (l_contractor_overhead l) = Ok (Contractor_Overhead_Cost row) /\
  py_round (l_gst_amount l) = Ok (GST_Amount row) /\
  py_round (l_grand_total l) = Ok (Grand_Total row).

(** The subtotals of the locals [l], as sums of its unrounded costs. *)
Definition subtotals (cfg : Config) (l : Locals) : Prop :=
  l_material_subtotal l =
    (l_painting_material_cost l + l_flooring_material_cost l
     + l_ceiling_material_cost l + l_electrical_material_cost l
     + l_kitchen_pkg_cost l + l_bath_pkg_cost l + l_plumbing_cost l
     + l_furniture_cost l)%float /\
  l_labor_subtotal l =
    (l_painting_labor_cost l + l_flooring_labor_cost l
     + l_ceiling_labor_cost l + l_electrical_labor_cost l)%float /\
  l_subtotal_pre_tax l =
    (l_material_subtotal l + l_wastage_cost l + l_labor_subtotal l
     + l_contractor_overhead l)%float /\
  l_gst_amount l =
    (if INCLUDE_GST cfg then (l_subtotal_pre_tax l * GST_RATE cfg)%float
     else 0%float) /\
  l_grand_total l = (l_subtotal_pre_tax l + l_gst_amount l)%float.

Section RowFacts.
Context {P : PRNG}.
Variable cfg : Config.

Lemma generate_row_locals idx (g g' : gen P) row :
  generate_row cfg idx g = Ok (row, g') ->
  exists l,
    generate_row_body cfg g = Ok (l, g') /\
    build_row cfg idx l = Ok row.
Proof.
  unfold generate_row. intros H.
  apply bind_Ok in H. destruct H as (l & g1 & Hb & H).
  apply lift_Ok in H. destruct H as [H ->]. eauto.
Qed.

Lemma build_row_rounded idx l row :
  build_row cfg idx l = Ok row -> rounded_costs l row.
Proof.
  unfold build_row. intros H. minv H.
  injection H as <-. unfold rounded_costs; simpl.
  repeat split; assumption.
Qed.

Lemma body_subtotals (g g' : gen P) l :
  generate_row_body cfg g = Ok (l, g') -> subtotals cfg l.
Proof.
  intros H. invert_body H. subst l.
  unfold subtotals; simpl. repeat split; reflexivity.
Qed.

(** C1: the emitted [Grand_Total] is [round(subtotal_pre_tax +
    gst_amount)], where the subtotal is the sum of the material subtotal,
    the wastage, the labor subtotal and the contractor overhead, the
    material subtotal is the sum of the eight unrounded material costs,
    the labor subtotal is the sum of the four unrounded labor costs, and
    the GST amount is the subtotal times the rate when GST is included
    and zero otherwise. *)
Theorem grand_total_is_rounded_sum idx (g g' : gen P) row :
  generate_row cfg idx g = Ok (row, g') ->
  exists l,
    generate_row_body cfg g = Ok (l, g') /\
    rounded_costs l row /\
    subtotals cfg l /\
    py_round (l_subtotal_pre_tax l + l_gst_amount l)%float
      = Ok (Grand_Total row).
Proof.
  intros H. destruct (generate_row_locals _ _ _ _ H) as (l & Hb & Hr).
  exists l. pose proof (build_row_rounded _ _ _ Hr) as Hc.
  pose proof (body_subtotals _ _ _ Hb) as Hs.
  split; [exact Hb | split; [exact Hc | split; [exact Hs | ]]].
  destruct Hs as (_ & _ & _ & _ & <-).
  apply Hc.
Qed.
End RowFacts.

(* ================================================================== *)
(** ** Selections and the fields copied from them *)

(** The fields of [row] that are copied from the locals [l] and the
    configuration without rounding. *)
Definition copied_fields (cfg : Config) (idx : Z) (l : Locals) (row : Row)
  : Prop :=
  Row_ID row = idx /\
  City row = l_city l /\
  City_Tier row = tier (l_cinfo l) /\
  City_Multiplier row = multiplier (l_cinfo l) /\
  (exists c, getitem (cities cfg) (l_city l) = Ok c /\
             Labor_Day_Rate_Min row = fst (labor_day_rate c) /\
             Labor_Day_Rate_Max row = snd (labor_day_rate c)) /\
  Room_Type row = l_room_type l /\
  Area_Sqft row = l_area l /\
  Ceiling_Type row = l_ceiling_type l /\
  Ceiling_Quality row =
    (if l_has_ceiling l then l_ceiling_quality l else "None") /\
  Furniture_Level row = l_furniture_level l /\
  Kitchen_Package row = l_kitchen_pkg_name l /\
  Bathroom_Package row = l_bath_pkg_name l /\
  Total_Cost_per_Sqft row = py_round_nd (l_total_psf l) 2.

Lemma build_row_copied cfg idx l row :
  build_row cfg idx l = Ok row -> copied_fields cfg idx l row.
Proof.
  unfold build_row. intros H. minv H.
  injection H as <-. unfold copied_fields; simpl.
  repeat match goal with |- _ /\ _ => split end; try reflexivity.
  match goal with
  | H1 : getitem _ _ = Ok ?a, H2 : getitem _ _ = Ok ?b |- _ =>
      rewrite H1 in H2; injection H2 as <-; exists a; auto
  end.
Qed.

Lemma py_round_zero z : py_round 0%float = Ok z -> z = 0.
Proof. intros H. vm_compute in H. now injection H. Qed.

Lemma float_mul_int_zero_zero x :
  float_mul_int 0%float 0 = Ok x -> x = 0%float.
Proof. intros H. vm_compute in H. now injection H. Qed.

Lemma eqb_neq_false (a b : string) : a <> b -> String.eqb a b = false.
Proof. intros H. now apply String.eqb_neq. Qed.

Section Selections.
Context {P : PRNG}.
Variable cfg : Config.

Lemma body_kitchen_package (g g' : gen P) l :
  generate_row_body cfg g = Ok (l, g') ->
  l_room_type l <> "Kitchen" ->
  l_kitchen_pkg_name l = "None" /\ l_kitchen_pkg_cost l = 0%float.
Proof.
  intros H. invert_body H. subst l; simpl.
  intros Hroom; apply eqb_neq_false in Hroom.
  match goal with
  | Hk : (if String.eqb _ "Kitchen" then _ else ret ("None", _)) _ = Ok _
    |- _ => rewrite Hroom in Hk; minv Hk; injection Hk as -> ->
  end.
  split; reflexivity.
Qed.

Lemma body_bathroom_package (g g' : gen P) l :
  generate_row_body cfg g = Ok (l, g') ->
  l_room_type l <> "Bathroom" ->
  l_bath_pkg_name l = "None" /\ l_bath_pkg_cost l = 0%float.
Proof.
  intros H. invert_body H. subst l; simpl.
  intros Hroom; apply eqb_neq_false in Hroom.
  match goal with
  | Hk : (if String.eqb _ "Bathroom" then _ else ret ("None", _)) _ = Ok _
    |- _ => rewrite Hroom in Hk; minv Hk; injection Hk as -> ->
  end.
  split; reflexivity.
Qed.

Lemma body_bathroom_ceiling (g g' : gen P) l :
  generate_row_body cfg g = Ok (l, g') ->
  l_room_type l = "Bathroom" ->
  l_has_ceiling l = false /\
  l_ceiling_type l = "None" /\
  l_ceiling_material_cost l = 0%float /\
  l_ceiling_labor_cost l = 0%float.
Proof.
  intros H. invert_body H. subst l; simpl.
  intros ->.
  match goal with
  | Hh : (if negb (String.eqb "Bathroom" "Bathroom") then _ else ret false) _
         = Ok (?b, _) |- _ =>
      simpl in Hh; minv Hh; subst b
  end.
  repeat match goal with
  | Hh : (if false then _ else _) _ = Ok _ |- _ => cbv iota in Hh
  | Hh : ret _ _ = Ok _ |- _ => apply ret_Ok in Hh; destruct Hh; subst
  end.
  match goal with
  | Hh : float_mul_int 0%float 0 = Ok _ |- _ =>
      apply float_mul_int_zero_zero in Hh; subst
  end.
  repeat split; reflexivity.
Qed.

Lemma body_city (g g' : gen P) l :
  generate_row_body cfg g = Ok (l, g') ->
  getitem (cities cfg) (l_city l) = Ok (l_cinfo l).
Proof.
  intros H. invert_body H. subst l; simpl. assumption.
Qed.

(** C4: outside a kitchen the kitchen package is ["None"] and costs 0;
    outside a bathroom the bathroom package is ["None"] and costs 0. *)
Theorem packages_only_in_their_room idx (g g' : gen P) row :
  generate_row cfg idx g = Ok (row, g') ->
  (Room_Type row <> "Kitchen" ->
     Kitchen_Package_Cost row = 0 /\ Kitchen_Package row = "None") /\
  (Room_Type row <> "Bathroom" ->
     Bathroom_Package_Cost row = 0 /\ Bathroom_Package row = "None").
Proof.
  intros H. destruct (generate_row_locals _ _ _ _ _ H) as (l & Hb & Hr).
  pose proof (build_row_rounded _ _ _ _ Hr) as Hc.
  destruct (build_row_copied _ _ _ _ Hr)
    as (_ & _ & _ & _ & _ & Hroom & _ & _ & _ & _ & Hk & Hbp & _).
  destruct Hc as (_ & _ & _ & _ & _ & _ & _ & _ & Hkc & Hbc & _).
  rewrite Hroom, Hk, Hbp. split; intros Hne.
  - destruct (body_kitchen_package _ _ _ Hb Hne) as [-> E].
    rewrite E in Hkc. split; [now apply py_round_zero | reflexivity].
  - destruct (body_bathroom_package _ _ _ Hb Hne) as [-> E].
    rewrite E in Hbc. split; [now apply py_round_zero | reflexivity].
Qed.

(** C5: a bathroom never gets a false ceiling: both ceiling costs are 0
    and the ceiling type and quality are ["None"]. *)
Theorem bathroom_has_no_ceiling idx (g g' : gen P) row :
  generate_row cfg idx g = Ok (row, g') ->
  Room_Type row = "Bathroom" ->
  Ceiling_Material_Cost row = 0 /\
  Ceiling_Labor_Cost row = 0 /\
  Ceiling_Type row = "None" /\
  Ceiling_Quality row = "None".
Proof.
  intros H. destruct (generate_row_locals _ _ _ _ _ H) as (l & Hb & Hr).
  pose proof (build_row_rounded _ _ _ _ Hr) as Hc.
  destruct (build_row_copied _ _ _ _ Hr)
    as (_ & _ & _ & _ & _ & Hroom & _ & Hct & Hcq & _).
  destruct Hc as (_ & _ & _ & _ & Hcm & Hcl & _).
  rewrite Hroom, Hct, Hcq. intros Hbath.
  destruct (body_bathroom_ceiling _ _ _ Hb Hbath) as (-> & -> & Em & El).
  rewrite Em in Hcm. rewrite El in Hcl.
  repeat split; try reflexivity; now apply py_round_zero.
Qed.

(** C10: the tier, the multiplier and the two labor day-rate bounds of a
    row are those of the entry of [cities] for the row's city. *)
Theorem city_fields_follow_the_table idx (g g' : gen P) row :
  generate_row cfg idx g = Ok (row, g') ->
  exists cinfo,
    lookup (cities cfg) (City row) = Some cinfo /\
    City_Tier row = tier cinfo /\
    City_Multiplier row = multiplier cinfo /\
    Labor_Day_Rate_Min row = fst (labor_day_rate cinfo) /\
    Labor_Day_Rate_Max row = snd (labor_day_rate cinfo).
Proof.
  intros H. destruct (generate_row_locals _ _ _ _ _ H) as (l & Hb & Hr).
  destruct (build_row_copied _ _ _ _ Hr)
    as (_ & Hcity & Ht & Hm & (c & Hg & Hmin & Hmax) & _).
  pose proof (body_city _ _ _ Hb) as Hci.
  rewrite Hci in Hg. injection Hg as <-.
  exists (l_cinfo l). rewrite Hcity.
  unfold getitem in Hci.
  destruct (lookup (cities cfg) (l_city l)) as [ci|]; [|discriminate].
  injection Hci as ->. auto.
Qed.
End Selections.

(* ================================================================== *)
(** ** The dataset *)

(** [steps f xs g ys g']: running [f] on the elements of [xs] in order,
    each call starting from the generator state the previous one left,
    goes from state [g] to state [g'] and returns [ys]. *)
Inductive steps {G A B} (f : A -> M G B)
  : list A -> G -> list B -> G -> Prop :=
| steps_nil g : steps f [] g [] g
| steps_cons x xs g y g1 ys g' :
    f x g = Ok (y, g1) ->
    steps f xs g1 ys g' ->
    steps f (x :: xs) g (y :: ys) g'.

Lemma mapM_steps {G A B} (f : A -> M G B) xs :
  forall g ys g', mapM f xs g = Ok (ys, g') <-> steps f xs g ys g'.
Proof.
  induction xs as [|x xs IH]; intros g ys g'; simpl.
  - split.
    + intros H. apply ret_Ok in H. destruct H as [-> ->]. constructor.
    + intros H. inversion H; subst. reflexivity.
  - split.
    + intros H. minv H. subst.
      econstructor; [eassumption|]. now apply IH.
    + intros H. inversion H as [|? ? ? y g1 ys' ? Hx Hs]; subst.
      apply IH in Hs. unfold bind. rewrite Hx. unfold bind.
      rewrite Hs. reflexivity.
Qed.

Lemma steps_length {G A B} (f : A -> M G B) xs g ys g' :
  steps f xs g ys g' -> List.length ys = List.length xs.
Proof. induction 1; simpl; congruence. Qed.

Lemma steps_map {G A B C} (f : A -> M G B) (h : B -> C) (k : A -> C) :
  (forall x g y g', f x g = Ok (y, g') -> h y = k x) ->
  forall xs g ys g', steps f xs g ys g' -> map h ys = map k xs.
Proof.
  intros Hf. induction 1 as [|x xs g y g1 ys g' Hx Hs IH]; simpl.
  - reflexivity.
  - f_equal; eauto.
Qed.

Lemma py_range_length lo hi :
  List.length (py_range lo hi) = Z.to_nat (hi - lo).
Proof. unfold py_range. now rewrite length_map, length_seq. Qed.

Lemma py_range_nth lo hi (k : nat) :
  (k < Z.to_nat (hi - lo))%nat ->
  nth_error (py_range lo hi) k = Some (lo + Z.of_nat k).
Proof.
  intros Hk. unfold py_range.
  rewrite nth_error_map, nth_error_seq.
  destruct (Nat.ltb_spec k (Z.to_nat (hi - lo))); [reflexivity | lia].
Qed.

Section DatasetFacts.
Context {P : PRNG}.
Variable cfg : Config.

Lemma generate_row_id idx (g g' : gen P) row :
  generate_row cfg idx g = Ok (row, g') -> Row_ID row = idx.
Proof.
  intros H. destruct (generate_row_locals _ _ _ _ _ H) as (l & _ & Hr).
  apply build_row_copied in Hr. apply Hr.
Qed.

(** C8: the dataset holds exactly [N_ROWS] records, by default 10000; it
    is produced by calling [generate_row] on the indices 1, 2, ..., in
    increasing order, each call continuing from the generator state the
    previous call left; and the [Row_ID]s, in order, are 1, 2, ...,
    [N_ROWS]. *)
Theorem dataset_has_N_rows_in_order (g g' : gen P) rs :
  rows cfg g = Ok (rs, g') ->
  0 <= N_ROWS cfg ->
  N_ROWS default_config = 10000 /\
  len rs = N_ROWS cfg /\
  steps (generate_row cfg) (py_range 1 (N_ROWS cfg + 1)) g rs g' /\
  map Row_ID rs = py_range 1 (N_ROWS cfg + 1) /\
  (forall k : nat, Z.of_nat k < N_ROWS cfg ->
     exists row, nth_error rs k = Some row /\ Row_ID row = 1 + Z.of_nat k).
Proof.
  intros H HN. unfold rows in H. apply mapM_steps in H.
  pose proof (steps_length _ _ _ _ _ H) as Hlen.
  rewrite py_range_length in Hlen.
  assert (Hids : map Row_ID rs = py_range 1 (N_ROWS cfg + 1)).
  { rewrite <- (map_id (py_range 1 (N_ROWS cfg + 1))).
    eapply steps_map; [|exact H].
    intros x g0 y g0' Hx. now apply generate_row_id in Hx. }
  split; [reflexivity|]. split; [unfold len; lia|].
  split; [exact H|]. split; [exact Hids|].
  intros k Hk.
  assert (Hn : nth_error (map Row_ID rs) k = Some (1 + Z.of_nat k)).
  { rewrite Hids. apply py_range_nth. lia. }
  rewrite nth_error_map in Hn.
  destruct (nth_error rs k) as [row|]; [|discriminate].
  exists row. split; [reflexivity|]. cbn [option_map] in Hn. now injection Hn.
Qed.
End DatasetFacts.

(* ================================================================== *)
(** ** Signs of binary64 results *)

Lemma shr_1_nonneg mrs : 0 <= shr_m mrs -> 0 <= shr_m (shr_1 mrs).
Proof.
  destruct mrs as [m r s]; simpl.
  destruct m as [|[p|p|]|[p|p|]]; simpl; lia.
Qed.

Lemma iter_pos_inv {A} (f : A -> A) (Q : A -> Prop) :
  (forall a, Q a -> Q (f a)) ->
  forall p a, Q a -> Q (iter_pos f p a).
Proof.
  intros Hf. induction p as [p IH|p IH|]; simpl; intros a Ha; auto.
Qed.

Lemma shr_nonneg mrs e n :
  0 <= shr_m mrs -> 0 <= shr_m (fst (shr mrs e n)).
Proof.
  intros H. unfold shr. destruct n; simpl; auto.
  apply (iter_pos_inv shr_1 (fun a => 0 <= shr_m a)); auto using shr_1_nonneg.
Qed.

Lemma shr_record_of_loc_m m l : shr_m (shr_record_of_loc m l) = m.
Proof. destruct l as [|[]]; reflexivity. Qed.

Lemma shr_fexp_nonneg m e l :
  0 <= m -> 0 <= shr_m (fst (shr_fexp prec emax m e l)).
Proof.
  intros H. unfold shr_fexp. apply shr_nonneg.
  now rewrite shr_record_of_loc_m.
Qed.

Lemma round_nearest_even_nonneg m l :
  0 <= m -> 0 <= round_nearest_even m l.
Proof.
  intros H. unfold round_nearest_even.
  destruct l as [|[]]; try lia. destruct (Z.even m); lia.
Qed.

(** [signed sx x]: [x] is a zero, a finite number or an infinity whose
    sign bit is [sx]. *)
Definition signed (sx : bool) (x : spec_float) : Prop :=
  match x with
  | S754_zero s | S754_infinity s | S754_finite s _ _ => s = sx
  | S754_nan => False
  end.

(** [nonneg x]: [x] is a zero of either sign, or positive.  [nonneg_or_nan]
    also admits NaN, which [inf * 0] and [inf - inf] produce. *)
Definition nonneg (x : spec_float) : Prop :=
  match x with
  | S754_zero _ => True
  | S754_infinity s | S754_finite s _ _ => s = false
  | S754_nan => False
  end.

Definition nonneg_or_nan (x : spec_float) : Prop :=
  match x with
  | S754_nan => True
  | _ => nonneg x
  end.

Lemma signed_nonneg x : signed false x -> nonneg x.
Proof. destruct x; simpl; auto. Qed.

Lemma nonneg_nonneg_or_nan x : nonneg x -> nonneg_or_nan x.
Proof. destruct x; simpl; auto. Qed.

Lemma binary_round_aux_signed sx mx ex lx :
  0 <= mx -> signed sx (binary_round_aux prec emax sx mx ex lx).
Proof.
  intros H. unfold binary_round_aux.
  pose proof (shr_fexp_nonneg mx ex lx H) as H1.
  destruct (shr_fexp prec emax mx ex lx) as [mrs' e'] eqn:E1. simpl in H1.
  pose proof (round_nearest_even_nonneg (shr_m mrs')
                (loc_of_shr_record mrs') H1) as H2.
  pose proof (shr_fexp_nonneg _ e' loc_Exact H2) as H3.
  destruct (shr_fexp prec emax _ e' loc_Exact) as [mrs'' e''] eqn:E2.
  simpl in H3.
  destruct (shr_m mrs''); simpl; try reflexivity.
  - match goal with |- context [if ?b then _ else _] => destruct b end;
    simpl; reflexivity.
  - lia.
Qed.

Lemma binary_round_signed sx mx ex :
  signed sx (binary_round prec emax sx mx ex).
Proof.
  unfold binary_round.
  destruct (shl_align mx ex _) as [mz ez].
  apply binary_round_aux_signed. lia.
Qed.

Lemma binary_normalize_signed m e :
  0 <= m -> signed false (binary_normalize prec emax m e false).
Proof.
  intros H. unfold binary_normalize. destruct m; try lia.
  - reflexivity.
  - apply binary_round_signed.
Qed.

Lemma SFmul_nonneg x y :
  nonneg_or_nan x -> nonneg_or_nan y -> nonneg_or_nan (SF64mul x y).
Proof.
  destruct x as [sx|sx| |sx mx ex], y as [sy|sy| |sy my ey]; simpl;
    intros Hx Hy; subst; try exact I; try reflexivity.
  apply nonneg_nonneg_or_nan, signed_nonneg.
  apply (binary_round_aux_signed false). lia.
Qed.

Lemma SFadd_nonneg x y :
  nonneg_or_nan x -> nonneg_or_nan y -> nonneg_or_nan (SF64add x y).
Proof.
  destruct x as [sx|sx| |sx mx ex], y as [sy|sy| |sy my ey]; simpl;
    intros Hx Hy; subst; try exact I; try reflexivity.
  - destruct sx, sy; exact I.
  - apply nonneg_nonneg_or_nan, signed_nonneg.
    unfold SF64add, SFadd. cbn [cond_Zopp].
    apply binary_normalize_signed. lia.
Qed.

Lemma div_eucl_nonneg a b :
  0 <= a -> 0 < b -> 0 <= fst (Z.div_eucl a b).
Proof.
  intros Ha Hb. change (fst (Z.div_eucl a b)) with (a / b).
  apply Z.div_pos; lia.
Qed.

Lemma SFdiv_core_nonneg m1 e1 m2 e2 :
  let '(q, _, _) := SFdiv_core_binary prec emax (Zpos m1) e1 (Zpos m2) e2 in
  0 <= q.
Proof.
  unfold SFdiv_core_binary.
  set (s := _ - _ - _).
  set (m' := match s with Z0 => _ | Zpos _ => _ | Zneg _ => _ end).
  assert (Hm : 0 <= m').
  { subst m'. destruct s; try lia. apply Z.shiftl_nonneg. lia. }
  pose proof (div_eucl_nonneg m' (Zpos m2) Hm ltac:(lia)) as Hq.
  destruct (Z.div_eucl m' (Zpos m2)) as [q r]. exact Hq.
Qed.

(** A quotient by a non-zero divisor, as Python computes it. *)
Lemma SFdiv_nonneg x y :
  nonneg_or_nan x -> nonneg_or_nan y ->
  (forall s, y <> S754_zero s) ->
  nonneg_or_nan (SF64div x y).
Proof.
  destruct x as [sx|sx| |sx mx ex], y as [sy|sy| |sy my ey]; simpl;
    intros Hx Hy Hz; subst; try exact I; try reflexivity;
    try (exfalso; eapply Hz; reflexivity).
  pose proof (SFdiv_core_nonneg mx ex my ey) as Hq.
  unfold SF64div, SFdiv. simpl xorb.
  destruct (SFdiv_core_binary prec emax (Zpos mx) ex (Zpos my) ey)
    as [[q e] l].
  apply nonneg_nonneg_or_nan, signed_nonneg.
  now apply binary_round_aux_signed.
Qed.

(** *** The same for primitive floats *)

(** [NN x]: the float [x] is not negative (it may be NaN);
    [NNs x]: moreover it is not NaN, that is [0 <= x]. *)
Definition NN (x : float) : Prop := nonneg_or_nan (Prim2SF x).
Definition NNs (x : float) : Prop := nonneg (Prim2SF x).

Lemma NNs_NN x : NNs x -> NN x.
Proof. apply nonneg_nonneg_or_nan. Qed.

Lemma NN_mul x y : NN x -> NN y -> NN (x * y)%float.
Proof. unfold NN. rewrite mul_spec. apply SFmul_nonneg. Qed.

Lemma NN_add x y : NN x -> NN y -> NN (x + y)%float.
Proof. unfold NN. rewrite add_spec. apply SFadd_nonneg. Qed.

Lemma eqb_zero_false y :
  (y =? 0)%float = false -> forall s, Prim2SF y <> S754_zero s.
Proof.
  rewrite eqb_spec. intros H s E. rewrite E in H.
  vm_compute in H. discriminate.
Qed.

Lemma NN_py_div x y q : NN x -> NN y -> py_div x y = Ok q -> NN q.
Proof.
  unfold py_div. intros Hx Hy.
  destruct (y =? 0)%float eqn:E; [discriminate|].
  intros H. injection H as <-.
  unfold NN. rewrite div_spec.
  apply SFdiv_nonneg; auto using eqb_zero_false.
Qed.

Lemma leb_zero_NNs x : (0 <=? x)%float = true -> NNs x.
Proof.
  rewrite leb_spec. unfold NNs.
  change (Prim2SF 0) with (S754_zero false).
  destruct (Prim2SF x) as [s|s| |s m e]; simpl; try easy;
    destruct s; easy.
Qed.

Lemma NNs_leb_zero x : NNs x -> (0 <=? x)%float = true.
Proof.
  rewrite leb_spec. unfold NNs.
  change (Prim2SF 0) with (S754_zero false).
  destruct (Prim2SF x) as [s|s| |s m e]; simpl; try easy;
    intros ->; reflexivity.
Qed.

Lemma NN_py_max_float a b : NN a -> NN b -> NN (py_max_float a b).
Proof. unfold py_max_float. destruct (a <? b)%float; auto. Qed.

(** [SF2Prim] keeps the sign class, whether or not its argument is a
    valid binary64 number. *)
Lemma SFldexp_signed x e :
  signed false x -> signed false (SFldexp prec emax x e).
Proof.
  destruct x as [s|s| |s m ex]; simpl; auto.
  intros ->. apply binary_round_signed.
Qed.

Lemma SF2Prim_signed x : signed false x -> signed false (Prim2SF (SF2Prim x)).
Proof.
  destruct x as [s|s| |s m e]; simpl; try easy; intros ->.
  - reflexivity.
  - reflexivity.
  - unfold Z.ldexp. rewrite ldshiftexp_spec.
    apply SFldexp_signed. rewrite of_uint63_spec.
    apply binary_normalize_signed. apply Uint63.to_Z_bounded.
Qed.

Lemma SF2Prim_nonneg x : nonneg x -> nonneg (Prim2SF (SF2Prim x)).
Proof.
  destruct x as [[]|s| |s m e]; simpl; try easy; intros ->.
  - reflexivity.
  - apply signed_nonneg, (SF2Prim_signed (S754_finite false m e)).
    reflexivity.
Qed.

Lemma float_of_int_NNs z f : 0 <= z -> float_of_int z = Ok f -> NNs f.
Proof.
  unfold float_of_int. intros Hz.
  destruct (is_infinity _); [discriminate|].
  intros H. injection H as <-.
  apply signed_nonneg, SF2Prim_signed.
  now apply binary_normalize_signed.
Qed.

(** *** Conversions back to integers *)

Lemma rhe_div_nonneg n d : 0 <= n -> 0 < d -> 0 <= rhe_div n d.
Proof.
  intros Hn Hd. unfold rhe_div.
  assert (0 <= n / d) by (apply Z.div_pos; lia).
  destruct (2 * (n mod d) ?= d); [destruct (Z.even _)| |]; lia.
Qed.

Lemma round_dyadic_nonneg m e nd : 0 <= nd -> 0 <= round_dyadic m e nd.
Proof.
  intros Hnd. unfold round_dyadic.
  assert (0 < 10 ^ nd) by (apply Z.pow_pos_nonneg; lia).
  destruct (0 <=? e) eqn:E.
  - apply Z.leb_le in E.
    assert (0 < 2 ^ e) by (apply Z.pow_pos_nonneg; lia). nia.
  - apply Z.leb_gt in E. apply rhe_div_nonneg; [nia|].
    apply Z.pow_pos_nonneg; lia.
Qed.

Lemma trunc_dyadic_nonneg m e : 0 <= trunc_dyadic m e.
Proof.
  unfold trunc_dyadic. destruct (0 <=? e) eqn:E.
  - apply Z.leb_le in E.
    assert (0 < 2 ^ e) by (apply Z.pow_pos_nonneg; lia). nia.
  - apply Z.leb_gt in E. apply Z.div_pos; [lia|].
    apply Z.pow_pos_nonneg; lia.
Qed.

Lemma py_round_nonneg x z : NN x -> py_round x = Ok z -> 0 <= z.
Proof.
  unfold NN, py_round. intros Hx H.
  destruct (Prim2SF x) as [s|s| |s m e]; cbv [nonneg_or_nan nonneg] in Hx;
    try discriminate H; injection H as <-.
  - lia.
  - subst s. simpl. now apply round_dyadic_nonneg.
Qed.

Lemma py_int_nonneg x z : NN x -> py_int x = Ok z -> 0 <= z.
Proof.
  unfold NN, py_int. intros Hx H.
  destruct (Prim2SF x) as [s|s| |s m e]; cbv [nonneg_or_nan nonneg] in Hx;
    try discriminate H; injection H as <-.
  - lia.
  - subst s. simpl. apply trunc_dyadic_nonneg.
Qed.

Lemma NNs_py_round_nd x nd : 0 <= nd -> NNs x -> NNs (py_round_nd x nd).
Proof.
  intros Hnd Hx. unfold NNs in *. unfold py_round_nd.
  destruct (Prim2SF x) as [s|s| |s m e] eqn:E;
    try (rewrite E; exact Hx).
  cbv [nonneg] in Hx. subst s. apply SF2Prim_nonneg.
  pose proof (round_dyadic_nonneg m e nd Hnd) as Hn.
  assert (Hp : 0 < 10 ^ nd) by (apply Z.pow_pos_nonneg; lia).
  destruct (round_dyadic m e nd) as [|n|n]; try lia;
    destruct (10 ^ nd) as [|d|d]; try lia; simpl; auto.
  pose proof (SFdiv_core_nonneg n 0 d 0) as Hq.
  destruct (SFdiv_core_binary prec emax (Zpos n) 0 (Zpos d) 0) as [[q e'] l].
  apply signed_nonneg. now apply binary_round_aux_signed.
Qed.

Lemma NN_py_round_nd x nd : 0 <= nd -> NN x -> NN (py_round_nd x nd).
Proof.
  intros Hnd Hx. unfold NN in *.
  destruct (Prim2SF x) as [s|s| |s m e] eqn:E.
  - apply nonneg_nonneg_or_nan, NNs_py_round_nd; auto.
    unfold NNs. now rewrite E.
  - apply nonneg_nonneg_or_nan, NNs_py_round_nd; auto.
    unfold NNs. now rewrite E.
  - unfold py_round_nd. now rewrite E, E.
  - apply nonneg_nonneg_or_nan, NNs_py_round_nd; auto.
    unfold NNs. now rewrite E.
Qed.

(* ================================================================== *)
(** ** Non-negative costs *)

(** A [(min, max)] tuple with [0 <= min <= max]; for float bounds the
    second inequality is read on the difference [max - min] that
    [random.uniform] computes. *)
Definition range_okb (r : range) : bool :=
  match r with
  | (PyInt a, PyInt b) => (0 <=? a) && (a <=? b)
  | (PyFloat a, PyFloat b) => ((0 <=? a) && (0 <=? b - a))%float
  | _ => false
  end.

Definition table_okb {V} (p : V -> bool) (d : dict V) : bool :=
  forallb (fun kv => p (snd kv)) d.

Definition city_okb (c : city_info) : bool :=
  (0 <=? multiplier c)%float && range_okb (labor_day_rate c).

(** The tables hold no negative price, rate, factor or multiplier. *)
Definition config_okb (cfg : Config) : bool :=
  (0 <=? GST_RATE cfg)%float &&
  (0 <=? MATERIAL_PRICE_INDEX cfg)%float &&
  table_okb city_okb (cities cfg) &&
  table_okb (fun l => range_okb (labor_overhead l)) (renovation_levels cfg) &&
  table_okb (fun q => (0 <=? q)%float) (quality_tiers cfg) &&
  range_okb (painting_psf cfg) &&
  table_okb range_okb (flooring_catalog cfg) &&
  table_okb range_okb (ceiling_catalog cfg) &&
  range_okb (electrical_psf cfg) &&
  range_okb (plumbing_per_bath cfg) &&
  range_okb (plumbing_per_kitchen cfg) &&
  table_okb range_okb (kitchen_packages cfg) &&
  table_okb range_okb (bathroom_packages cfg) &&
  table_okb range_okb (furniture_room cfg) &&
  table_okb range_okb (productivity cfg).

Lemma default_config_ok : config_okb default_config = true.
Proof. vm_compute. reflexivity. Qed.

Lemma getitem_table_ok {V} (p : V -> bool) (d : dict V) k v :
  table_okb p d = true -> getitem d k = Ok v -> p v = true.
Proof.
  unfold getitem. induction d as [|[k' v'] d IH]; simpl; [discriminate|].
  intros H. apply andb_prop in H. destruct H as [Hv Hd].
  destruct (String.eqb k k').
  - intros E. injection E as <-. exact Hv.
  - now apply IH.
Qed.

Section Signs.
Context {P : PRNG}.

Lemma random_random_NNs (g g' : gen P) u :
  random_random g = Ok (u, g') -> NNs u.
Proof.
  unfold random_random. intros H. injection H as Hu.
  apply leb_zero_NNs.
  destruct (next_random_unit P g) as [H0 _].
  now rewrite Hu in H0.
Qed.

Lemma rand_range_NN r (g g' : gen P) x :
  range_okb r = true -> rand_range r g = Ok (x, g') -> NN x.
Proof.
  unfold rand_range, random_uniform. intros Hr H. minv H.
  apply random_random_NNs, NNs_NN in Hc0.
  apply lift_Ok in Hc, Hc1. destruct Hc as [Hd _], Hc1 as [Hp _].
  destruct r as [[a|a] [b|b]]; simpl in *; try discriminate.
  - apply andb_prop in Hr. destruct Hr as [Ha Hb].
    apply Z.leb_le in Ha, Hb.
    injection Hd as <-. unfold num_mul_float in Hp. simpl in Hp.
    unfold num_add_float in H. simpl in H.
    minv H. minv Hp. injection H as <-. injection Hp as <-.
    repeat match goal with
    | Hf : float_of_int _ = Ok _ |- _ =>
        apply float_of_int_NNs, NNs_NN in Hf; [|lia]
    end.
    apply NN_add; [assumption|]. now apply NN_mul.
  - apply andb_prop in Hr. destruct Hr as [Ha Hb].
    apply leb_zero_NNs, NNs_NN in Ha, Hb.
    injection Hd as <-. unfold num_mul_float in Hp. simpl in Hp.
    injection Hp as <-.
    unfold num_add_float in H. simpl in H. injection H as <-.
    apply NN_add; [assumption|]. now apply NN_mul.
Qed.

Variable cfg : Config.
Hypothesis cfg_ok : config_okb cfg = true.

Lemma index_NN : NN (MATERIAL_PRICE_INDEX cfg).
Proof.
  unfold config_okb in cfg_ok.
  repeat (apply andb_prop in cfg_ok; destruct cfg_ok as [cfg_ok ?]).
  now apply NNs_NN, leb_zero_NNs.
Qed.

Lemma psf_cost_NN rng q c (g g' : gen P) x :
  range_okb rng = true -> NN q -> NN c ->
  psf_cost cfg rng q c g = Ok (x, g') -> NN x.
Proof.
  intros Hr Hq Hc H. unfold psf_cost in H. minv H. subst x.
  apply rand_range_NN in Hc0; [|assumption].
  repeat apply NN_mul; auto using index_NN.
Qed.

Lemma unit_cost_NN rng q c (g g' : gen P) x :
  range_okb rng = true -> NN q -> NN c ->
  unit_cost cfg rng q c g = Ok (x, g') -> NN x.
Proof. exact (psf_cost_NN rng q c g g' x). Qed.

Lemma productivity_ok k r :
  getitem (productivity cfg) k = Ok r -> range_okb r = true.
Proof.
  unfold config_okb in cfg_ok.
  repeat (apply andb_prop in cfg_ok; destruct cfg_ok as [cfg_ok ?]).
  now apply getitem_table_ok.
Qed.

Lemma int_div_float_NN z x q :
  0 <= z -> NN x -> int_div_float z x = Ok q -> NN q.
Proof.
  unfold int_div_float. intros Hz Hx H. minv H.
  apply float_of_int_NNs, NNs_NN in Hr; [|assumption].
  now apply (NN_py_div _ _ _ Hr Hx).
Qed.

Lemma labor_component_cost_NN area cinfo cat (g g' : gen P) x :
  0 <= area -> range_okb (labor_day_rate cinfo) = true ->
  labor_component_cost cfg area cinfo cat g = Ok (x, g') -> NN x.
Proof.
  intros Ha Hr H. unfold labor_component_cost in H. minv H. subst x.
  apply rand_range_NN in Hc; [|assumption].
  assert (Hs : NN v0).
  { repeat match goal with
    | Hi : (if ?b then _ else _) _ = Ok _ |- _ => destruct b
    end;
    try (minv Hc0; apply lift_Ok in Hc2; destruct Hc2 as [Hc2 _];
         apply productivity_ok in Hc2; now apply rand_range_NN in Hc0).
    apply ret_Ok in Hc0. destruct Hc0 as [-> _].
    apply NNs_NN, leb_zero_NNs. reflexivity. }
  apply lift_Ok in Hc1. destruct Hc1 as [Hc1 _].
  apply int_div_float_NN in Hc1; auto.
  apply NN_mul; [assumption|].
  apply NN_py_max_float; [|assumption].
  apply NNs_NN, leb_zero_NNs. reflexivity.
Qed.
End Signs.

(** The unrounded costs of the locals [l] are not negative. *)
Definition costs_NN (l : Locals) : Prop :=
  0 <= l_area l /\
  NN (l_painting_material_cost l) /\
  NN (l_painting_labor_cost l) /\
  NN (l_flooring_material_cost l) /\
  NN (l_flooring_labor_cost l) /\
  NN (l_ceiling_material_cost l) /\
  NN (l_ceiling_labor_cost l) /\
  NN (l_electrical_material_cost l) /\
  NN (l_electrical_labor_cost l) /\
  NN (l_kitchen_pkg_cost l) /\
  NN (l_bath_pkg_cost l) /\
  NN (l_plumbing_cost l) /\
  NN (l_furniture_cost l) /\
  NN (l_wastage_cost l) /\
  NN (l_contractor_overhead l) /\
  NN (l_gst_amount l) /\
  NN (l_grand_total l).

Lemma NN_zero : NN 0%float.
Proof. exact I. Qed.

Lemma float_mul_int_NN x z y :
  NN x -> 0 <= z -> float_mul_int x z = Ok y -> NN y.
Proof.
  unfold float_mul_int. intros Hx Hz H. minv H. injection H as <-.
  apply float_of_int_NNs, NNs_NN in Hr; [|assumption].
  now apply NN_mul.
Qed.

Lemma int_mul_float_NN z x y :
  0 <= z -> NN x -> int_mul_float z x = Ok y -> NN y.
Proof.
  unfold int_mul_float. intros Hz Hx H. minv H. injection H as <-.
  apply float_of_int_NNs, NNs_NN in Hr; [|assumption].
  now apply NN_mul.
Qed.

Section BodySigns.
Context {P : PRNG}.
Variable cfg : Config.
Hypothesis cfg_ok : config_okb cfg = true.

Ltac nn_close :=
  repeat first
    [ assumption
    | exact NN_zero
    | apply NN_add
    | apply NN_mul
    | apply NN_py_round_nd; [lia|] ].

(** One fact about the value a statement of the body computed. *)
Ltac nn_step :=
  match goal with
  | H : ret _ _ = Ok _ |- _ =>
      apply ret_Ok in H; destruct H as [H _]
  | H : (_, _) = (_, _) |- _ => injection H as ? ?
  | H : ?x = _ |- _ => is_var x; subst x
  | H : getitem (cities cfg) _ = Ok ?c |- _ =>
      apply (getitem_table_ok city_okb) in H; [|assumption];
      apply andb_prop in H; destruct H as [?Hm ?Hl];
      apply leb_zero_NNs, NNs_NN in Hm
  | H : getitem (quality_tiers cfg) _ = Ok ?q |- _ =>
      apply (getitem_table_ok (fun q => (0 <=? q)%float)) in H;
      [|assumption]; apply leb_zero_NNs, NNs_NN in H
  | H : getitem (renovation_levels cfg) _ = Ok ?q |- _ =>
      apply (getitem_table_ok (fun l => range_okb (labor_overhead l))) in H;
      [|assumption]
  | H : getitem _ _ = Ok ?r |- _ =>
      lazymatch type of r with range => idtac end;
      apply (getitem_table_ok range_okb) in H; [|assumption]
  | H : rand_range _ _ = Ok _ |- _ =>
      apply rand_range_NN in H; [|first [assumption | reflexivity]]
  | H : random_random _ = Ok _ |- _ =>
      apply random_random_NNs, NNs_NN in H
  | H : psf_cost _ _ _ _ _ = Ok _ |- _ =>
      apply (psf_cost_NN cfg cfg_ok) in H;
      [|first [assumption | reflexivity] ..]
  | H : unit_cost _ _ _ _ _ = Ok _ |- _ =>
      apply (unit_cost_NN cfg cfg_ok) in H;
      [|first [assumption | reflexivity] ..]
  | H : labor_component_cost _ _ _ _ _ = Ok _ |- _ =>
      apply (labor_component_cost_NN cfg cfg_ok) in H; [|assumption ..]
  | H : float_mul_int _ _ = Ok _ |- _ =>
      apply float_mul_int_NN in H;
      [|first [assumption | exact NN_zero | lia] ..]
  | H : int_mul_float _ _ = Ok _ |- _ =>
      apply int_mul_float_NN in H; [|assumption ..]
  | H : py_int _ = Ok _ |- _ =>
      apply py_int_nonneg in H; [|assumption]
  | H : lift _ _ = Ok _ |- _ =>
      apply lift_Ok in H; destruct H as [H _]
  | H : bind _ _ _ = Ok _ |- _ => minv H
  end.

(** The same for a conditional statement, oldest first. *)
Ltac nn_if :=
  match reverse goal with
  | H : (if ?b then _ else _) _ = Ok (_, ?f, _) |- _ =>
      assert (NN f) by (destruct b; repeat nn_step; nn_close); clear H
  | H : (if ?b then _ else _) _ = Ok (?v, _) |- _ =>
      lazymatch type of v with
      | float =>
          assert (NN v) by (destruct b; repeat nn_step; nn_close)
      | Z =>
          assert (0 <= v) by (destruct b; repeat nn_step;
                              first [assumption | lia])
      | _ => idtac
      end; clear H
  end.

Lemma body_costs_NN (g g' : gen P) l :
  generate_row_body cfg g = Ok (l, g') -> costs_NN l.
Proof.
  intros H. invert_body H. subst l. unfold costs_NN; simpl.
  pose proof cfg_ok as Hcfg. unfold config_okb in Hcfg.
  repeat (apply andb_prop in Hcfg; destruct Hcfg as [Hcfg ?]).
  repeat match goal with
  | Hz : (0 <=? _)%float = true |- _ => apply leb_zero_NNs, NNs_NN in Hz
  end.
  repeat nn_step. repeat (nn_if; repeat nn_step).
  repeat match goal with |- _ /\ _ => split end;
    try assumption; try destruct (INCLUDE_GST cfg); nn_close.
Qed.
End BodySigns.

Lemma float_div_int_NNs x n q z :
  NN x -> py_round x = Ok z -> 0 < n ->
  float_div_int x n = Ok q -> NNs q.
Proof.
  unfold float_div_int. intros Hx Hr Hn H. minv H.
  apply float_of_int_NNs in Hr0; [|lia].
  unfold py_div in H. destruct (v =? 0)%float eqn:Ez; [discriminate|].
  injection H as <-.
  pose proof (eqb_zero_false _ Ez) as Hnz.
  unfold NN, NNs, py_round in *. rewrite div_spec.
  destruct (Prim2SF x) as [sx|sx| |sx mx ex]; try discriminate;
    destruct (Prim2SF v) as [sy|sy| |sy my ey]; simpl in *;
    try exact I; try (exfalso; eapply Hnz; reflexivity); try easy.
  subst. pose proof (SFdiv_core_nonneg mx ex my ey) as Hq.
  unfold SF64div, SFdiv. simpl xorb.
  destruct (SFdiv_core_binary prec emax (Zpos mx) ex (Zpos my) ey)
    as [[q e] l].
  apply signed_nonneg. now apply binary_round_aux_signed.
Qed.

Section RowSigns.
Context {P : PRNG}.
Variable cfg : Config.
Hypothesis cfg_ok : config_okb cfg = true.

Lemma body_total_psf (g g' : gen P) l :
  generate_row_body cfg g = Ok (l, g') ->
  float_div_int (l_grand_total l) (py_max_int 1 (l_area l))
    = Ok (l_total_psf l).
Proof. intros H. invert_body H. subst l. simpl. assumption. Qed.

(** Every cost field of a row generated from tables without negative
    entries is at least 0. *)
Lemma row_costs_nonneg idx (g g' : gen P) row :
  generate_row cfg idx g = Ok (row, g') ->
  0 <= Painting_Material_Cost row /\
  0 <= Painting_Labor_Cost row /\
  0 <= Flooring_Material_Cost row /\
  0 <= Flooring_Labor_Cost row /\
  0 <= Ceiling_Material_Cost row /\
  0 <= Ceiling_Labor_Cost row /\
  0 <= Electrical_Material_Cost row /\
  0 <= Electrical_Labor_Cost row /\
  0 <= Kitchen_Package_Cost row /\
  0 <= Bathroom_Package_Cost row /\
  0 <= Plumbing_Cost row /\
  0 <= Furniture_Cost row /\
  0 <= Wastage_Sundries_Cost row /\
  0 <= Contractor_Overhead_Cost row /\
  0 <= GST_Amount row /\
  0 <= Grand_Total row /\
  (0 <=? Total_Cost_per_Sqft row)%float = true.
Proof.
  intros H. destruct (generate_row_locals _ _ _ _ _ H) as (l & Hb & Hr).
  pose proof (build_row_rounded _ _ _ _ Hr) as Hc.
  pose proof (body_costs_NN cfg cfg_ok _ _ _ Hb) as Hn.
  pose proof (body_total_psf _ _ _ Hb) as Hpsf.
  destruct (build_row_copied _ _ _ _ Hr)
    as (_ & _ & _ & _ & _ & _ & _ & _ & _ & _ & _ & _ & Ht).
  unfold rounded_costs in Hc. unfold costs_NN in Hn.
  destruct Hn as (Ha & Hn). 
  repeat match goal with
  | Hx : _ /\ _ |- _ => destruct Hx
  end.
  repeat match goal with |- _ /\ _ => split end;
    try (eapply py_round_nonneg; [|eassumption]; assumption).
  rewrite Ht. apply NNs_leb_zero, NNs_py_round_nd; [lia|].
  eapply float_div_int_NNs; [| |
    |exact Hpsf]; [eassumption | eassumption |].
  unfold py_max_int. destruct (1 <? l_area l) eqn:E; [|lia].
  apply Z.ltb_lt in E. lia.
Qed.
End RowSigns.

(** C6: every cost field of a generated row is at least 0: the material
    and labor costs, the package costs, plumbing, furniture, wastage, the
    contractor overhead, the GST amount, the grand total and the cost per
    square foot. *)
Theorem cost_fields_are_nonnegative (P : PRNG) idx (g g' : gen P) row :
  generate_row default_config idx g = Ok (row, g') ->
  0 <= Painting_Material_Cost row /\
  0 <= Painting_Labor_Cost row /\
  0 <= Flooring_Material_Cost row /\
  0 <= Flooring_Labor_Cost row /\
  0 <= Ceiling_Material_Cost row /\
  0 <= Ceiling_Labor_Cost row /\
  0 <= Electrical_Material_Cost row /\
  0 <= Electrical_Labor_Cost row /\
  0 <= Kitchen_Package_Cost row /\
  0 <= Bathroom_Package_Cost row /\
  0 <= Plumbing_Cost row /\
  0 <= Furniture_Cost row /\
  0 <= Wastage_Sundries_Cost row /\
  0 <= Contractor_Overhead_Cost row /\
  0 <= GST_Amount row /\
  0 <= Grand_Total row /\
  (0 <=? Total_Cost_per_Sqft row)%float = true.
Proof. apply row_costs_nonneg. exact default_config_ok. Qed.

(* ================================================================== *)
(** ** Rounding to nearest: the mantissa arithmetic *)

Lemma digits2_pos_size p : digits2_pos p = Pos.size p.
Proof. induction p; simpl; congruence. Qed.

(** A positive [p] with [d] binary digits lies in [[2^(d-1), 2^d)]. *)
Lemma digits2_bounds p :
  2 ^ (Zpos (digits2_pos p) - 1) <= Zpos p < 2 ^ Zpos (digits2_pos p).
Proof.
  rewrite digits2_pos_size. split.
  - pose proof (Pos.size_le p) as H.
    assert (E : Zpos (2 ^ Pos.size p) = 2 ^ Zpos (Pos.size p))
      by (now rewrite Pos2Z.inj_pow).
    assert (H2 : 2 ^ Zpos (Pos.size p) <= 2 * Zpos p).
    { rewrite <- E. change (2 * Zpos p) with (Zpos p~0). exact H. }
    replace (Zpos (Pos.size p)) with (Z.succ (Zpos (Pos.size p) - 1)) in H2
      by lia.
    rewrite Z.pow_succ_r in H2 by lia. lia.
  - pose proof (Pos.size_gt p) as H.
    assert (E : Zpos (2 ^ Pos.size p) = 2 ^ Zpos (Pos.size p))
      by (now rewrite Pos2Z.inj_pow).
    rewrite <- E. exact H.
Qed.

(** The state of a right shift of [m0] by [k] bits: the bits kept, whether
    the bits dropped were all zero, and that the round bit is the first of
    the bits dropped. *)
Definition shifted (m0 k : Z) (mrs : shr_record) : Prop :=
  0 <= shr_m mrs /\
  exists rem,
    m0 = shr_m mrs * 2 ^ k + rem /\
    0 <= rem < 2 ^ k /\
    (rem = 0 -> shr_r mrs = false /\ shr_s mrs = false) /\
    (shr_r mrs = true -> 2 ^ k <= 2 * rem).

Lemma shr_1_spec mrs :
  0 <= shr_m mrs ->
  0 <= shr_m (shr_1 mrs) /\
  shr_m mrs = 2 * shr_m (shr_1 mrs) + (if shr_r (shr_1 mrs) then 1 else 0) /\
  shr_s (shr_1 mrs) = shr_r mrs || shr_s mrs.
Proof.
  destruct mrs as [m r s]. destruct m as [|[p|p|]|]; simpl; intros H;
    repeat split; try reflexivity; lia.
Qed.

Lemma shr_1_shifted m0 k mrs :
  0 <= k -> shifted m0 k mrs -> shifted m0 (k + 1) (shr_1 mrs).
Proof.
  intros Hk (Hm & rem & E & Hrem & Hz & _). unfold shifted.
  rewrite Z.pow_add_r, Z.pow_1_r by lia.
  assert (Hp : 0 < 2 ^ k) by (apply Z.pow_pos_nonneg; lia).
  destruct (shr_1_spec mrs Hm) as (Hm' & Em & Es).
  split; [exact Hm'|].
  exists ((if shr_r (shr_1 mrs) then 1 else 0) * 2 ^ k + rem).
  split; [rewrite E, Em at 1; ring|].
  destruct (shr_r (shr_1 mrs)); (split; [lia|split]);
    try lia; try discriminate.
  intros Hr. assert (rem = 0) by lia.
  destruct (Hz H) as [Hr' Hs']. rewrite Es, Hr', Hs'. auto.
Qed.

Lemma iter_shr_1_shifted m0 p :
  forall k mrs,
    0 <= k -> shifted m0 k mrs ->
    shifted m0 (k + Zpos p) (iter_pos shr_1 p mrs).
Proof.
  induction p as [p IH|p IH|]; intros k mrs Hk H; simpl.
  - replace (k + Zpos p~1) with (k + 1 + Zpos p + Zpos p) by lia.
    apply IH; [lia|]. apply IH; [lia|]. now apply shr_1_shifted.
  - replace (k + Zpos p~0) with (k + Zpos p + Zpos p) by lia.
    apply IH; [lia|]. now apply IH.
  - now apply shr_1_shifted.
Qed.

(** One call of [shr_fexp] on an exact mantissa [m >= 0]: either nothing
    moves, or [m] is divided by [2^n]; then a zero remainder leaves an
    exact location, and the round bit is set only when the remainder is at
    least half of [2^n]. *)
Lemma shr_fexp_exact m e :
  0 <= m ->
  let n := fexp prec emax (Zdigits2 m + e) - e in
  let '(mrs, e') := shr_fexp prec emax m e loc_Exact in
  (n <= 0 /\ shr_m mrs = m /\ e' = e /\
     loc_of_shr_record mrs = loc_Exact) \/
  (0 < n /\ shr_m mrs = m / 2 ^ n /\ e' = e + n /\
     (m mod 2 ^ n = 0 -> loc_of_shr_record mrs = loc_Exact) /\
     (shr_r mrs = true -> 2 ^ n <= 2 * (m mod 2 ^ n))).
Proof.
  intros Hm n. unfold shr_fexp. fold n.
  unfold shr. destruct n as [|p|p] eqn:En.
  - left. simpl. repeat split; lia.
  - right.
    assert (H0 : shifted m 0 (shr_record_of_loc m loc_Exact)).
    { simpl. split; [exact Hm|]. exists 0. simpl.
      repeat split; try lia; discriminate. }
    pose proof (iter_shr_1_shifted m p 0 _ ltac:(lia) H0) as H.
    change (0 + Zpos p) with (Zpos p) in H.
    set (mrs := iter_pos shr_1 p (shr_record_of_loc m loc_Exact)) in *.
    destruct H as (Hn & rem & E & Hrem & Hz & Hhalf).
    assert (Hp : 0 < 2 ^ Zpos p) by (apply Z.pow_pos_nonneg; lia).
    assert (Erem : rem = m mod 2 ^ Zpos p)
      by (apply Z.mod_unique with (shr_m mrs); lia).
    cbn [fst snd].
    split; [lia|]. split; [|split; [reflexivity|split]].
    + apply Z.div_unique with rem; lia.
    + intros Hmod.
      destruct (Hz ltac:(lia)) as [Hr Hs].
      destruct mrs as [m' r s]; simpl in *.
      now subst.
    + rewrite <- Erem. exact Hhalf.
  - left. simpl. repeat split; lia.
Qed.

(** Rounding to nearest moves up only from an inexact location whose round
    bit is set. *)
Lemma round_nearest_even_cases m mrs :
  round_nearest_even m (loc_of_shr_record mrs) = m \/
  (round_nearest_even m (loc_of_shr_record mrs) = m + 1 /\
   loc_of_shr_record mrs <> loc_Exact /\ shr_r mrs = true).
Proof.
  destruct mrs as [m' [|] [|]]; simpl; auto.
  - right. repeat split; discriminate.
  - destruct (Z.even m); [auto|]. right. repeat split; discriminate.
Qed.

(* ================================================================== *)
(** ** Rounding to nearest: values *)

Section Values.
Local Open Scope R_scope.

(** The real number [m * 2^e]. *)
Definition B2R (m e : Z) : R := IZR m * powerRZ 2 e.

Lemma pow2_pos e : 0 < powerRZ 2 e.
Proof. apply powerRZ_lt. lra. Qed.

Lemma pow2_add a b : powerRZ 2 (a + b) = powerRZ 2 a * powerRZ 2 b.
Proof. apply powerRZ_add. lra. Qed.

Lemma pow2_IZR n : (0 <= n)%Z -> powerRZ 2 n = IZR (2 ^ n).
Proof.
intros Hn. destruct n as [|p|p]; try lia.
- simpl. reflexivity.
- unfold powerRZ. rewrite pow_IZR. f_equal.
  now rewrite positive_nat_Z.
Qed.

Lemma pow2_ge_1 d : (0 <= d)%Z -> 1 <= powerRZ 2 d.
Proof.
intros Hd. rewrite pow2_IZR by assumption. apply IZR_le.
assert (0 < 2 ^ d)%Z by (apply Z.pow_pos_nonneg; lia). lia.
Qed.

Lemma pow2_le a b : (a <= b)%Z -> powerRZ 2 a <= powerRZ 2 b.
Proof.
intros H. assert (E : b = (a + (b - a))%Z) by lia.
rewrite E, pow2_add.
pose proof (pow2_ge_1 (b - a) ltac:(lia)). pose proof (pow2_pos a). nra.
Qed.

Lemma pow2_lt_inv a b : powerRZ 2 a < powerRZ 2 b -> (a < b)%Z.
Proof.
intros H. destruct (Z.lt_ge_cases a b) as [|Hge]; [assumption|].
pose proof (pow2_le b a Hge). lra.
Qed.

(** Moving a power of two between mantissa and exponent. *)
Lemma B2R_shift m d e : (0 <= d)%Z -> B2R (m * 2 ^ d) e = B2R m (e + d).
Proof.
intros Hd. unfold B2R. rewrite mult_IZR, pow2_add, <- pow2_IZR by lia.
ring.
Qed.

Lemma B2R_le m1 m2 e : (m1 <= m2)%Z -> B2R m1 e <= B2R m2 e.
Proof.
intros H. unfold B2R. apply IZR_le in H. pose proof (pow2_pos e). nra.
Qed.

Lemma B2R_lt m1 m2 e : (m1 < m2)%Z -> B2R m1 e < B2R m2 e.
Proof.
intros H. unfold B2R. apply IZR_lt in H. pose proof (pow2_pos e). nra.
Qed.

Lemma B2R_lt_inv m1 m2 e : B2R m1 e < B2R m2 e -> (m1 < m2)%Z.
Proof.
intros H. destruct (Z.lt_ge_cases m1 m2) as [|Hge]; [assumption|].
apply (B2R_le m2 m1 e) in Hge. lra.
Qed.

(** Bounds from the number of digits. *)
Lemma B2R_ge_pow m a e : (2 ^ a <= m)%Z -> (0 <= a)%Z ->
powerRZ 2 (a + e) <= B2R m e.
Proof.
intros H Ha. unfold B2R. rewrite pow2_add, (pow2_IZR a) by lia.
apply IZR_le in H. pose proof (pow2_pos e). nra.
Qed.

Lemma B2R_lt_pow m a e : (m < 2 ^ a)%Z -> (0 <= a)%Z ->
B2R m e < powerRZ 2 (a + e).
Proof.
intros H Ha. unfold B2R. rewrite pow2_add, (pow2_IZR a) by lia.
apply IZR_lt in H. pose proof (pow2_pos e). nra.
Qed.

(** Dropping [n] bits rounds down, by less than one unit. *)
Lemma B2R_floor m e n : (0 <= m)%Z -> (0 <= n)%Z ->
B2R (m / 2 ^ n) (e + n) <= B2R m e < B2R (m / 2 ^ n + 1) (e + n).
Proof.
intros Hm Hn.
assert (Hp : (0 < 2 ^ n)%Z) by (apply Z.pow_pos_nonneg; lia).
pose proof (Z.div_mod m (2 ^ n) ltac:(lia)) as E.
pose proof (Z.mod_pos_bound m (2 ^ n) Hp) as Hr.
rewrite <- !B2R_shift by assumption.
split; [apply B2R_le | apply B2R_lt]; nia.
Qed.

End Values.

(* ================================================================== *)
(** ** Rounding to nearest: [binary_round_aux] on an exact mantissa *)

Lemma fexp64 x : fexp prec emax x = Z.max (x - 53) (-1074).
Proof. reflexivity. Qed.

Lemma canonical_bounds (K : positive) (F : Z) :
  canonical_mantissa prec emax K F = true ->
  Zpos K < 2 ^ 53 /\ -1074 <= F /\ (-1074 < F -> 2 ^ 52 <= Zpos K).
Proof.
  unfold canonical_mantissa. rewrite fexp64. intros H.
  apply Z.eqb_eq in H.
  pose proof (digits2_bounds K) as [Hlo Hhi].
  set (d := Zpos (digits2_pos K)) in *.
  assert (Hd : d <= 53) by lia.
  split; [|split].
  - eapply Z.lt_le_trans; [exact Hhi|].
    apply Z.pow_le_mono_r; lia.
  - lia.
  - intros HF. assert (d = 53) by lia.
    replace 52 with (d - 1) by lia. exact Hlo.
Qed.

(** The mantissas and exponents [binary_round_aux] goes through on the
    exact value [M * 2^E], when [E] is not above the exponent of the
    format for that value: a first shift by [n] bits to [(m1, E + n)], the
    rounding to [m2], a second shift to [(m3, e3)]. *)
Definition round_trace (M : positive) (E m1 m2 m3 e3 : Z) : Prop :=
  let n := fexp prec emax (Zdigits2 (Zpos M) + E) - E in
  let e1 := E + n in
  let n2 := fexp prec emax (Zdigits2 m2 + e1) - e1 in
  m1 = Zpos M / 2 ^ n /\
  (m2 = m1 \/
   (m2 = m1 + 1 /\ Zpos M mod 2 ^ n <> 0 /\
    2 ^ n <= 2 * (Zpos M mod 2 ^ n))) /\
  ((n2 <= 0 /\ m3 = m2 /\ e3 = e1) \/
   (0 < n2 /\ m3 = m2 / 2 ^ n2 /\ e3 = e1 + n2)).

Definition round_result (m3 e3 : Z) : spec_float :=
  match m3 with
  | Z0 => S754_zero false
  | Zpos m =>
      if e3 <=? emax - prec then S754_finite false m e3
      else S754_infinity false
  | Zneg _ => S754_nan
  end.

Lemma binary_round_aux_exact (M : positive) (E : Z) :
  0 <= fexp prec emax (Zdigits2 (Zpos M) + E) - E ->
  exists m1 m2 m3 e3,
    round_trace M E m1 m2 m3 e3 /\
    binary_round_aux prec emax false (Zpos M) E loc_Exact
      = round_result m3 e3.
Proof.
  intros Hn. unfold binary_round_aux, round_trace.
  set (n := fexp prec emax (Zdigits2 (Zpos M) + E) - E) in *.
  pose proof (shr_fexp_exact (Zpos M) E ltac:(lia)) as H1.
  cbv zeta in H1. fold n in H1.
  destruct (shr_fexp prec emax (Zpos M) E loc_Exact) as [mrs e1].
  assert (H1' : shr_m mrs = Zpos M / 2 ^ n /\ e1 = E + n /\
                (Zpos M mod 2 ^ n = 0 -> loc_of_shr_record mrs = loc_Exact) /\
                (loc_of_shr_record mrs <> loc_Exact -> shr_r mrs = true ->
                 2 ^ n <= 2 * (Zpos M mod 2 ^ n))).
  { destruct H1 as [(Hle & Em & Ee & El)|(Hlt & Em & Ee & El & Eh)].
    - assert (n = 0) by lia. replace n with 0 by lia.
      rewrite Z.pow_0_r, Z.div_1_r. repeat split; auto; try lia.
      intros Hne. now destruct Hne.
    - auto. }
  clear H1. destruct H1' as (Em & Ee & El & Eh).
  set (m1 := shr_m mrs) in *.
  assert (Hm1 : 0 <= m1).
  { rewrite Em. apply Z.div_pos; [lia|]. apply Z.pow_pos_nonneg; lia. }
  set (m2 := round_nearest_even m1 (loc_of_shr_record mrs)).
  assert (Hm2 : m2 = m1 \/
                (m2 = m1 + 1 /\ Zpos M mod 2 ^ n <> 0 /\
                 2 ^ n <= 2 * (Zpos M mod 2 ^ n))).
  { destruct (round_nearest_even_cases m1 mrs)
      as [H|(H & Hl & Hr)]; [now left|right].
    split; [exact H|]. split; [|now apply Eh].
    intros Hz. now apply Hl, El. }
  assert (Hm2' : 0 <= m2) by lia.
  pose proof (shr_fexp_exact m2 e1 Hm2') as H2. cbv zeta in H2.
  destruct (shr_fexp prec emax m2 e1 loc_Exact) as [mrs2 e3].
  exists m1, m2, (shr_m mrs2), e3. subst e1.
  split; [|reflexivity].
  split; [exact Em|]. split; [exact Hm2|].
  destruct H2 as [(Hle & Em3 & Ee3 & _)|(Hlt & Em3 & Ee3 & _)]; auto.
Qed.

Lemma round_trace_nonneg M E m1 m2 m3 e3 :
  round_trace M E m1 m2 m3 e3 -> 0 <= m1 /\ m1 <= m2 /\ 0 <= m3.
Proof.
  unfold round_trace. intros (Em & Hm2 & H3).
  assert (Hm1 : 0 <= m1).
  { rewrite Em. apply Z_div_nonneg_nonneg; [lia|]. apply Z.pow_nonneg. lia. }
  split; [exact Hm1|]. split; [lia|].
  destruct H3 as [(_ & -> & _)|(Hn2 & -> & _)]; [lia|].
  apply Z_div_nonneg_nonneg; [lia|]. apply Z.pow_nonneg. lia.
Qed.

Lemma Zdigits2_bounds m :
  0 < m -> 2 ^ (Zdigits2 m - 1) <= m < 2 ^ Zdigits2 m.
Proof.
  destruct m as [|p|p]; try lia. intros _. apply digits2_bounds.
Qed.

Lemma Zdigits2_zero : Zdigits2 0 = 0.
Proof. reflexivity. Qed.

Lemma div_pow2_lower m d k :
  0 <= k <= d -> 2 ^ d <= m -> 2 ^ (d - k) <= m / 2 ^ k.
Proof.
  intros Hk Hm.
  assert (Hp : 0 < 2 ^ k) by (apply Z.pow_pos_nonneg; lia).
  apply Z.div_le_lower_bound; [exact Hp|].
  rewrite <- Z.pow_add_r by lia. replace (k + (d - k)) with d by lia.
  exact Hm.
Qed.

(** Above the smallest exponent the rounded mantissa has all its 53
    bits. *)
Lemma round_trace_normal M E m1 m2 m3 e3 :
  0 <= fexp prec emax (Zdigits2 (Zpos M) + E) - E ->
  round_trace M E m1 m2 m3 e3 ->
  -1074 < e3 -> 2 ^ 52 <= m3.
Proof.
  intros Hn Ht He3.
  pose proof (round_trace_nonneg _ _ _ _ _ _ Ht) as (Hm1 & Hm12 & Hm3).
  unfold round_trace in Ht. cbv zeta in Ht.
  rewrite !fexp64 in *.
  set (d := Zdigits2 (Zpos M)) in *.
  destruct Ht as (Em & Hm2 & H3).
  pose proof (Zdigits2_bounds (Zpos M) ltac:(lia)) as [HMlo _]. fold d in HMlo.
  assert (Hd : 0 < d) by (subst d; simpl; lia).
  destruct H3 as [(Hn2 & -> & ->)|(Hn2 & -> & ->)].
  - (* no second shift *)
    assert (En : Z.max (d + E - 53) (-1074) - E = d - 53) by lia.
    rewrite En in Em.
    assert (2 ^ 52 <= m1); [|lia].
    rewrite Em. replace 52 with ((d - 1) - (d - 53)) by lia.
    apply div_pow2_lower; [lia|exact HMlo].
  - (* second shift *)
    set (e1 := E + (Z.max (d + E - 53) (-1074) - E)) in *.
    destruct (Z.eq_dec m2 0) as [->|Hnz].
    + rewrite Zdigits2_zero in *. lia.
    + pose proof (Zdigits2_bounds m2 ltac:(lia)) as [Hlo _].
      set (d2 := Zdigits2 m2) in *.
      assert (En2 : Z.max (d2 + e1 - 53) (-1074) - e1 = d2 - 53) by lia.
      rewrite En2 in *.
      replace 52 with ((d2 - 1) - (d2 - 53)) by lia.
      apply div_pow2_lower; [lia|exact Hlo].
Qed.

Section RoundingBounds.
Local Open Scope R_scope.

Lemma B2R_floor_strict m e n : (0 <= m)%Z -> (0 <= n)%Z ->
(m mod 2 ^ n <> 0)%Z -> B2R (m / 2 ^ n) (e + n) < B2R m e.
Proof.
intros Hm Hn Hr.
assert (Hp : (0 < 2 ^ n)%Z) by (apply Z.pow_pos_nonneg; lia).
pose proof (Z.div_mod m (2 ^ n) ltac:(lia)) as E.
pose proof (Z.mod_pos_bound m (2 ^ n) Hp) as Hb.
rewrite <- B2R_shift by assumption. apply B2R_lt. nia.
Qed.

(** The value after the second shift is not above the rounded one. *)
Lemma round_trace_second M E m1 m2 m3 e3 :
(0 <= fexp prec emax (Zdigits2 (Zpos M) + E) - E)%Z ->
round_trace M E m1 m2 m3 e3 ->
let e1 := fexp prec emax (Zdigits2 (Zpos M) + E) in
B2R m3 e3 <= B2R m2 e1 /\ (e1 <= e3)%Z.
Proof.
intros Hn Ht e1.
pose proof (round_trace_nonneg _ _ _ _ _ _ Ht) as (Hm1 & Hm12 & Hm3).
unfold round_trace in Ht. cbv zeta in Ht.
replace (E + (fexp prec emax (Zdigits2 (Zpos M) + E) - E))%Z
  with e1 in Ht by (subst e1; lia).
destruct Ht as (_ & _ & [(Hn2 & -> & ->)|(Hn2 & -> & ->)]).
- split; [lra|lia].
- split; [|lia]. apply B2R_floor; lia.
Qed.

(** Rounding a value that is not above a representable bound gives a
  result that is not above the bound. *)
Lemma round_upper (M K : positive) (E F : Z) :
(0 <= fexp prec emax (Zdigits2 (Zpos M) + E) - E)%Z ->
canonical_mantissa prec emax K F = true -> (F <= 971)%Z ->
B2R (Zpos M) E <= B2R (Zpos K) F ->
let r := binary_round_aux prec emax false (Zpos M) E loc_Exact in
r = S754_zero false \/
exists m e, r = S754_finite false m e /\ B2R (Zpos m) e <= B2R (Zpos K) F.
Proof.
intros Hn HK HF HX r.
destruct (binary_round_aux_exact M E Hn) as (m1 & m2 & m3 & e3 & Ht & Er).
subst r. rewrite Er. clear Er.
apply canonical_bounds in HK. destruct HK as (HK53 & HFmin & HKn).
pose proof (round_trace_nonneg _ _ _ _ _ _ Ht) as (Hm1 & Hm12 & Hm3).
pose proof (round_trace_second _ _ _ _ _ _ Hn Ht) as [H32 He13].
pose proof (round_trace_normal _ _ _ _ _ _ Hn Ht) as Hnorm.
cbv zeta in H32, He13. unfold round_trace in Ht. cbv zeta in Ht.
set (n := (fexp prec emax (Zdigits2 (Zpos M) + E) - E)%Z) in *.
set (e1 := fexp prec emax (Zdigits2 (Zpos M) + E)) in *.
assert (Ee1 : e1 = (E + n)%Z) by (subst n; lia).
destruct Ht as (Em & Hm2 & _).
pose proof (B2R_lt_pow (Zpos K) 53 F HK53 ltac:(lia)) as HKhi.
(* the rounded mantissa is not above the bound *)
assert (H2 : B2R m2 e1 <= B2R (Zpos K) F).
{ destruct Hm2 as [->|(-> & Hrem & _)].
  - pose proof (B2R_floor (Zpos M) E n ltac:(lia) Hn) as [Hfl _].
    rewrite <- Em, <- Ee1 in Hfl. lra.
  - pose proof (B2R_floor_strict (Zpos M) E n ltac:(lia) Hn Hrem) as Hfl.
    rewrite <- Em, <- Ee1 in Hfl.
    destruct (Z.le_gt_cases e1 F) as [HeF|HeF].
    + replace F with (e1 + (F - e1))%Z in HX |- * by lia.
      rewrite <- B2R_shift in HX |- * by lia.
      apply B2R_le.
      assert (m1 < Zpos K * 2 ^ (F - e1))%Z; [|lia].
      apply (B2R_lt_inv _ _ e1). lra.
    + exfalso.
      pose proof (Zdigits2_bounds (Zpos M) ltac:(lia)) as [HMlo _].
      assert (Hd : (0 < Zdigits2 (Zpos M))%Z) by (simpl; lia).
      pose proof (B2R_ge_pow (Zpos M) _ E HMlo ltac:(lia)) as HMge.
      assert (He : (e1 = Zdigits2 (Zpos M) + E - 53)%Z).
      { subst e1. rewrite fexp64 in *. lia. }
      pose proof (pow2_le (53 + F) (Zdigits2 (Zpos M) - 1 + E) ltac:(lia)).
      lra. }
assert (H3 : B2R m3 e3 <= B2R (Zpos K) F) by lra.
unfold round_result. destruct m3 as [|m|m]; [now left| |lia].
right. destruct (e3 <=? emax - prec)%Z eqn:Ee.
- exists m, e3. split; [reflexivity|exact H3].
- exfalso. apply Z.leb_gt in Ee. change (emax - prec)%Z with 971%Z in Ee.
  pose proof (Hnorm ltac:(lia)) as H52.
  pose proof (B2R_ge_pow (Zpos m) 52 e3 H52 ltac:(lia)) as Hge.
  pose proof (pow2_le (53 + F) (52 + e3) ltac:(lia)). lra.
Qed.

(** Rounding a value that is below the middle of a representable normal
  number and the next one gives a result that is not above that number. *)
Lemma round_upper_half (M K : positive) (E F : Z) :
(0 <= fexp prec emax (Zdigits2 (Zpos M) + E) - E)%Z ->
canonical_mantissa prec emax K F = true -> (F <= 971)%Z ->
(2 ^ 52 <= Zpos K)%Z ->
2 * B2R (Zpos M) E < B2R (2 * Zpos K + 1) F ->
let r := binary_round_aux prec emax false (Zpos M) E loc_Exact in
r = S754_zero false \/
exists m e, r = S754_finite false m e /\ B2R (Zpos m) e <= B2R (Zpos K) F.
Proof.
intros Hn HK HF HK52 HX r.
destruct (Rle_or_lt (B2R (Zpos M) E) (B2R (Zpos K) F)) as [Hle|Hgt].
{ now apply round_upper. }
destruct (binary_round_aux_exact M E Hn) as (m1 & m2 & m3 & e3 & Ht & Er).
subst r. rewrite Er. clear Er.
pose proof HK as HKc.
apply canonical_bounds in HK. destruct HK as (HK53 & HFmin & HKn).
pose proof (round_trace_nonneg _ _ _ _ _ _ Ht) as (Hm1 & Hm12 & Hm3).
pose proof (round_trace_second _ _ _ _ _ _ Hn Ht) as [H32 He13].
pose proof (round_trace_normal _ _ _ _ _ _ Hn Ht) as Hnorm.
cbv zeta in H32, He13. unfold round_trace in Ht. cbv zeta in Ht.
set (n := (fexp prec emax (Zdigits2 (Zpos M) + E) - E)%Z) in *.
set (e1 := fexp prec emax (Zdigits2 (Zpos M) + E)) in *.
assert (Ee1 : e1 = (E + n)%Z) by (subst n; lia).
destruct Ht as (Em & Hm2 & _).
pose proof (B2R_lt_pow (Zpos K) 53 F HK53 ltac:(lia)) as HKhi.
pose proof (B2R_ge_pow (Zpos K) 52 F HK52 ltac:(lia)) as HKlo.
pose proof (Zdigits2_bounds (Zpos M) ltac:(lia)) as [HMlo HMhi].
assert (Hd : (0 < Zdigits2 (Zpos M))%Z) by (simpl; lia).
set (d := Zdigits2 (Zpos M)) in *.
pose proof (B2R_ge_pow (Zpos M) _ E HMlo ltac:(lia)) as HMge.
pose proof (B2R_lt_pow (Zpos M) _ E HMhi ltac:(lia)) as HMlt.
(* the value lies in the binade of the bound *)
assert (HXhi : B2R (Zpos M) E < powerRZ 2 (53 + F)).
{ assert (B2R (2 * Zpos K + 1) F <= B2R (2 * 2 ^ 53) F)
    by (apply B2R_le; lia).
  assert (E2 : B2R (2 * 2 ^ 53) F = 2 * powerRZ 2 (53 + F)).
  { unfold B2R. rewrite mult_IZR, pow2_add, (pow2_IZR 53) by lia. ring. }
  lra. }
assert (Hd1 : (52 + F < d + E)%Z) by (apply pow2_lt_inv; lra).
assert (Hd2 : (d - 1 + E < 53 + F)%Z) by (apply pow2_lt_inv; lra).
assert (He1 : e1 = F) by (subst e1; rewrite fexp64; lia).
assert (HnF : F = (E + n)%Z) by lia.
assert (Hp : (0 < 2 ^ n)%Z) by (apply Z.pow_pos_nonneg; lia).
pose proof (Z.div_mod (Zpos M) (2 ^ n) ltac:(lia)) as EM.
pose proof (Z.mod_pos_bound (Zpos M) (2 ^ n) Hp) as Hrem.
rewrite <- Em in EM. set (rem := (Zpos M mod 2 ^ n)%Z) in *.
(* the inequalities between the mantissas *)
assert (HgtZ : (Zpos K * 2 ^ n < Zpos M)%Z).
{ apply (B2R_lt_inv _ _ E). rewrite B2R_shift by lia. now rewrite <- HnF. }
assert (HXZ : (2 * Zpos M < (2 * Zpos K + 1) * 2 ^ n)%Z).
{ apply (B2R_lt_inv _ _ E). rewrite B2R_shift by lia. rewrite <- HnF.
  replace (B2R (2 * Zpos M) E) with (2 * B2R (Zpos M) E); [exact HX|].
  unfold B2R. rewrite mult_IZR. ring. }
assert (Hm1K : m1 = Zpos K) by nia.
assert (Hhalf : (2 * rem < 2 ^ n)%Z) by nia.
assert (Em2 : m2 = m1) by (destruct Hm2 as [|(_ & _ & ?)]; [assumption|lia]).
assert (H3 : B2R m3 e3 <= B2R (Zpos K) F).
{ rewrite Em2, Hm1K, He1 in H32. exact H32. }
unfold round_result. destruct m3 as [|m|m]; [now left| |lia].
right. destruct (e3 <=? emax - prec)%Z eqn:Ee.
- exists m, e3. split; [reflexivity|exact H3].
- exfalso. apply Z.leb_gt in Ee. change (emax - prec)%Z with 971%Z in Ee.
  pose proof (Hnorm ltac:(lia)) as H52.
  pose proof (B2R_ge_pow (Zpos m) 52 e3 H52 ltac:(lia)) as Hge.
  pose proof (pow2_le (53 + F) (52 + e3) ltac:(lia)). lra.
Qed.
(** Rounding a value that is not below a representable bound gives a
  result that is not below the bound. *)
Lemma round_lower (M K : positive) (E F : Z) :
(0 <= fexp prec emax (Zdigits2 (Zpos M) + E) - E)%Z ->
canonical_mantissa prec emax K F = true ->
B2R (Zpos K) F <= B2R (Zpos M) E ->
let r := binary_round_aux prec emax false (Zpos M) E loc_Exact in
r = S754_infinity false \/
exists m e, r = S754_finite false m e /\ B2R (Zpos K) F <= B2R (Zpos m) e.
Proof.
intros Hn HK HX r.
destruct (binary_round_aux_exact M E Hn) as (m1 & m2 & m3 & e3 & Ht & Er).
subst r. rewrite Er. clear Er.
apply canonical_bounds in HK. destruct HK as (HK53 & HFmin & HKn).
pose proof (round_trace_nonneg _ _ _ _ _ _ Ht) as (Hm1 & Hm12 & Hm3).
pose proof (round_trace_second _ _ _ _ _ _ Hn Ht) as [_ He13].
pose proof (round_trace_normal _ _ _ _ _ _ Hn Ht) as Hnorm.
cbv zeta in He13. unfold round_trace in Ht. cbv zeta in Ht.
set (n := (fexp prec emax (Zdigits2 (Zpos M) + E) - E)%Z) in *.
set (e1 := fexp prec emax (Zdigits2 (Zpos M) + E)) in *.
assert (Ee1 : e1 = (E + n)%Z) by (subst n; lia).
pose proof (B2R_lt_pow (Zpos K) 53 F HK53 ltac:(lia)) as HKhi.
assert (H3 : B2R (Zpos K) F <= B2R m3 e3).
{ destruct (Z.le_gt_cases e3 F) as [HeF|HeF].
  - (* the bound is a multiple of the last place *)
    destruct Ht as (Em & _ & H3).
    replace (E + n)%Z with e1 in H3 by lia.
    pose proof (B2R_floor (Zpos M) E n ltac:(lia) Hn) as [_ Hfl].
    rewrite <- Em, <- Ee1 in Hfl.
    assert (HK1 : (Zpos K * 2 ^ (F - e1) <= m1)%Z).
    { assert (Zpos K * 2 ^ (F - e1) < m1 + 1)%Z; [|lia].
      apply (B2R_lt_inv _ _ e1). rewrite B2R_shift by lia.
      replace (e1 + (F - e1))%Z with F by lia. lra. }
    replace F with (e3 + (F - e3))%Z at 1 by lia.
    rewrite <- B2R_shift by lia. apply B2R_le.
    destruct H3 as [(Hn2 & -> & ->)|(Hn2 & -> & He3)].
    + lia.
    + set (n2 := (fexp prec emax (Zdigits2 m2 + e1) - e1)%Z) in *.
      assert (Hp : (0 < 2 ^ n2)%Z) by (apply Z.pow_pos_nonneg; lia).
      apply Z.div_le_lower_bound; [exact Hp|].
      assert (E2 : (2 ^ (F - e1) = 2 ^ n2 * 2 ^ (F - e3))%Z).
      { rewrite <- Z.pow_add_r by lia. f_equal. lia. }
      rewrite E2 in HK1. nia.
  - (* the result has a larger exponent than the bound *)
    pose proof (Hnorm ltac:(lia)) as H52.
    pose proof (B2R_ge_pow m3 52 e3 H52 ltac:(lia)) as Hge.
    pose proof (pow2_le (53 + F) (52 + e3) ltac:(lia)). lra. }
unfold round_result. destruct m3 as [|m|m]; [|
  |lia].
- exfalso. unfold B2R in H3 at 2. rewrite Rmult_0_l in H3.
  assert (0 < B2R (Zpos K) F); [|lra].
  unfold B2R. pose proof (pow2_pos F).
  assert (0 < IZR (Zpos K)) by (apply IZR_lt; lia). nra.
- destruct (e3 <=? emax - prec)%Z; [right|now left].
  exists m, e3. split; [reflexivity|exact H3].
Qed.
End RoundingBounds.

(* ================================================================== *)
(** ** Order and alignment of binary64 numbers *)

Section Ordering.
Local Open Scope R_scope.

Lemma B2R_mul a b e f : B2R (a * b) (e + f) = B2R a e * B2R b f.
Proof. unfold B2R. rewrite mult_IZR, pow2_add. ring. Qed.

Lemma B2R_pos m e : (0 < m)%Z -> 0 < B2R m e.
Proof.
intros H. unfold B2R. apply IZR_lt in H. pose proof (pow2_pos e). nra.
Qed.

Lemma B2R_IZR m : B2R m 0 = IZR m.
Proof. unfold B2R. simpl. ring. Qed.

(** Between canonical mantissas a smaller exponent means a smaller
  value. *)
Lemma canonical_exp_lt m1 e1 m2 e2 :
canonical_mantissa prec emax m1 e1 = true ->
canonical_mantissa prec emax m2 e2 = true ->
(e1 < e2)%Z -> B2R (Zpos m1) e1 < B2R (Zpos m2) e2.
Proof.
intros H1 H2 He.
apply canonical_bounds in H1, H2.
destruct H1 as (H1 & Hmin1 & _), H2 as (_ & _ & H2).
pose proof (B2R_lt_pow _ 53 e1 H1 ltac:(lia)).
pose proof (B2R_ge_pow _ 52 e2 (H2 ltac:(lia)) ltac:(lia)).
pose proof (pow2_le (53 + e1) (52 + e2) ltac:(lia)). lra.
Qed.

(** On canonical positive numbers [SFcompare] is the order of the
  values. *)
Lemma SFcompare_canonical m1 e1 m2 e2 :
canonical_mantissa prec emax m1 e1 = true ->
canonical_mantissa prec emax m2 e2 = true ->
match SFcompare (S754_finite false m1 e1) (S754_finite false m2 e2) with
| Some Lt => B2R (Zpos m1) e1 < B2R (Zpos m2) e2
| Some Eq => B2R (Zpos m1) e1 = B2R (Zpos m2) e2
| Some Gt => B2R (Zpos m2) e2 < B2R (Zpos m1) e1
| None => False
end.
Proof.
intros H1 H2. simpl.
destruct (Z.compare_spec e1 e2) as [->|He|He].
- rewrite Pos.compare_cont_spec. simpl.
  destruct (Pos.compare_spec m1 m2) as [->|Hm|Hm]; simpl.
  + reflexivity.
  + apply B2R_lt. lia.
  + apply B2R_lt. lia.
- now apply canonical_exp_lt.
- now apply canonical_exp_lt.
Qed.

Lemma SFltb_canonical m1 e1 m2 e2 :
canonical_mantissa prec emax m1 e1 = true ->
canonical_mantissa prec emax m2 e2 = true ->
SFltb (S754_finite false m1 e1) (S754_finite false m2 e2) = true ->
B2R (Zpos m1) e1 < B2R (Zpos m2) e2.
Proof.
intros H1 H2. pose proof (SFcompare_canonical _ _ _ _ H1 H2) as H.
unfold SFltb.
destruct (SFcompare _ _) as [[]|]; try discriminate. auto.
Qed.

(** [shl_align] keeps the value and lowers the exponent to the smaller
  of the two. *)
Lemma iter_xO m d : Zpos (Pos.iter xO m d) = (Zpos m * 2 ^ Zpos d)%Z.
Proof.
revert m. induction d using Pos.peano_ind; intros m.
- simpl. lia.
- rewrite Pos.iter_succ, Pos2Z.inj_xO, IHd, Pos2Z.inj_succ,
    Z.pow_succ_r by lia. ring.
Qed.

Lemma shl_align_spec m e e' :
let '(m', e'') := shl_align m e e' in
e'' = Z.min e e' /\ (Zpos m' = Zpos m * 2 ^ (e - e''))%Z.
Proof.
unfold shl_align. destruct (e' - e)%Z as [|d|d] eqn:Ed.
- split; [lia|]. replace (e - e)%Z with 0%Z by lia. simpl. lia.
- split; [lia|]. replace (e - e)%Z with 0%Z by lia. simpl. lia.
- split; [lia|]. rewrite iter_xO. f_equal. f_equal. lia.
Qed.

Lemma shl_align_value m e e' :
B2R (Zpos (fst (shl_align m e e'))) (snd (shl_align m e e'))
  = B2R (Zpos m) e.
Proof.
pose proof (shl_align_spec m e e') as H.
destruct (shl_align m e e') as [m' e'']. destruct H as [He Hm].
simpl. rewrite Hm, B2R_shift by lia. f_equal. lia.
Qed.

Lemma Zdigits2_shift m k :
(0 < m)%Z -> (0 <= k)%Z -> Zdigits2 (m * 2 ^ k) = (Zdigits2 m + k)%Z.
Proof.
intros Hm Hk.
assert (Hp : (0 < 2 ^ k)%Z) by (apply Z.pow_pos_nonneg; lia).
pose proof (Zdigits2_bounds m Hm) as [Hlo Hhi].
pose proof (Zdigits2_bounds (m * 2 ^ k) ltac:(nia)) as [Hlo' Hhi'].
assert (Hd : (0 < Zdigits2 m)%Z) by (destruct m; simpl; lia).
assert (Hd' : (0 < Zdigits2 (m * 2 ^ k))%Z)
  by (destruct (m * 2 ^ k)%Z eqn:E; simpl; nia).
set (d := Zdigits2 m) in *. set (d' := Zdigits2 (m * 2 ^ k)) in *.
destruct (Z.lt_trichotomy d' (d + k)) as [Hlt|[Heq|Hgt]]; [|exact Heq|].
- exfalso.
  assert (2 ^ d' <= 2 ^ (d - 1 + k))%Z by (apply Z.pow_le_mono_r; lia).
  rewrite Z.pow_add_r in H by lia. nia.
- exfalso.
  assert (2 ^ (d + k) <= 2 ^ (d' - 1))%Z by (apply Z.pow_le_mono_r; lia).
  rewrite Z.pow_add_r in H by lia. nia.
Qed.

(** [binary_round] hands [binary_round_aux] a mantissa whose exponent is
  not above the exponent of the format, with the same value. *)
Lemma binary_round_aligned (S : positive) (e : Z) :
exists (M : positive) (E : Z),
  binary_round prec emax false S e
    = binary_round_aux prec emax false (Zpos M) E loc_Exact /\
  B2R (Zpos M) E = B2R (Zpos S) e /\
  (0 <= fexp prec emax (Zdigits2 (Zpos M) + E) - E)%Z.
Proof.
unfold binary_round.
pose proof (shl_align_spec S e (fexp prec emax (Zpos (digits2_pos S) + e)))
  as H.
pose proof (shl_align_value S e (fexp prec emax (Zpos (digits2_pos S) + e)))
  as Hv.
destruct (shl_align S e _) as [M E]. destruct H as [HE HM].
simpl in Hv. exists M, E. split; [reflexivity|]. split; [exact Hv|].
rewrite HM, Zdigits2_shift by lia.
change (Zdigits2 (Zpos S)) with (Zpos (digits2_pos S)).
replace (Zpos (digits2_pos S) + (e - E) + E)%Z
  with (Zpos (digits2_pos S) + e)%Z by lia.
lia.
Qed.

Lemma binary_round_upper (S K : positive) (e F : Z) :
canonical_mantissa prec emax K F = true -> (F <= 971)%Z ->
B2R (Zpos S) e <= B2R (Zpos K) F ->
let r := binary_round prec emax false S e in
r = S754_zero false \/
exists m e', r = S754_finite false m e' /\
             B2R (Zpos m) e' <= B2R (Zpos K) F.
Proof.
intros HK HF HX.
destruct (binary_round_aligned S e) as (M & E & -> & Hv & Hn).
apply round_upper; auto. now rewrite Hv.
Qed.

Lemma binary_round_lower (S K : positive) (e F : Z) :
canonical_mantissa prec emax K F = true ->
B2R (Zpos K) F <= B2R (Zpos S) e ->
let r := binary_round prec emax false S e in
r = S754_infinity false \/
exists m e', r = S754_finite false m e' /\
             B2R (Zpos K) F <= B2R (Zpos m) e'.
Proof.
intros HK HX.
destruct (binary_round_aligned S e) as (M & E & -> & Hv & Hn).
apply round_lower; auto. now rewrite Hv.
Qed.

(** The exact sum that [SFadd] rounds. *)
Lemma SFadd_finite mx ex my ey :
exists S e,
  SF64add (S754_finite false mx ex) (S754_finite false my ey)
    = binary_round prec emax false S e /\
  B2R (Zpos S) e = B2R (Zpos mx) ex + B2R (Zpos my) ey.
Proof.
unfold SF64add, SFadd. cbn [cond_Zopp].
set (ez := Z.min ex ey).
pose proof (shl_align_spec mx ex ez) as Hx.
pose proof (shl_align_spec my ey ez) as Hy.
destruct (shl_align mx ex ez) as [mx' ex'].
destruct (shl_align my ey ez) as [my' ey'].
destruct Hx as [Hex Hmx], Hy as [Hey Hmy]. cbn [fst].
exists (mx' + my')%positive, ez. split; [reflexivity|].
rewrite Pos2Z.inj_add. unfold B2R at 1. rewrite plus_IZR, Rmult_plus_distr_r.
fold (B2R (Zpos mx') ez). fold (B2R (Zpos my') ez).
rewrite Hmx, Hmy, !B2R_shift by lia.
f_equal; f_equal; lia.
Qed.
End Ordering.

(* ================================================================== *)
(** ** The area draw *)

Section AreaDraw.
Local Open Scope R_scope.

(** A float in [[0, 1)] is a zero or a positive number below 1. *)
Lemma unit_float_cases u :
(0 <=? u)%float = true -> (u <? 1)%float = true ->
(exists s, Prim2SF u = S754_zero s) \/
(exists m e, Prim2SF u = S754_finite false m e /\
             canonical_mantissa prec emax m e = true /\
             B2R (Zpos m) e < 1).
Proof.
intros H0 H1. apply leb_zero_NNs in H0. unfold NNs in H0.
rewrite ltb_spec in H1. pose proof (Prim2SF_valid u) as Hv.
change (Prim2SF 1) with (S754_finite false 4503599627370496 (-52)) in H1.
destruct (Prim2SF u) as [s|s| |s m e]; simpl in H0; try easy.
- left. now exists s.
- subst s. discriminate.
- subst s. right. exists m, e. split; [reflexivity|].
  simpl in Hv. apply andb_prop in Hv. destruct Hv as [Hc _].
  split; [exact Hc|].
  apply SFltb_canonical in H1; [|exact Hc|reflexivity].
  replace 1 with (B2R 4503599627370496 (-52)); [exact H1|].
  unfold B2R. simpl. lra.
Qed.

Lemma B2R_480 : B2R 8444249301319680 (-44) = 480.
Proof. unfold B2R. simpl. lra. Qed.

Lemma B2R_70 : B2R 4925812092436480 (-46) = 70.
Proof. unfold B2R. simpl. lra. Qed.

Lemma B2R_550 : B2R 4837851162214400 (-43) = 550.
Proof. unfold B2R. simpl. lra. Qed.

Lemma Zdigits2_ge m d : (2 ^ d <= m)%Z -> (0 <= d)%Z -> (d < Zdigits2 m)%Z.
Proof.
intros H Hd.
assert (Hp : (0 < 2 ^ d)%Z) by (apply Z.pow_pos_nonneg; lia).
pose proof (Zdigits2_bounds m ltac:(lia)) as [_ Hhi].
destruct (Z.lt_ge_cases d (Zdigits2 m)) as [|Hge]; [assumption|].
assert (2 ^ Zdigits2 m <= 2 ^ d)%Z.
{ apply Z.pow_le_mono_r; [lia|exact Hge]. }
lia.
Qed.

(** [480 * u] for [u] in [[0, 1)]: a zero, or a positive number that is
  at most 480. *)
Lemma mul_480_unit u :
(0 <=? u)%float = true -> (u <? 1)%float = true ->
(exists s, Prim2SF (480 * u) = S754_zero s) \/
(exists m e, Prim2SF (480 * u) = S754_finite false m e /\
             B2R (Zpos m) e <= 480).
Proof.
intros H0 H1. rewrite mul_spec.
change (Prim2SF 480) with (S754_finite false 8444249301319680 (-44)).
destruct (unit_float_cases u H0 H1) as [[s ->]|(m & e & -> & Hc & Hu)].
- left. eexists. reflexivity.
- unfold SF64mul, SFmul. cbn [xorb].
  pose proof (B2R_pos (Zpos m) e ltac:(lia)) as Hpos.
  assert (HX : B2R (Zpos (8444249301319680 * m)) (-44 + e)
               <= B2R 8444249301319680 (-44)).
  { rewrite Pos2Z.inj_mul, B2R_mul, B2R_480. nra. }
  assert (Hn : (0 <= fexp prec emax
                  (Zdigits2 (Zpos (8444249301319680 * m)) + (-44 + e))
                 - (-44 + e))%Z).
  { rewrite fexp64.
    assert (52 < Zdigits2 (Zpos (8444249301319680 * m)))%Z; [|lia].
    apply Zdigits2_ge; [|lia]. rewrite Pos2Z.inj_mul.
    change (2 ^ 52)%Z with 4503599627370496%Z. lia. }
  destruct (round_upper _ 8444249301319680 _ (-44) Hn
              ltac:(reflexivity) ltac:(lia) HX) as [E|(m' & e' & E & Hb)].
  + left. exists false. exact E.
  + right. exists m', e'. split; [exact E|]. now rewrite <- B2R_480.
Qed.

(** [70 + 480 * u] for [u] in [[0, 1)]: a positive number between 70 and
  550, both included. *)
Lemma uniform_70_550 u :
(0 <=? u)%float = true -> (u <? 1)%float = true ->
exists m e, Prim2SF (70 + 480 * u) = S754_finite false m e /\
            70 <= B2R (Zpos m) e <= 550.
Proof.
intros H0 H1. rewrite add_spec.
change (Prim2SF 70) with (S754_finite false 4925812092436480 (-46)).
destruct (mul_480_unit u H0 H1) as [[s ->]|(mp & ep & -> & Hp)].
- exists 4925812092436480%positive, (-46)%Z.
  split; [reflexivity|]. rewrite B2R_70. lra.
- destruct (SFadd_finite 4925812092436480 (-46) mp ep)
    as (S & e & -> & Hv).
  rewrite B2R_70 in Hv.
  pose proof (B2R_pos (Zpos mp) ep ltac:(lia)) as Hpos.
  destruct (binary_round_upper S 4837851162214400 e (-43)
              ltac:(reflexivity) ltac:(lia)) as [E|(m & e' & E & Hu)].
  { rewrite B2R_550. lra. }
  + exfalso.
    destruct (binary_round_lower S 4925812092436480 e (-46)
                ltac:(reflexivity)) as [E'|(m & e' & E' & _)].
    { rewrite B2R_70. lra. }
    all: rewrite E in E'; discriminate.
  + destruct (binary_round_lower S 4925812092436480 e (-46)
                ltac:(reflexivity)) as [E'|(m2 & e2 & E' & Hl)].
    { rewrite B2R_70. lra. }
    * rewrite E in E'; discriminate.
    * rewrite E in E'. injection E' as <- <-.
      exists m, e'. split; [exact E|].
      rewrite B2R_550 in Hu. rewrite B2R_70 in Hl. lra.
Qed.

(** Truncation of a positive number. *)
Lemma trunc_dyadic_floor m e :
IZR (trunc_dyadic m e) <= B2R (Zpos m) e < IZR (trunc_dyadic m e) + 1.
Proof.
unfold trunc_dyadic. destruct (0 <=? e)%Z eqn:E.
- apply Z.leb_le in E. rewrite <- B2R_IZR, B2R_shift by lia.
  simpl. lra.
- apply Z.leb_gt in E.
  pose proof (B2R_floor (Zpos m) e (- e) ltac:(lia) ltac:(lia)) as H.
  replace (e + - e)%Z with 0%Z in H by lia.
  rewrite !B2R_IZR, plus_IZR in H. exact H.
Qed.

(** [int(70 + 480 * u)] for [u] in [[0, 1)] is between 70 and 550. *)
Lemma int_uniform_70_550 u z :
(0 <=? u)%float = true -> (u <? 1)%float = true ->
py_int (70 + 480 * u) = Ok z -> (70 <= z <= 550)%Z.
Proof.
intros H0 H1. destruct (uniform_70_550 u H0 H1) as (m & e & E & Hb).
unfold py_int. rewrite E. intros H. injection H as <-. simpl.
pose proof (trunc_dyadic_floor m e) as Hf.
split.
- assert (69 < trunc_dyadic m e)%Z; [|lia].
  apply lt_IZR. lra.
- apply le_IZR. lra.
Qed.

(** A float in [[0, 1)] below the largest one is a zero or a positive
  number that is at most [1 - 2^-52]. *)
Lemma below_largest_cases u :
(0 <=? u)%float = true -> (u <? largest_unit_float)%float = true ->
(exists s, Prim2SF u = S754_zero s) \/
(exists m e, Prim2SF u = S754_finite false m e /\
             B2R (Zpos m) e <= B2R 9007199254740990 (-53)).
Proof.
intros H0 H1. apply leb_zero_NNs in H0. unfold NNs in H0.
rewrite ltb_spec in H1. pose proof (Prim2SF_valid u) as Hv.
change (Prim2SF largest_unit_float)
  with (S754_finite false 9007199254740991 (-53)) in H1.
destruct (Prim2SF u) as [s|s| |s m e]; simpl in H0; try easy.
- left. now exists s.
- subst s. discriminate.
- subst s. right. exists m, e. split; [reflexivity|].
  simpl in Hv. apply andb_prop in Hv. destruct Hv as [Hc _].
  apply SFltb_canonical in H1; [|exact Hc|reflexivity].
  apply canonical_bounds in Hc. destruct Hc as (H53 & Hmin & Hnorm).
  destruct (Z.lt_trichotomy e (-53)) as [He|[->|He]].
  + pose proof (B2R_lt_pow (Zpos m) 53 e H53 ltac:(lia)).
    pose proof (pow2_le (53 + e) (52 + -53) ltac:(lia)).
    pose proof (B2R_ge_pow 9007199254740990 52 (-53) ltac:(lia) ltac:(lia)).
    lra.
  + apply B2R_le. apply B2R_lt_inv in H1. lia.
  + exfalso.
    pose proof (B2R_ge_pow (Zpos m) 52 e (Hnorm ltac:(lia)) ltac:(lia)).
    pose proof (pow2_le (53 + -53) (52 + e) ltac:(lia)).
    pose proof (B2R_lt_pow 9007199254740991 53 (-53) ltac:(lia) ltac:(lia)).
    lra.
Qed.

Lemma below_480_half :
2 * (480 * B2R 9007199254740990 (-53))
  < B2R (2 * Zpos 8444249301319678 + 1) (-44).
Proof. unfold B2R. simpl. lra. Qed.

Lemma below_550_sum :
70 + B2R 8444249301319678 (-44) = B2R 4837851162214399 (-43).
Proof. unfold B2R. simpl. lra. Qed.

Lemma below_550 : B2R 4837851162214399 (-43) < 550.
Proof. unfold B2R. simpl. lra. Qed.

(** [480 * u] for [u] in [[0, 1)] below the largest float: a zero, or a
  positive number that is at most [480 - 2^-43], the float before 480. *)
Lemma mul_480_below u :
(0 <=? u)%float = true -> (u <? largest_unit_float)%float = true ->
(exists s, Prim2SF (480 * u) = S754_zero s) \/
(exists m e, Prim2SF (480 * u) = S754_finite false m e /\
             B2R (Zpos m) e <= B2R 8444249301319678 (-44)).
Proof.
intros H0 H1. rewrite mul_spec.
change (Prim2SF 480) with (S754_finite false 8444249301319680 (-44)).
destruct (below_largest_cases u H0 H1) as [[s ->]|(m & e & -> & Hu)].
- left. eexists. reflexivity.
- unfold SF64mul, SFmul. cbn [xorb].
  pose proof (B2R_pos (Zpos m) e ltac:(lia)) as Hpos.
  assert (HX : 2 * B2R (Zpos (8444249301319680 * m)) (-44 + e)
               < B2R (2 * Zpos 8444249301319678 + 1) (-44)).
  { rewrite Pos2Z.inj_mul, B2R_mul, B2R_480.
    pose proof below_480_half. nra. }
  assert (Hn : (0 <= fexp prec emax
                  (Zdigits2 (Zpos (8444249301319680 * m)) + (-44 + e))
                 - (-44 + e))%Z).
  { rewrite fexp64.
    assert (52 < Zdigits2 (Zpos (8444249301319680 * m)))%Z; [|lia].
    apply Zdigits2_ge; [|lia]. rewrite Pos2Z.inj_mul.
    change (2 ^ 52)%Z with 4503599627370496%Z. lia. }
  destruct (round_upper_half _ 8444249301319678 _ (-44) Hn
              ltac:(reflexivity) ltac:(lia) ltac:(lia) HX)
    as [E|(m' & e' & E & Hb)].
  + left. exists false. exact E.
  + right. exists m', e'. split; [exact E|exact Hb].
Qed.

(** [70 + 480 * u] for such a [u] is below 550. *)
Lemma uniform_below_550 u :
(0 <=? u)%float = true -> (u <? largest_unit_float)%float = true ->
exists m e, Prim2SF (70 + 480 * u) = S754_finite false m e /\
            B2R (Zpos m) e < 550.
Proof.
intros H0 H1. rewrite add_spec.
change (Prim2SF 70) with (S754_finite false 4925812092436480 (-46)).
destruct (mul_480_below u H0 H1) as [[s ->]|(mp & ep & -> & Hp)].
- exists 4925812092436480%positive, (-46)%Z.
  split; [reflexivity|]. rewrite B2R_70. lra.
- destruct (SFadd_finite 4925812092436480 (-46) mp ep)
    as (S & e & -> & Hv).
  rewrite B2R_70 in Hv.
  pose proof (B2R_pos (Zpos mp) ep ltac:(lia)) as Hpos.
  pose proof below_550_sum as Es. pose proof below_550 as Hs.
  destruct (binary_round_upper S 4837851162214399 e (-43)
              ltac:(reflexivity) ltac:(lia)) as [E|(m & e' & E & Hu)].
  { lra. }
  + exfalso.
    destruct (binary_round_lower S 4925812092436480 e (-46)
                ltac:(reflexivity)) as [E'|(m & e' & E' & _)].
    { rewrite B2R_70. lra. }
    all: rewrite E in E'; discriminate.
  + exists m, e'. split; [exact E|lra].
Qed.

(** [int(70 + 480 * u)] is 550 only for the largest [u]. *)
Lemma int_uniform_below_550 u z :
(0 <=? u)%float = true -> (u <? largest_unit_float)%float = true ->
py_int (70 + 480 * u) = Ok z -> (z < 550)%Z.
Proof.
intros H0 H1. destruct (uniform_below_550 u H0 H1) as (m & e & E & Hb).
unfold py_int. rewrite E. intros H. injection H as <-. simpl.
pose proof (trunc_dyadic_floor m e) as Hf.
apply lt_IZR. lra.
Qed.
End AreaDraw.

(* ================================================================== *)
(** ** The area of a row *)

Section Area.
Context {P : PRNG}.

Lemma random_random_unit (g g' : gen P) u :
  random_random g = Ok (u, g') ->
  (0 <=? u)%float = true /\ (u <? 1)%float = true.
Proof.
  unfold random_random. intros H. injection H as Hu.
  pose proof (next_random_unit P g) as Hr. now rewrite Hu in Hr.
Qed.

(** [rand_range(70, 550)] is [70 + 480 * u] for the next draw [u]. *)
Lemma rand_range_70_550 (g g' : gen P) x :
  rand_range (irange 70 550) g = Ok (x, g') ->
  exists u,
    random_random g = Ok (u, g') /\ x = (70 + 480 * u)%float.
Proof.
  unfold rand_range, random_uniform. simpl fst; simpl snd.
  intros H. minv H.
  apply lift_Ok in Hc, Hc1. destruct Hc as [Hd ->], Hc1 as [Hp ->].
  injection Hd as <-.
  vm_compute in Hp. injection Hp as <-.
  vm_compute in H. injection H as <-. subst g'.
  exists v0. split; [exact Hc0|reflexivity].
Qed.

Variable cfg : Config.

(** The area is [int(70 + 480 * u)] for one draw [u] of [random()]. *)
Lemma body_area (g g' : gen P) l :
  generate_row_body cfg g = Ok (l, g') ->
  exists (g1 g2 : gen P) u,
    random_random g1 = Ok (u, g2) /\
    py_int (70 + 480 * u) = Ok (l_area l).
Proof.
  intros H. invert_body H. subst l. simpl.
  match goal with
  | Hr : rand_range (irange 70 550) ?ga = Ok (?x, ?gb),
    Hi : py_int ?x = Ok _ |- _ =>
      apply rand_range_70_550 in Hr; destruct Hr as (u & Hu & ->);
      exists ga, gb, u; split; [exact Hu|exact Hi]
  end.
Qed.

(** C7, amended: the area of a generated row is [int(70 + 480 * u)] for a
    draw [u] of [random()]; it is an integer between 70 and 550, both
    included, and it is below 550 unless [u] is the largest value
    [random()] can return. *)
Theorem area_between_70_and_550 idx (g g' : gen P) row :
  generate_row cfg idx g = Ok (row, g') ->
  exists (g1 g2 : gen P) u,
    random_random g1 = Ok (u, g2) /\
    py_int (70 + 480 * u) = Ok (Area_Sqft row) /\
    70 <= Area_Sqft row <= 550 /\
    ((u <? largest_unit_float)%float = true -> Area_Sqft row < 550).
Proof.
  intros H. destruct (generate_row_locals _ _ _ _ _ H) as (l & Hb & Hr).
  destruct (build_row_copied _ _ _ _ Hr)
    as (_ & _ & _ & _ & _ & _ & -> & _).
  destruct (body_area _ _ _ Hb) as (g1 & g2 & u & Hu & Hi).
  exists g1, g2, u. split; [exact Hu|]. split; [exact Hi|].
  destruct (random_random_unit _ _ _ Hu) as [H0 H1].
  split.
  - exact (int_uniform_70_550 _ _ H0 H1 Hi).
  - intros Hlt. exact (int_uniform_below_550 _ _ H0 Hlt Hi).
Qed.
End Area.

(** C7, as the specification states it, fails: when [random()] returns
    its largest value, [70 + 480 * random()] rounds to [550.0] and the
    area of the row is 550. *)
Lemma area_can_be_550 :
  generate_row (P := replay endpoint_script) default_config 1 endpoint_script
    = Ok (endpoint_row, spent) /\
  (0 <=? largest_unit_float)%float = true /\
  (largest_unit_float <? 1)%float = true /\
  (70 + 480 * largest_unit_float)%float = 550%float /\
  ~ Area_Sqft endpoint_row < 550.
Proof.
  split; [vm_compute; reflexivity|].
  split; [reflexivity|]. split; [reflexivity|]. split; [reflexivity|].
  simpl. lia.
Qed.

Lemma area_between_70_and_550_witness :
  exists (g1 g2 : gen (replay sample_script)) u,
    random_random g1 = Ok (u, g2) /\
    py_int (70 + 480 * u) = Ok (Area_Sqft sample_row) /\
    70 <= Area_Sqft sample_row <= 550 /\
    ((u <? largest_unit_float)%float = true -> Area_Sqft sample_row < 550).
Proof.
  apply (area_between_70_and_550 (P := replay sample_script)
           default_config 1 sample_script spent sample_row).
  vm_compute. reflexivity.
Defined.

(* ================================================================== *)
(** ** The cost per square foot *)

Section PerSqft.
Context {P : PRNG}.
Variable cfg : Config.

(** C2, amended: [Total_Cost_per_Sqft] is the unrounded grand total
    divided by [max(1, Area_Sqft)], rounded to 2 decimals; the
    [Grand_Total] field is the rounding of the same unrounded total. *)
Theorem per_sqft_from_unrounded_total idx (g g' : gen P) row :
  generate_row cfg idx g = Ok (row, g') ->
  exists l q,
    generate_row_body cfg g = Ok (l, g') /\
    py_round (l_grand_total l) = Ok (Grand_Total row) /\
    float_div_int (l_grand_total l) (py_max_int 1 (Area_Sqft row)) = Ok q /\
    Total_Cost_per_Sqft row = py_round_nd q 2.
Proof.
  intros H. destruct (generate_row_locals _ _ _ _ _ H) as (l & Hb & Hr).
  pose proof (build_row_rounded _ _ _ _ Hr) as Hc.
  destruct (build_row_copied _ _ _ _ Hr)
    as (_ & _ & _ & _ & _ & _ & Ha & _ & _ & _ & _ & _ & Ht).
  exists l, (l_total_psf l). rewrite Ha, Ht.
  split; [exact Hb|]. split; [apply Hc|]. split; [|reflexivity].
  exact (body_total_psf _ _ _ _ Hb).
Qed.
End PerSqft.

(** C2, as the specification states it, fails: on the recorded bedroom the
    unrounded total is 172373.505..., so the row holds [Grand_Total =
    172374] and [Total_Cost_per_Sqft = 556.04], while
    [round(172374 / 310, 2)] is 556.05. *)
Lemma per_sqft_is_not_from_rounded_total :
  generate_row (P := replay sample_script) default_config 1 sample_script
    = Ok (sample_row, spent) /\
  1 <= Area_Sqft sample_row /\
  claimed_cost_per_sqft sample_row = Ok 556.05%float /\
  Total_Cost_per_Sqft sample_row = 556.04%float /\
  claimed_cost_per_sqft sample_row <> Ok (Total_Cost_per_Sqft sample_row).
Proof.
  split; [vm_compute; reflexivity|].
  split; [simpl; lia|].
  split; [vm_compute; reflexivity|].
  split; [reflexivity|].
  intros H.
  apply (f_equal (fun r => match r with
                           | Ok x => Prim2SF x
                           | Raise _ => S754_nan
                           end)) in H.
  vm_compute in H. discriminate.
Qed.

Lemma per_sqft_from_unrounded_total_witness :
  exists l q,
    generate_row_body (P := replay sample_script) default_config sample_script
      = Ok (l, spent) /\
    py_round (l_grand_total l) = Ok (Grand_Total sample_row) /\
    float_div_int (l_grand_total l) (py_max_int 1 (Area_Sqft sample_row))
      = Ok q /\
    Total_Cost_per_Sqft sample_row = py_round_nd q 2.
Proof.
  apply (per_sqft_from_unrounded_total (P := replay sample_script)
           default_config 1 sample_script spent sample_row).
  vm_compute. reflexivity.
Defined.

(* ================================================================== *)
(** ** Invalid configurations *)









Lemma accumulate_from_length ws : forall acc,
  List.length (accumulate_from acc ws) = List.length ws.
Proof. induction ws; intros acc; simpl; auto. Qed.

Lemma accumulate_length ws :
  List.length (accumulate ws) = List.length ws.
Proof.
  destruct ws; simpl; [reflexivity|]. now rewrite accumulate_from_length.
Qed.

Lemma index_In {A} (l : list A) i x : index l i = Ok x -> In x l.
Proof.
  unfold index. destruct (nth_error l (Z.to_nat i)) eqn:E; [|discriminate].
  intros H. injection H as <-. eapply nth_error_In; eassumption.
Qed.




Section Validation.
Context {P : PRNG}.



End Validation.

(* ================================================================== *)
(** ** The theorems on the recorded runs *)

Lemma grand_total_is_rounded_sum_witness :
  exists l,
    generate_row_body (P := replay sample_script) default_config sample_script
      = Ok (l, spent) /\
    rounded_costs l sample_row /\
    subtotals default_config l /\
    py_round (l_subtotal_pre_tax l + l_gst_amount l)%float
      = Ok (Grand_Total sample_row).
Proof.
  apply (grand_total_is_rounded_sum (P := replay sample_script)
           default_config 1 sample_script spent sample_row).
  vm_compute. reflexivity.
Defined.

Lemma packages_only_in_their_room_witness :
  (Room_Type sample_row <> "Kitchen" ->
     Kitchen_Package_Cost sample_row = 0 /\
     Kitchen_Package sample_row = "None") /\
  (Room_Type sample_row <> "Bathroom" ->
     Bathroom_Package_Cost sample_row = 0 /\
     Bathroom_Package sample_row = "None").
Proof.
  apply (packages_only_in_their_room (P := replay sample_script)
           default_config 1 sample_script spent sample_row).
  vm_compute. reflexivity.
Defined.

Lemma bathroom_has_no_ceiling_witness :
  Ceiling_Material_Cost bathroom_row = 0 /\
  Ceiling_Labor_Cost bathroom_row = 0 /\
  Ceiling_Type bathroom_row = "None" /\
  Ceiling_Quality bathroom_row = "None".
Proof.
  apply (bathroom_has_no_ceiling (P := replay bathroom_script)
           default_config 1 bathroom_script spent bathroom_row).
  - vm_compute. reflexivity.
  - reflexivity.
Defined.

Lemma cost_fields_are_nonnegative_witness :
  0 <= Painting_Material_Cost sample_row /\
  0 <= Painting_Labor_Cost sample_row /\
  0 <= Flooring_Material_Cost sample_row /\
  0 <= Flooring_Labor_Cost sample_row /\
  0 <= Ceiling_Material_Cost sample_row /\
  0 <= Ceiling_Labor_Cost sample_row /\
  0 <= Electrical_Material_Cost sample_row /\
  0 <= Electrical_Labor_Cost sample_row /\
  0 <= Kitchen_Package_Cost sample_row /\
  0 <= Bathroom_Package_Cost sample_row /\
  0 <= Plumbing_Cost sample_row /\
  0 <= Furniture_Cost sample_row /\
  0 <= Wastage_Sundries_Cost sample_row /\
  0 <= Contractor_Overhead_Cost sample_row /\
  0 <= GST_Amount sample_row /\
  0 <= Grand_Total sample_row /\
  (0 <=? Total_Cost_per_Sqft sample_row)%float = true.
Proof.
  apply (cost_fields_are_nonnegative (replay sample_script) 1
           sample_script spent sample_row).
  vm_compute. reflexivity.
Defined.

Lemma dataset_has_N_rows_in_order_witness :
  N_ROWS default_config = 10000 /\
  len [sample_row] = N_ROWS (with_rows default_config 1) /\
  steps (generate_row (P := replay sample_script)
           (with_rows default_config 1))
    (py_range 1 (N_ROWS (with_rows default_config 1) + 1))
    sample_script [sample_row] spent /\
  map Row_ID [sample_row]
    = py_range 1 (N_ROWS (with_rows default_config 1) + 1) /\
  (forall k : nat, Z.of_nat k < N_ROWS (with_rows default_config 1) ->
     exists row,
       nth_error [sample_row] k = Some row /\ Row_ID row = 1 + Z.of_nat k).
Proof.
  apply (dataset_has_N_rows_in_order (P := replay sample_script)
           (with_rows default_config 1) sample_script spent [sample_row]).
  - vm_compute. reflexivity.
  - simpl. lia.
Defined.

Lemma city_fields_follow_the_table_witness :
  exists cinfo,
    lookup (cities default_config) (City sample_row) = Some cinfo /\
    City_Tier sample_row = tier cinfo /\
    City_Multiplier sample_row = multiplier cinfo /\
    Labor_Day_Rate_Min sample_row = fst (labor_day_rate cinfo) /\
    Labor_Day_Rate_Max sample_row = snd (labor_day_rate cinfo).
Proof.
  apply (city_fields_follow_the_table (P := replay sample_script)
           default_config 1 sample_script spent sample_row).
  vm_compute. reflexivity.
Defined.

(* ================================================================== *)
(** ** The draws of [random.choice] and [random.choices] *)

Lemma index_Ok {A} (l : list A) i :
  0 <= i < len l -> exists x, index l i = Ok x.
Proof.
  unfold index, len. intros H.
  destruct (nth_error l (Z.to_nat i)) eqn:E; [eauto|].
  apply nth_error_None in E. lia.
Qed.

Lemma len_pos {A} (l : list A) : l <> [] -> 0 < len l.
Proof. destruct l; [congruence|]. intros _. unfold len. simpl. lia. Qed.

(** The binary search stays between its bounds and reads the list only
    below [hi]. *)
Lemma bisect_loop_range a x :
  forall fuel lo hi,
    0 <= lo <= hi -> hi <= len a ->
    exists i, bisect_loop fuel a x lo hi = Ok i /\ lo <= i <= hi.
Proof.
  induction fuel as [|fuel IH]; intros lo hi Hlo Hhi; simpl.
  - destruct (lo <? hi); exists lo; split; auto; lia.
  - destruct (lo <? hi) eqn:E; [|exists lo; split; auto; lia].
    apply Z.ltb_lt in E.
    assert (Hmid : lo <= (lo + hi) / 2 < hi).
    { split.
      - apply Z.div_le_lower_bound; lia.
      - apply Z.div_lt_upper_bound; lia. }
    destruct (index_Ok a ((lo + hi) / 2) ltac:(lia)) as [am ->]. simpl.
    destruct (x <? am)%float.
    + destruct (IH lo ((lo + hi) / 2) ltac:(lia) ltac:(lia)) as (i & -> & Hi).
      exists i. split; [reflexivity|lia].
    + destruct (IH ((lo + hi) / 2 + 1) hi ltac:(lia) ltac:(lia))
        as (i & -> & Hi).
      exists i. split; [reflexivity|lia].
Qed.

(** The test [random.choices] makes on its weights: their sum is positive
    and finite. *)
Definition weights_ok (ws : list float) : bool :=
  match accumulate ws with
  | [] => false
  | cum =>
      match index cum (len cum - 1) with
      | Ok c => negb (c + 0 <=? 0)%float && is_finite (c + 0)%float
      | Raise _ => false
      end
  end.

Section Choice.
Context {P : PRNG}.

Lemma random_choice_In {A} (seq : list A) (g g' : gen P) x :
  random_choice seq g = Ok (x, g') -> In x seq.
Proof.
  unfold random_choice. destruct (len seq =? 0); [discriminate|].
  destruct (randbelow P (len seq) g) as [i g1]. intros H.
  apply lift_Ok in H. destruct H as [H _]. now apply index_In in H.
Qed.

Lemma random_choice_total {A} (seq : list A) (g : gen P) :
  seq <> [] ->
  exists x,
    random_choice seq g = Ok (x, snd (randbelow P (len seq) g)) /\ In x seq.
Proof.
  intros Hne. pose proof (len_pos seq Hne) as Hlen.
  unfold random_choice.
  destruct (len seq =? 0) eqn:E; [apply Z.eqb_eq in E; lia|].
  pose proof (randbelow_range P (len seq) g Hlen) as Hi.
  destruct (randbelow P (len seq) g) as [i g1]. simpl in *.
  destruct (index_Ok seq i Hi) as [x Hx].
  exists x. unfold lift. rewrite Hx. split; [reflexivity|].
  now apply index_In in Hx.
Qed.

Lemma random_choices1_In {A} (pop : list A) ws (g g' : gen P) x :
  random_choices1 pop ws g = Ok (x, g') -> In x pop.
Proof.
  unfold random_choices1.
  destruct (negb _); [discriminate|]. intros H.
  apply bind_Ok in H. destruct H as (c & g1 & _ & H).
  destruct (c + 0 <=? 0)%float; [discriminate|].
  destruct (negb _); [discriminate|].
  minv H. now apply index_In in H.
Qed.

Lemma random_choices1_length {A} (pop : list A) ws (g : gen P) :
  List.length ws <> List.length pop ->
  random_choices1 pop ws g = Raise ValueError.
Proof.
  intros Hne. unfold random_choices1.
  assert (E : (len (accumulate ws) =? len pop) = false).
  { apply Z.eqb_neq. unfold len. rewrite accumulate_length. lia. }
  now rewrite E.
Qed.

(** With as many weights as elements and a positive finite sum,
    [random.choices] returns an element and draws [random()] once. *)
Lemma random_choices1_total {A} (pop : list A) ws (g : gen P) :
  List.length ws = List.length pop -> weights_ok ws = true ->
  exists x,
    random_choices1 pop ws g = Ok (x, snd (next_random P g)) /\ In x pop.
Proof.
  intros Hlen Hok. unfold random_choices1.
  assert (Hl : len (accumulate ws) = len pop).
  { unfold len. now rewrite accumulate_length, Hlen. }
  rewrite Hl, Z.eqb_refl. cbn [negb].
  unfold weights_ok in Hok.
  destruct (accumulate ws) as [|c0 cs] eqn:Ec; [discriminate|].
  rewrite Hl in Hok.
  unfold bind at 1. unfold lift at 1.
  destruct (index (c0 :: cs) (len pop - 1)) as [c|e]; [|discriminate].
  apply andb_prop in Hok. destruct Hok as [Hpos Hfin].
  apply negb_true_iff in Hpos. rewrite Hpos, Hfin. cbn [negb].
  unfold bind, random_random.
  destruct (next_random P g) as [u g1]. cbn [snd].
  assert (Hn : 0 < len pop).
  { rewrite <- Hl. unfold len. simpl. lia. }
  unfold bisect.
  destruct (bisect_loop_range (c0 :: cs) (u * (c + 0))%float
              (Z.to_nat (len pop - 1 - 0)) 0 (len pop - 1)
              ltac:(lia) ltac:(lia)) as (i & -> & Hi).
  unfold lift at 1.
  destruct (index_Ok pop i ltac:(lia)) as [x Hx].
  exists x. unfold lift. rewrite Hx. split; [reflexivity|].
  now apply index_In in Hx.
Qed.
End Choice.

(* ================================================================== *)
(** ** The helper functions that choose *)

Lemma getitem_In_keys {V} (d : dict V) k v :
  getitem d k = Ok v -> In k (keys d).
Proof.
  unfold getitem. induction d as [|[k' v'] d IH]; simpl; [discriminate|].
  destruct (String.eqb_spec k k') as [->|Hne]; [now left|].
  intros H. right. now apply IH.
Qed.

Lemma In_keys_getitem {V} (d : dict V) k :
  In k (keys d) -> exists v, getitem d k = Ok v.
Proof.
  unfold getitem. induction d as [|[k' v'] d IH]; simpl; [easy|].
  intros [->|H].
  - rewrite String.eqb_refl. eauto.
  - destruct (String.eqb k k'); [eauto|now apply IH].
Qed.

Lemma str_in_wet room :
  str_in room ["Kitchen"; "Bathroom"] = true <->
  room = "Kitchen" \/ room = "Bathroom".
Proof.
  unfold str_in. simpl. rewrite orb_false_r, orb_true_iff, !String.eqb_eq.
  reflexivity.
Qed.

Lemma str_in_dry room :
  room <> "Kitchen" -> room <> "Bathroom" ->
  str_in room ["Kitchen"; "Bathroom"] = false.
Proof.
  intros H1 H2. destruct (str_in room _) eqn:E; [|reflexivity].
  apply str_in_wet in E. tauto.
Qed.

Section Helpers.
Context {P : PRNG}.
Variable cfg : Config.

(** X1: [choose_quality] pairs four literal weights with the keys of
    [quality_tiers]: with four tiers it returns one of them and draws
    [random()] once; with any other number of tiers it raises
    [ValueError]. *)
Theorem choose_quality_needs_four_tiers (g : gen P) :
  (List.length (quality_tiers cfg) = 4%nat ->
   exists q,
     choose_quality cfg g = Ok (q, snd (next_random P g)) /\
     In q (keys (quality_tiers cfg))) /\
  (List.length (quality_tiers cfg) <> 4%nat ->
   choose_quality cfg g = Raise ValueError).
Proof.
  unfold choose_quality. split; intros H.
  - apply random_choices1_total; [|reflexivity].
    unfold keys. rewrite length_map, H. reflexivity.
  - apply random_choices1_length.
    unfold keys. rewrite length_map. simpl. congruence.
Qed.

(** X2: [choose_flooring_type]: a kitchen or a bathroom gets one of three
    tile and stone floors, whatever the catalog holds; any other room gets
    a key of [flooring_catalog], which must have exactly seven entries for
    the seven literal weights, else the call raises [ValueError]. *)
Theorem choose_flooring_type_by_room room (g : gen P) :
  (room = "Kitchen" \/ room = "Bathroom" ->
   exists t,
     choose_flooring_type cfg room g = Ok (t, snd (next_random P g)) /\
     In t ["Ceramic_Tile"; "Vitrified_Tile"; "Granite"]) /\
  (room <> "Kitchen" -> room <> "Bathroom" ->
   List.length (flooring_catalog cfg) = 7%nat ->
   exists t,
     choose_flooring_type cfg room g = Ok (t, snd (next_random P g)) /\
     In t (keys (flooring_catalog cfg))) /\
  (room <> "Kitchen" -> room <> "Bathroom" ->
   List.length (flooring_catalog cfg) <> 7%nat ->
   choose_flooring_type cfg room g = Raise ValueError).
Proof.
  unfold choose_flooring_type. split; [|split].
  - intros H. apply str_in_wet in H. rewrite H.
    apply random_choices1_total; reflexivity.
  - intros H1 H2 Hlen. rewrite (str_in_dry _ H1 H2).
    apply random_choices1_total; [|reflexivity].
    unfold keys. rewrite length_map, Hlen. reflexivity.
  - intros H1 H2 Hlen. rewrite (str_in_dry _ H1 H2).
    apply random_choices1_length.
    unfold keys. rewrite length_map. simpl. congruence.
Qed.

(** [choose_ceiling_type] returns a key of [ceiling_catalog], and raises
    [IndexError] when the catalog is empty. *)
Lemma choose_ceiling_type_In (g g' : gen P) t :
  choose_ceiling_type cfg g = Ok (t, g') -> In t (keys (ceiling_catalog cfg)).
Proof. apply random_choice_In. Qed.

(** X3: [choose_furniture_level]: a kitchen or a bathroom gets ["None"]
    without any draw; any other room gets one of the four levels, from
    one draw of [random()]. *)
Theorem choose_furniture_level_by_room room (g : gen P) :
  (room = "Kitchen" \/ room = "Bathroom" ->
   choose_furniture_level room g = Ok ("None", g)) /\
  (room <> "Kitchen" -> room <> "Bathroom" ->
   exists f,
     choose_furniture_level room g = Ok (f, snd (next_random P g)) /\
     In f ["None"; "Basic"; "Standard"; "Premium"]).
Proof.
  unfold choose_furniture_level. split.
  - intros H. apply str_in_wet in H. now rewrite H.
  - intros H1 H2. rewrite (str_in_dry _ H1 H2).
    apply random_choices1_total; reflexivity.
Qed.

(** X4: [kitchen_package_by_level] never fails and always names a package of
    the source's [kitchen_packages]: ["Basic_L"] at the basic level,
    without any draw; one of the two lower packages at the mid level; one
    of the three upper packages at any other level, known or not. *)
Theorem kitchen_package_by_level_total level (g : gen P) :
  exists k g',
    kitchen_package_by_level level g = Ok (k, g') /\
    In k (keys (kitchen_packages default_config)) /\
    (level = "Basic" -> k = "Basic_L" /\ g' = g) /\
    (level = "Mid" -> In k ["Basic_L"; "Standard_L"]) /\
    (level <> "Basic" -> level <> "Mid" ->
     In k ["Standard_L"; "Premium_U"; "Luxury_Island"]).
Proof.
  unfold kitchen_package_by_level.
  destruct (String.eqb_spec level "Basic") as [->|Hb].
  - exists "Basic_L", g. split; [reflexivity|]. split; [simpl; auto|].
    split; [auto|]. split; [discriminate|congruence].
  - destruct (String.eqb_spec level "Mid") as [->|Hm].
    + destruct (random_choice_total ["Basic_L"; "Standard_L"] g
                  ltac:(discriminate)) as (k & Hk & Hin).
      exists k, (snd (randbelow P (len ["Basic_L"; "Standard_L"]) g)).
      split; [exact Hk|]. split; [simpl in *; tauto|].
      split; [discriminate|]. split; [auto|congruence].
    + destruct (random_choice_total
                  ["Standard_L"; "Premium_U"; "Luxury_Island"] g
                  ltac:(discriminate)) as (k & Hk & Hin).
      exists k, (snd (randbelow P
                   (len ["Standard_L"; "Premium_U"; "Luxury_Island"]) g)).
      split; [exact Hk|]. split; [simpl in *; tauto|].
      split; [congruence|]. split; [congruence|auto].
Qed.

(** X5: [bathroom_package_by_level] never fails and always names a package of
    the source's [bathroom_packages]: ["Basic"] at the basic level, without
    any draw; ["Basic"] or ["Standard"] at the mid level; ["Standard"] or
    ["Premium"] at any other level, known or not. *)
Theorem bathroom_package_by_level_total level (g : gen P) :
  exists k g',
    bathroom_package_by_level level g = Ok (k, g') /\
    In k (keys (bathroom_packages default_config)) /\
    (level = "Basic" -> k = "Basic" /\ g' = g) /\
    (level = "Mid" -> In k ["Basic"; "Standard"]) /\
    (level <> "Basic" -> level <> "Mid" -> In k ["Standard"; "Premium"]).
Proof.
  unfold bathroom_package_by_level.
  destruct (String.eqb_spec level "Basic") as [->|Hb].
  - exists "Basic", g. split; [reflexivity|]. split; [simpl; auto|].
    split; [auto|]. split; [discriminate|congruence].
  - destruct (String.eqb_spec level "Mid") as [->|Hm].
    + destruct (random_choice_total ["Basic"; "Standard"] g
                  ltac:(discriminate)) as (k & Hk & Hin).
      exists k, (snd (randbelow P (len ["Basic"; "Standard"]) g)).
      split; [exact Hk|]. split; [simpl in *; tauto|].
      split; [discriminate|]. split; [auto|congruence].
    + destruct (random_choice_total ["Standard"; "Premium"] g
                  ltac:(discriminate)) as (k & Hk & Hin).
      exists k, (snd (randbelow P (len ["Standard"; "Premium"]) g)).
      split; [exact Hk|]. split; [simpl in *; tauto|].
      split; [congruence|]. split; [congruence|auto].
Qed.
End Helpers.

(* ================================================================== *)
(** ** Selections of a row *)

(** The selections of [row] that are copied from the locals [l]. *)
Definition copied_selections (l : Locals) (row : Row) : Prop :=
  Renovation_Level row = l_renov_level l /\
  Paint_Quality row = l_paint_quality l /\
  Floor_Type row = l_floor_type l /\
  Floor_Quality row = l_floor_quality l /\
  Has_Electrical row = l_has_electrical l.

Lemma build_row_selections cfg idx l row :
  build_row cfg idx l = Ok row -> copied_selections l row.
Proof.
  unfold build_row. intros H. minv H.
  injection H as <-. unfold copied_selections; simpl.
  repeat split; reflexivity.
Qed.

(** A product [0.0 * float(z)] that [round] accepts rounds to 0. *)
Lemma float_mul_int_zero_round z y r :
  float_mul_int 0%float z = Ok y -> py_round y = Ok r -> r = 0.
Proof.
  unfold float_mul_int. intros H. minv H. injection H as <-.
  unfold py_round. rewrite mul_spec.
  change (Prim2SF 0) with (S754_zero false).
  destruct (Prim2SF v) as [s|s| |s m e]; simpl; intros H;
    try discriminate H; now injection H.
Qed.

Lemma literal_levels (level : string) (p : float) :
  getitem [("Basic", 0.4%float); ("Mid", 0.65%float); ("Luxury", 0.9%float)]
    level = Ok p ->
  In level ["Basic"; "Mid"; "Luxury"].
Proof. intros H. apply getitem_In_keys in H. exact H. Qed.

Section BodySelections.
Context {P : PRNG}.
Variable cfg : Config.

Lemma choose_quality_In (g g' : gen P) q :
  choose_quality cfg g = Ok (q, g') -> In q (keys (quality_tiers cfg)).
Proof. apply random_choices1_In. Qed.

Lemma choose_furniture_level_In room (g g' : gen P) f :
  choose_furniture_level room g = Ok (f, g') ->
  In f ["None"; "Basic"; "Standard"; "Premium"].
Proof.
  unfold choose_furniture_level. destruct (str_in room _).
  - intros H. apply ret_Ok in H. destruct H as [-> _]. simpl. auto.
  - apply random_choices1_In.
Qed.

(** The names the body draws come from their tables. *)
Lemma body_domains (g g' : gen P) l :
  generate_row_body cfg g = Ok (l, g') ->
  In (l_city l) (city_names cfg) /\
  In (l_room_type l) (room_types cfg) /\
  In (l_renov_level l) (keys (renovation_levels cfg)) /\
  In (l_renov_level l) ["Basic"; "Mid"; "Luxury"] /\
  In (l_paint_quality l) (keys (quality_tiers cfg)) /\
  In (l_floor_quality l) (keys (quality_tiers cfg)) /\
  In (l_floor_type l) (keys (flooring_catalog cfg)) /\
  In (l_furniture_level l) ["None"; "Basic"; "Standard"; "Premium"].
Proof.
  intros H. invert_body H. subst l. simpl.
  repeat match goal with
  | Hr : random_choice _ _ = Ok _ |- _ => apply random_choice_In in Hr
  | Hr : choose_quality _ _ = Ok _ |- _ => apply choose_quality_In in Hr
  | Hr : choose_furniture_level _ _ = Ok _ |- _ =>
      apply choose_furniture_level_In in Hr
  end.
  match goal with
  | Hr : getitem [_; _; _] _ = Ok _ |- _ => apply literal_levels in Hr
  end.
  match goal with
  | Hr : getitem (flooring_catalog cfg) _ = Ok _ |- _ =>
      apply getitem_In_keys in Hr
  end.
  repeat split; assumption.
Qed.

(** A kitchen or a bathroom gets a tile or stone floor. *)
Lemma body_wet_floor (g g' : gen P) l :
  generate_row_body cfg g = Ok (l, g') ->
  l_room_type l = "Kitchen" \/ l_room_type l = "Bathroom" ->
  In (l_floor_type l) ["Ceramic_Tile"; "Vitrified_Tile"; "Granite"].
Proof.
  intros H. invert_body H. subst l. simpl. intros Hw.
  apply str_in_wet in Hw.
  match goal with
  | Hr : choose_flooring_type _ _ _ = Ok _ |- _ =>
      unfold choose_flooring_type in Hr; rewrite Hw in Hr;
      now apply random_choices1_In in Hr
  end.
Qed.

(** Furniture: none in a kitchen or a bathroom, and no cost without a
    level. *)
Lemma body_furniture (g g' : gen P) l :
  generate_row_body cfg g = Ok (l, g') ->
  (l_room_type l = "Kitchen" \/ l_room_type l = "Bathroom" ->
   l_furniture_level l = "None") /\
  (l_furniture_level l = "None" -> l_furniture_cost l = 0%float) /\
  (l_furniture_level l <> "None" ->
   In (l_furniture_level l) (keys (furniture_room cfg))).
Proof.
  intros H. invert_body H. subst l. simpl. split; [|split].
  - intros Hw. apply str_in_wet in Hw.
    match goal with
    | Hr : choose_furniture_level _ _ = Ok _ |- _ =>
        unfold choose_furniture_level in Hr; rewrite Hw in Hr;
        apply ret_Ok in Hr; now destruct Hr
    end.
  - intros Hn.
    match goal with
    | Hr : (if negb (_ =? "None")%string then _ else _) _ = Ok _ |- _ =>
        rewrite Hn in Hr; simpl in Hr; apply ret_Ok in Hr; now destruct Hr
    end.
  - intros Hn. apply eqb_neq_false in Hn.
    match goal with
    | Hr : (if negb (_ =? "None")%string then _ else _) _ = Ok _ |- _ =>
        rewrite Hn in Hr; simpl in Hr; minv Hr
    end.
    match goal with
    | Hr : lift (getitem (furniture_room cfg) _) _ = Ok _ |- _ =>
        apply lift_Ok in Hr; destruct Hr as [Hr _];
        now apply getitem_In_keys in Hr
    end.
Qed.

(** Plumbing is charged in kitchens and bathrooms only. *)
Lemma body_plumbing (g g' : gen P) l :
  generate_row_body cfg g = Ok (l, g') ->
  l_room_type l <> "Kitchen" -> l_room_type l <> "Bathroom" ->
  l_plumbing_cost l = 0%float.
Proof.
  intros H. invert_body H. subst l. simpl. intros Hk Hb.
  apply eqb_neq_false in Hk, Hb.
  repeat match goal with
  | Hr : (if (_ =? "Kitchen")%string then _ else ret 0%float) _ = Ok _ |- _ =>
      rewrite Hk in Hr; apply ret_Ok in Hr; destruct Hr as [-> _]
  | Hr : (if (_ =? "Bathroom")%string then _ else ret _) _ = Ok (_, _)
    |- _ =>
      rewrite Hb in Hr; apply ret_Ok in Hr; destruct Hr as [Hr _]
  end.
  assumption.
Qed.

(** Without rewiring the electrical material cost is [0.0 * area] and the
    electrical labor cost is [0.0]. *)
Lemma body_electrical (g g' : gen P) l :
  generate_row_body cfg g = Ok (l, g') ->
  l_has_electrical l = false ->
  float_mul_int 0%float (l_area l) = Ok (l_electrical_material_cost l) /\
  l_electrical_labor_cost l = 0%float.
Proof.
  intros H. invert_body H. subst l. simpl. intros He.
  repeat match goal with
  | Hr : (if (_ <? _)%float then _ else ret 0%float) _ = Ok _ |- _ =>
      rewrite He in Hr; apply ret_Ok in Hr; destruct Hr as [-> _]
  end.
  split; [assumption|reflexivity].
Qed.

(** The false ceiling: either there is none, or its type and quality come
    from their tables and the room is not a bathroom. *)
Lemma body_ceiling (g g' : gen P) l :
  generate_row_body cfg g = Ok (l, g') ->
  (l_has_ceiling l = false /\
   l_ceiling_type l = "None" /\
   l_ceiling_material_cost l = 0%float /\
   l_ceiling_labor_cost l = 0%float) \/
  (l_has_ceiling l = true /\
   l_room_type l <> "Bathroom" /\
   In (l_ceiling_type l) (keys (ceiling_catalog cfg)) /\
   In (l_ceiling_quality l) (keys (quality_tiers cfg))).
Proof.
  intros H. invert_body H. subst l. simpl.
  match goal with
  | Hh : (if negb (?r =? "Bathroom")%string then _ else ret false) _
         = Ok (?b, _) |- _ =>
      destruct b; [right|left]
  end.
  - split; [reflexivity|].
    match goal with
    | Hh : (if negb (?r =? "Bathroom")%string then _ else ret false) _
           = Ok (true, _) |- _ =>
        destruct (String.eqb_spec r "Bathroom") as [Hb|Hb];
        [simpl in Hh; apply ret_Ok in Hh; destruct Hh; discriminate|]
    end.
    split; [assumption|].
    repeat match goal with
    | Hh : (if true then _ else _) _ = Ok _ |- _ => cbv iota in Hh
    end.
    match goal with
    | Hh : choose_ceiling_type _ _ = Ok _ |- _ =>
        apply choose_ceiling_type_In in Hh
    end.
    split; [assumption|].
    match goal with
    | Hq : bind (lift (getitem (ceiling_catalog cfg) _)) _ _ = Ok _ |- _ =>
        minv Hq
    end.
    match goal with
    | Hq : lift (getitem (quality_tiers cfg) _) _ = Ok _ |- _ =>
        apply lift_Ok in Hq; destruct Hq as [Hq _];
        now apply getitem_In_keys in Hq
    end.
  - split; [reflexivity|].
    repeat match goal with
    | Hh : (if false then _ else _) _ = Ok _ |- _ => cbv iota in Hh
    | Hh : ret _ _ = Ok _ |- _ => apply ret_Ok in Hh; destruct Hh; subst
    end.
    match goal with
    | Hh : float_mul_int 0%float 0 = Ok _ |- _ =>
        apply float_mul_int_zero_zero in Hh; subst
    end.
    repeat split; reflexivity.
Qed.

(** The package of a kitchen follows the renovation level. *)
Lemma body_kitchen_level (g g' : gen P) l :
  generate_row_body cfg g = Ok (l, g') ->
  l_room_type l = "Kitchen" ->
  In (l_kitchen_pkg_name l) (keys (kitchen_packages cfg)) /\
  (l_renov_level l = "Basic" -> l_kitchen_pkg_name l = "Basic_L") /\
  (l_renov_level l = "Mid" ->
   In (l_kitchen_pkg_name l) ["Basic_L"; "Standard_L"]) /\
  (l_renov_level l = "Luxury" ->
   In (l_kitchen_pkg_name l) ["Standard_L"; "Premium_U"; "Luxury_Island"]).
Proof.
  intros H. invert_body H. subst l. simpl. intros Hk.
  match goal with
  | Hr : (if (_ =? "Kitchen")%string then _ else ret ("None", _)) _ = Ok _
    |- _ => rewrite Hk in Hr; simpl in Hr; minv Hr; injection Hr as <- <-
  end.
  match goal with
  | Hr : lift (getitem (kitchen_packages cfg) _) _ = Ok _ |- _ =>
      apply lift_Ok in Hr; destruct Hr as [Hr _];
      apply getitem_In_keys in Hr
  end.
  split; [assumption|].
  match goal with
  | Hr : kitchen_package_by_level ?lv _ = Ok _ |- _ =>
      unfold kitchen_package_by_level in Hr;
      split; [|split]; intros Hl; rewrite Hl in Hr; simpl in Hr
  end.
  - match goal with
    | Hr : ret _ _ = Ok _ |- _ => apply ret_Ok in Hr; now destruct Hr
    end.
  - match goal with
    | Hr : random_choice _ _ = Ok _ |- _ => now apply random_choice_In in Hr
    end.
  - match goal with
    | Hr : random_choice _ _ = Ok _ |- _ => now apply random_choice_In in Hr
    end.
Qed.

(** The package of a bathroom follows the renovation level. *)
Lemma body_bathroom_level (g g' : gen P) l :
  generate_row_body cfg g = Ok (l, g') ->
  l_room_type l = "Bathroom" ->
  In (l_bath_pkg_name l) (keys (bathroom_packages cfg)) /\
  (l_renov_level l = "Basic" -> l_bath_pkg_name l = "Basic") /\
  (l_renov_level l = "Mid" -> In (l_bath_pkg_name l) ["Basic"; "Standard"]) /\
  (l_renov_level l = "Luxury" ->
   In (l_bath_pkg_name l) ["Standard"; "Premium"]).
Proof.
  intros H. invert_body H. subst l. simpl. intros Hk.
  match goal with
  | Hr : (if (_ =? "Bathroom")%string then _ else ret ("None", _)) _ = Ok _
    |- _ => rewrite Hk in Hr; simpl in Hr; minv Hr; injection Hr as <- <-
  end.
  match goal with
  | Hr : lift (getitem (bathroom_packages cfg) _) _ = Ok _ |- _ =>
      apply lift_Ok in Hr; destruct Hr as [Hr _];
      apply getitem_In_keys in Hr
  end.
  split; [assumption|].
  match goal with
  | Hr : bathroom_package_by_level ?lv _ = Ok _ |- _ =>
      unfold bathroom_package_by_level in Hr;
      split; [|split]; intros Hl; rewrite Hl in Hr; simpl in Hr
  end.
  - match goal with
    | Hr : ret _ _ = Ok _ |- _ => apply ret_Ok in Hr; now destruct Hr
    end.
  - match goal with
    | Hr : random_choice _ _ = Ok _ |- _ => now apply random_choice_In in Hr
    end.
  - match goal with
    | Hr : random_choice _ _ = Ok _ |- _ => now apply random_choice_In in Hr
    end.
Qed.
End BodySelections.

(* ================================================================== *)
(** ** A fourth recorded run *)

(** A kitchen in Mumbai, luxury level, with a false ceiling and
    rewiring. *)
Definition kitchen_script : script := {|
  floats := [0.25; 0.5; 0.5; 0.5; 0.5; 0.5; 0.5; 0.5; 0.5; 0.5; 0.5; 0.5;
             0.5; 0.5; 0.5; 0.5; 0.5; 0.5; 0.5; 0.5; 0.5; 0.5; 0.5; 0.5;
             0.5]%float;
  ints := [1; 2; 2; 1; 2]
|}.

Definition kitchen_row : Row := {|
  Row_ID := 7;
  As_Of_Date := "2025-09-07";
  Material_Price_Index := 1;
  City := "Mumbai";
  City_Tier := "Metro";
  City_Multiplier := 1.3;
  Labor_Day_Rate_Min := PyInt 800;
  Labor_Day_Rate_Max := PyInt 950;
  Room_Type := "Kitchen";
  Area_Sqft := 190;
  Renovation_Level := "Luxury";
  Paint_Quality := "Standard";
  Floor_Type := "Vitrified_Tile";
  Floor_Quality := "Standard";
  Ceiling_Type := "Gypsum";
  Ceiling_Quality := "Standard";
  Has_Electrical := true;
  Furniture_Level := "None";
  Kitchen_Package := "Luxury_Island";
  Bathroom_Package := "None";
  Painting_Material_Cost := 6546;
  Painting_Labor_Cost := 875;
  Flooring_Material_Cost := 35815;
  Flooring_Labor_Cost := 1330;
  Ceiling_Material_Cost := 38675;
  Ceiling_Labor_Cost := 1021;
  Electrical_Material_Cost := 28405;
  Electrical_Labor_Cost := 875;
  Kitchen_Package_Cost := 1105000;
  Bathroom_Package_Cost := 0;
  Plumbing_Cost := 55250;
  Furniture_Cost := 0;
  Wastage_Sundries_Cost := 95227;
  Contractor_Overhead_Cost := 382137;
  GST_Amount := 315208;
  Grand_Total := 2066364;
  Total_Cost_per_Sqft := 10875.6
|}.

Lemma kitchen_run :
  generate_row (P := replay kitchen_script) default_config 7 kitchen_script
    = Ok (kitchen_row, spent).
Proof. vm_compute. reflexivity. Qed.

(* ================================================================== *)
(** ** The selections of a row *)

Section RowSelections.
Context {P : PRNG}.
Variable cfg : Config.

(** X6: the names in a row come from their tables: the city, the room
    type, the renovation level (which is also one of the three levels the
    electrical probabilities are written for), the paint and floor
    qualities, the floor type and the furniture level. *)
Theorem names_come_from_their_tables idx (g g' : gen P) row :
  generate_row cfg idx g = Ok (row, g') ->
  In (City row) (city_names cfg) /\
  In (Room_Type row) (room_types cfg) /\
  In (Renovation_Level row) (keys (renovation_levels cfg)) /\
  In (Renovation_Level row) ["Basic"; "Mid"; "Luxury"] /\
  In (Paint_Quality row) (keys (quality_tiers cfg)) /\
  In (Floor_Quality row) (keys (quality_tiers cfg)) /\
  In (Floor_Type row) (keys (flooring_catalog cfg)) /\
  In (Furniture_Level row) ["None"; "Basic"; "Standard"; "Premium"].
Proof.
  intros H. destruct (generate_row_locals _ _ _ _ _ H) as (l & Hb & Hr).
  destruct (build_row_copied _ _ _ _ Hr)
    as (_ & -> & _ & _ & _ & -> & _ & _ & _ & -> & _).
  destruct (build_row_selections _ _ _ _ Hr) as (-> & -> & -> & -> & _).
  exact (body_domains _ _ _ _ Hb).
Qed.

(** X7: a kitchen or a bathroom gets a ceramic tile, vitrified tile or
    granite floor. *)
Theorem wet_rooms_get_tile_or_stone idx (g g' : gen P) row :
  generate_row cfg idx g = Ok (row, g') ->
  Room_Type row = "Kitchen" \/ Room_Type row = "Bathroom" ->
  In (Floor_Type row) ["Ceramic_Tile"; "Vitrified_Tile"; "Granite"].
Proof.
  intros H. destruct (generate_row_locals _ _ _ _ _ H) as (l & Hb & Hr).
  destruct (build_row_copied _ _ _ _ Hr)
    as (_ & _ & _ & _ & _ & -> & _).
  destruct (build_row_selections _ _ _ _ Hr) as (_ & _ & -> & _).
  exact (body_wet_floor _ _ _ _ Hb).
Qed.

(** X8: a kitchen or a bathroom gets no furniture, and a row without a
    furniture level has a furniture cost of 0. *)
Theorem no_furniture_in_wet_rooms idx (g g' : gen P) row :
  generate_row cfg idx g = Ok (row, g') ->
  (Room_Type row = "Kitchen" \/ Room_Type row = "Bathroom" ->
   Furniture_Level row = "None") /\
  (Furniture_Level row = "None" -> Furniture_Cost row = 0) /\
  (Furniture_Level row <> "None" ->
   In (Furniture_Level row) (keys (furniture_room cfg))).
Proof.
  intros H. destruct (generate_row_locals _ _ _ _ _ H) as (l & Hb & Hr).
  pose proof (build_row_rounded _ _ _ _ Hr) as Hc.
  destruct (build_row_copied _ _ _ _ Hr)
    as (_ & _ & _ & _ & _ & -> & _ & _ & _ & -> & _).
  destruct Hc as (_ & _ & _ & _ & _ & _ & _ & _ & _ & _ & _ & Hf & _).
  destruct (body_furniture _ _ _ _ Hb) as (H1 & H2 & H3).
  split; [exact H1|]. split; [|exact H3].
  intros Hn. rewrite (H2 Hn) in Hf. now apply py_round_zero.
Qed.

(** X9: outside kitchens and bathrooms the plumbing cost is 0. *)
Theorem plumbing_only_in_wet_rooms idx (g g' : gen P) row :
  generate_row cfg idx g = Ok (row, g') ->
  Room_Type row <> "Kitchen" -> Room_Type row <> "Bathroom" ->
  Plumbing_Cost row = 0.
Proof.
  intros H. destruct (generate_row_locals _ _ _ _ _ H) as (l & Hb & Hr).
  pose proof (build_row_rounded _ _ _ _ Hr) as Hc.
  destruct (build_row_copied _ _ _ _ Hr)
    as (_ & _ & _ & _ & _ & -> & _).
  destruct Hc as (_ & _ & _ & _ & _ & _ & _ & _ & _ & _ & Hp & _).
  intros Hk Hbt. rewrite (body_plumbing _ _ _ _ Hb Hk Hbt) in Hp.
  now apply py_round_zero.
Qed.

(** X10: a row without rewiring has no electrical cost, material or
    labor. *)
Theorem no_rewiring_no_electrical_cost idx (g g' : gen P) row :
  generate_row cfg idx g = Ok (row, g') ->
  Has_Electrical row = false ->
  Electrical_Material_Cost row = 0 /\ Electrical_Labor_Cost row = 0.
Proof.
  intros H. destruct (generate_row_locals _ _ _ _ _ H) as (l & Hb & Hr).
  pose proof (build_row_rounded _ _ _ _ Hr) as Hc.
  destruct (build_row_selections _ _ _ _ Hr) as (_ & _ & _ & _ & ->).
  destruct Hc as (_ & _ & _ & _ & _ & _ & Hm & Hl & _).
  intros He. destruct (body_electrical _ _ _ _ Hb He) as [Em El].
  split.
  - exact (float_mul_int_zero_round _ _ _ Em Hm).
  - rewrite El in Hl. now apply py_round_zero.
Qed.

(** X11: the false ceiling of a row is all or nothing: either the type and
    the quality are ["None"] and both ceiling costs are 0, or the room is
    not a bathroom, the type is a key of [ceiling_catalog] and the quality
    a key of [quality_tiers]. *)
Theorem ceiling_is_all_or_nothing idx (g g' : gen P) row :
  generate_row cfg idx g = Ok (row, g') ->
  (Ceiling_Type row = "None" /\ Ceiling_Quality row = "None" /\
   Ceiling_Material_Cost row = 0 /\ Ceiling_Labor_Cost row = 0) \/
  (Room_Type row <> "Bathroom" /\
   In (Ceiling_Type row) (keys (ceiling_catalog cfg)) /\
   In (Ceiling_Quality row) (keys (quality_tiers cfg))).
Proof.
  intros H. destruct (generate_row_locals _ _ _ _ _ H) as (l & Hb & Hr).
  pose proof (build_row_rounded _ _ _ _ Hr) as Hc.
  destruct (build_row_copied _ _ _ _ Hr)
    as (_ & _ & _ & _ & _ & -> & _ & -> & -> & _).
  destruct Hc as (_ & _ & _ & _ & Hcm & Hcl & _).
  destruct (body_ceiling _ _ _ _ Hb)
    as [(-> & -> & Em & El)|(-> & Hroom & Ht & Hq)]; [left|right].
  - rewrite Em in Hcm. rewrite El in Hcl.
    repeat split; try reflexivity; now apply py_round_zero.
  - auto.
Qed.

(** X12: the package of a kitchen is a key of [kitchen_packages] chosen by
    the renovation level: ["Basic_L"] at the basic level, one of the two
    lower packages at the mid level, one of the three upper packages at
    the luxury level. *)
Theorem kitchen_package_follows_level idx (g g' : gen P) row :
  generate_row cfg idx g = Ok (row, g') ->
  Room_Type row = "Kitchen" ->
  In (Kitchen_Package row) (keys (kitchen_packages cfg)) /\
  (Renovation_Level row = "Basic" -> Kitchen_Package row = "Basic_L") /\
  (Renovation_Level row = "Mid" ->
   In (Kitchen_Package row) ["Basic_L"; "Standard_L"]) /\
  (Renovation_Level row = "Luxury" ->
   In (Kitchen_Package row) ["Standard_L"; "Premium_U"; "Luxury_Island"]).
Proof.
  intros H. destruct (generate_row_locals _ _ _ _ _ H) as (l & Hb & Hr).
  destruct (build_row_copied _ _ _ _ Hr)
    as (_ & _ & _ & _ & _ & -> & _ & _ & _ & _ & -> & _).
  destruct (build_row_selections _ _ _ _ Hr) as (-> & _).
  exact (body_kitchen_level _ _ _ _ Hb).
Qed.

(** X13: the package of a bathroom is a key of [bathroom_packages] chosen
    by the renovation level: ["Basic"] at the basic level, ["Basic"] or
    ["Standard"] at the mid level, ["Standard"] or ["Premium"] at the
    luxury level. *)
Theorem bathroom_package_follows_level idx (g g' : gen P) row :
  generate_row cfg idx g = Ok (row, g') ->
  Room_Type row = "Bathroom" ->
  In (Bathroom_Package row) (keys (bathroom_packages cfg)) /\
  (Renovation_Level row = "Basic" -> Bathroom_Package row = "Basic") /\
  (Renovation_Level row = "Mid" ->
   In (Bathroom_Package row) ["Basic"; "Standard"]) /\
  (Renovation_Level row = "Luxury" ->
   In (Bathroom_Package row) ["Standard"; "Premium"]).
Proof.
  intros H. destruct (generate_row_locals _ _ _ _ _ H) as (l & Hb & Hr).
  destruct (build_row_copied _ _ _ _ Hr)
    as (_ & _ & _ & _ & _ & -> & _ & _ & _ & _ & _ & -> & _).
  destruct (build_row_selections _ _ _ _ Hr) as (-> & _).
  exact (body_bathroom_level _ _ _ _ Hb).
Qed.
End RowSelections.

Lemma names_come_from_their_tables_witness :
  In (City kitchen_row) (city_names default_config) /\
  In (Room_Type kitchen_row) (room_types default_config) /\
  In (Renovation_Level kitchen_row) (keys (renovation_levels default_config)) /\
  In (Renovation_Level kitchen_row) ["Basic"; "Mid"; "Luxury"] /\
  In (Paint_Quality kitchen_row) (keys (quality_tiers default_config)) /\
  In (Floor_Quality kitchen_row) (keys (quality_tiers default_config)) /\
  In (Floor_Type kitchen_row) (keys (flooring_catalog default_config)) /\
  In (Furniture_Level kitchen_row) ["None"; "Basic"; "Standard"; "Premium"].
Proof.
  apply (names_come_from_their_tables (P := replay kitchen_script)
           default_config 7 kitchen_script spent kitchen_row).
  vm_compute. reflexivity.
Defined.

Lemma wet_rooms_get_tile_or_stone_witness :
  In (Floor_Type bathroom_row) ["Ceramic_Tile"; "Vitrified_Tile"; "Granite"].
Proof.
  apply (wet_rooms_get_tile_or_stone (P := replay bathroom_script)
           default_config 1 bathroom_script spent bathroom_row).
  - vm_compute. reflexivity.
  - right. reflexivity.
Defined.

Lemma no_furniture_in_wet_rooms_witness :
  (Room_Type bathroom_row = "Kitchen" \/ Room_Type bathroom_row = "Bathroom" ->
   Furniture_Level bathroom_row = "None") /\
  (Furniture_Level bathroom_row = "None" -> Furniture_Cost bathroom_row = 0) /\
  (Furniture_Level bathroom_row <> "None" ->
   In (Furniture_Level bathroom_row) (keys (furniture_room default_config))).
Proof.
  apply (no_furniture_in_wet_rooms (P := replay bathroom_script)
           default_config 1 bathroom_script spent bathroom_row).
  vm_compute. reflexivity.
Defined.

Lemma plumbing_only_in_wet_rooms_witness : Plumbing_Cost sample_row = 0.
Proof.
  apply (plumbing_only_in_wet_rooms (P := replay sample_script)
           default_config 1 sample_script spent sample_row).
  - vm_compute. reflexivity.
  - discriminate.
  - discriminate.
Defined.

Lemma no_rewiring_no_electrical_cost_witness :
  Electrical_Material_Cost sample_row = 0 /\
  Electrical_Labor_Cost sample_row = 0.
Proof.
  apply (no_rewiring_no_electrical_cost (P := replay sample_script)
           default_config 1 sample_script spent sample_row).
  - vm_compute. reflexivity.
  - reflexivity.
Defined.

Lemma ceiling_is_all_or_nothing_witness :
  (Ceiling_Type kitchen_row = "None" /\ Ceiling_Quality kitchen_row = "None" /\
   Ceiling_Material_Cost kitchen_row = 0 /\
   Ceiling_Labor_Cost kitchen_row = 0) \/
  (Room_Type kitchen_row <> "Bathroom" /\
   In (Ceiling_Type kitchen_row) (keys (ceiling_catalog default_config)) /\
   In (Ceiling_Quality kitchen_row) (keys (quality_tiers default_config))).
Proof.
  apply (ceiling_is_all_or_nothing (P := replay kitchen_script)
           default_config 7 kitchen_script spent kitchen_row).
  vm_compute. reflexivity.
Defined.

Lemma kitchen_package_follows_level_witness :
  In (Kitchen_Package kitchen_row) (keys (kitchen_packages default_config)) /\
  (Renovation_Level kitchen_row = "Basic" ->
   Kitchen_Package kitchen_row = "Basic_L") /\
  (Renovation_Level kitchen_row = "Mid" ->
   In (Kitchen_Package kitchen_row) ["Basic_L"; "Standard_L"]) /\
  (Renovation_Level kitchen_row = "Luxury" ->
   In (Kitchen_Package kitchen_row)
     ["Standard_L"; "Premium_U"; "Luxury_Island"]).
Proof.
  apply (kitchen_package_follows_level (P := replay kitchen_script)
           default_config 7 kitchen_script spent kitchen_row).
  - vm_compute. reflexivity.
  - reflexivity.
Defined.

Lemma bathroom_package_follows_level_witness :
  In (Bathroom_Package bathroom_row)
    (keys (bathroom_packages default_config)) /\
  (Renovation_Level bathroom_row = "Basic" ->
   Bathroom_Package bathroom_row = "Basic") /\
  (Renovation_Level bathroom_row = "Mid" ->
   In (Bathroom_Package bathroom_row) ["Basic"; "Standard"]) /\
  (Renovation_Level bathroom_row = "Luxury" ->
   In (Bathroom_Package bathroom_row) ["Standard"; "Premium"]).
Proof.
  apply (bathroom_package_follows_level (P := replay bathroom_script)
           default_config 1 bathroom_script spent bathroom_row).
  - vm_compute. reflexivity.
  - reflexivity.
Defined.

(* ================================================================== *)
(** ** Rounding to nearest from any location *)

Lemma shr_1_m mrs : 0 <= shr_m mrs -> shr_m (shr_1 mrs) = shr_m mrs / 2.
Proof.
  intros H. destruct (shr_1_spec mrs H) as (H1 & H2 & _).
  destruct (shr_r (shr_1 mrs)).
  - apply Z.div_unique with 1; lia.
  - apply Z.div_unique with 0; lia.
Qed.

Lemma div_div_pow2 m a b :
  0 <= a -> 0 <= b -> m / 2 ^ a / 2 ^ b = m / 2 ^ (a + b).
Proof.
  intros Ha Hb. rewrite Z.pow_add_r by lia.
  apply Z.div_div; [apply Z.pow_nonzero; lia|apply Z.pow_pos_nonneg; lia].
Qed.

Lemma iter_shr_1_m p :
  forall mrs, 0 <= shr_m mrs ->
    0 <= shr_m (iter_pos shr_1 p mrs) /\
    shr_m (iter_pos shr_1 p mrs) = shr_m mrs / 2 ^ Zpos p.
Proof.
  induction p as [p IH|p IH|]; intros mrs H; simpl iter_pos.
  - pose proof (shr_1_nonneg mrs H) as H1.
    destruct (IH _ H1) as [H2 E2]. destruct (IH _ H2) as [H3 E3].
    split; [exact H3|]. rewrite E3, E2, shr_1_m by assumption.
    change 2 with (2 ^ 1) at 1. rewrite !div_div_pow2 by lia.
    f_equal. f_equal. lia.
  - destruct (IH _ H) as [H2 E2]. destruct (IH _ H2) as [H3 E3].
    split; [exact H3|]. rewrite E3, E2, div_div_pow2 by lia.
    f_equal. f_equal. lia.
  - split; [now apply shr_1_nonneg|]. now rewrite shr_1_m.
Qed.

(** A call of [shr_fexp] divides the mantissa by [2^n] for the number [n]
    of bits the format drops, and by nothing when [n <= 0]. *)
Lemma shr_fexp_m m e l :
  0 <= m ->
  let n := fexp prec emax (Zdigits2 m + e) - e in
  shr_m (fst (shr_fexp prec emax m e l)) = m / 2 ^ Z.max n 0 /\
  snd (shr_fexp prec emax m e l) = e + Z.max n 0.
Proof.
  intros Hm n. unfold shr_fexp. fold n. unfold shr.
  destruct n as [|p|p] eqn:En.
  - simpl. rewrite shr_record_of_loc_m, Z.div_1_r. split; [reflexivity|lia].
  - cbn [fst snd]. replace (Z.max (Zpos p) 0) with (Zpos p) by lia.
    destruct (iter_shr_1_m p (shr_record_of_loc m l)) as [_ E].
    { now rewrite shr_record_of_loc_m. }
    rewrite E, shr_record_of_loc_m. split; reflexivity.
  - cbn [fst snd]. replace (Z.max (Zneg p) 0) with 0 by lia.
    simpl. rewrite shr_record_of_loc_m, Z.div_1_r. split; [reflexivity|lia].
Qed.

Lemma round_nearest_even_any m l :
  round_nearest_even m l = m \/ round_nearest_even m l = m + 1.
Proof.
  unfold round_nearest_even. destruct l as [|[]]; auto.
  destruct (Z.even m); auto.
Qed.

(** The mantissas and exponents [binary_round_aux] goes through from the
    mantissa [mx >= 0] at exponent [ex], whatever the location. *)
Definition round_steps (mx ex m1 m2 m3 e3 : Z) : Prop :=
  let n := fexp prec emax (Zdigits2 mx + ex) - ex in
  let e1 := ex + Z.max n 0 in
  let n2 := fexp prec emax (Zdigits2 m2 + e1) - e1 in
  m1 = mx / 2 ^ Z.max n 0 /\
  (m2 = m1 \/ m2 = m1 + 1) /\
  m3 = m2 / 2 ^ Z.max n2 0 /\
  e3 = e1 + Z.max n2 0.

Definition rounded (sx : bool) (m3 e3 : Z) : spec_float :=
  match m3 with
  | Z0 => S754_zero sx
  | Zpos m =>
      if e3 <=? emax - prec then S754_finite sx m e3 else S754_infinity sx
  | Zneg _ => S754_nan
  end.

Lemma binary_round_aux_steps sx mx ex lx :
  0 <= mx ->
  exists m1 m2 m3 e3,
    round_steps mx ex m1 m2 m3 e3 /\
    binary_round_aux prec emax sx mx ex lx = rounded sx m3 e3.
Proof.
  intros Hm. unfold binary_round_aux, round_steps.
  destruct (shr_fexp_m mx ex lx Hm) as [E1 E1'].
  destruct (shr_fexp prec emax mx ex lx) as [mrs e1]. cbn [fst snd] in *.
  set (n := fexp prec emax (Zdigits2 mx + ex) - ex) in *.
  set (m1 := shr_m mrs) in *.
  assert (Hm1 : 0 <= m1).
  { rewrite E1. apply Z.div_pos; [lia|]. apply Z.pow_pos_nonneg; lia. }
  set (m2 := round_nearest_even m1 (loc_of_shr_record mrs)).
  assert (Hm2 : m2 = m1 \/ m2 = m1 + 1) by apply round_nearest_even_any.
  destruct (shr_fexp_m m2 e1 loc_Exact ltac:(lia)) as [E2 E2'].
  destruct (shr_fexp prec emax m2 e1 loc_Exact) as [mrs2 e3].
  cbn [fst snd] in *. subst e1.
  exists m1, m2, (shr_m mrs2), e3. split; [|reflexivity].
  repeat split; assumption.
Qed.

Lemma round_steps_nonneg mx ex m1 m2 m3 e3 :
  0 <= mx -> round_steps mx ex m1 m2 m3 e3 ->
  0 <= m1 /\ 0 <= m2 /\ 0 <= m3.
Proof.
  unfold round_steps. intros Hm (E1 & E2 & E3 & _).
  assert (Hm1 : 0 <= m1).
  { rewrite E1. apply Z.div_pos; [lia|]. apply Z.pow_pos_nonneg; lia. }
  split; [exact Hm1|]. split; [lia|].
  rewrite E3. apply Z.div_pos; [lia|]. apply Z.pow_pos_nonneg; lia.
Qed.

(* ------------------------------------------------------------------ *)
(** *** Numbers of digits *)

Lemma Zdigits2_unique m k :
  0 < k -> 2 ^ (k - 1) <= m < 2 ^ k -> Zdigits2 m = k.
Proof.
  intros Hk [Hlo Hhi].
  assert (Hm : 0 < m).
  { assert (0 < 2 ^ (k - 1)) by (apply Z.pow_pos_nonneg; lia). lia. }
  pose proof (Zdigits2_bounds m Hm) as [Hlo' Hhi'].
  assert (Hd : 0 < Zdigits2 m) by (destruct m; simpl; lia).
  destruct (Z.lt_trichotomy (Zdigits2 m) k) as [H|[H|H]]; [|exact H|].
  - exfalso.
    assert (2 ^ Zdigits2 m <= 2 ^ (k - 1)) by (apply Z.pow_le_mono_r; lia).
    lia.
  - exfalso.
    assert (2 ^ k <= 2 ^ (Zdigits2 m - 1)) by (apply Z.pow_le_mono_r; lia).
    lia.
Qed.

Lemma Zdigits2_pos m : 0 < m -> 0 < Zdigits2 m.
Proof. destruct m; simpl; lia. Qed.

Lemma Zdigits2_div_pow2 m n :
  0 <= n -> 0 < m / 2 ^ n -> Zdigits2 (m / 2 ^ n) = Zdigits2 m - n.
Proof.
  intros Hn Hq.
  assert (Hp : 0 < 2 ^ n) by (apply Z.pow_pos_nonneg; lia).
  assert (Hm : 0 < m).
  { destruct (Z.lt_ge_cases 0 m) as [|Hle]; [assumption|].
    assert (m / 2 ^ n <= 0) by (apply Z.div_le_upper_bound; lia). lia. }
  pose proof (Zdigits2_bounds m Hm) as [Hlo Hhi].
  pose proof (Zdigits2_pos m Hm) as Hd.
  set (d := Zdigits2 m) in *.
  assert (Hnd : n < d).
  { destruct (Z.lt_ge_cases n d) as [|Hge]; [assumption|]. exfalso.
    assert (2 ^ d <= 2 ^ n) by (apply Z.pow_le_mono_r; lia).
    rewrite Z.div_small in Hq by lia. lia. }
  apply Zdigits2_unique; [lia|]. split.
  - replace (d - n - 1) with (d - 1 - n) by lia.
    apply div_pow2_lower; [lia|exact Hlo].
  - apply Z.div_lt_upper_bound; [exact Hp|].
    rewrite <- Z.pow_add_r by lia. replace (n + (d - n)) with d by lia.
    exact Hhi.
Qed.

Lemma Zdigits2_succ m :
  0 < m ->
  Zdigits2 (m + 1) = Zdigits2 m \/
  (Zdigits2 (m + 1) = Zdigits2 m + 1 /\ m + 1 = 2 ^ Zdigits2 m).
Proof.
  intros Hm. pose proof (Zdigits2_bounds m Hm) as [Hlo Hhi].
  pose proof (Zdigits2_pos m Hm) as Hd. set (d := Zdigits2 m) in *.
  destruct (Z.eq_dec (m + 1) (2 ^ d)) as [E|Hne].
  - right. split; [|exact E]. apply Zdigits2_unique; [lia|].
    replace (d + 1 - 1) with d by lia. rewrite E. split; [lia|].
    apply Z.pow_lt_mono_r; lia.
  - left. apply Zdigits2_unique; [lia|]. lia.
Qed.

Lemma Zdigits2_pow2 k : 0 <= k -> Zdigits2 (2 ^ k) = k + 1.
Proof.
  intros Hk. apply Zdigits2_unique; [lia|].
  replace (k + 1 - 1) with k by lia. split; [lia|].
  apply Z.pow_lt_mono_r; lia.
Qed.

(* ------------------------------------------------------------------ *)
(** *** The result is a binary64 number *)

Lemma canonical_Z (p : positive) (e : Z) :
  fexp prec emax (Zdigits2 (Zpos p) + e) = e ->
  canonical_mantissa prec emax p e = true.
Proof.
  intros H. unfold canonical_mantissa. apply Z.eqb_eq. exact H.
Qed.

(** When the exponent [ex] is not above the exponent of the format for
    [mx * 2^ex], the mantissa and exponent that come out are canonical. *)
Lemma round_steps_canonical mx ex m1 m2 m3 e3 :
  0 <= mx ->
  0 <= fexp prec emax (Zdigits2 mx + ex) - ex ->
  round_steps mx ex m1 m2 m3 e3 ->
  0 < m3 -> fexp prec emax (Zdigits2 m3 + e3) = e3.
Proof.
  intros Hm Hn Ht Hm3.
  pose proof (round_steps_nonneg _ _ _ _ _ _ Hm Ht) as (Hm1 & Hm2 & _).
  unfold round_steps in Ht. cbv zeta in Ht.
  set (n := fexp prec emax (Zdigits2 mx + ex) - ex) in *.
  replace (Z.max n 0) with n in Ht by lia.
  set (e1 := ex + n) in *.
  destruct Ht as (E1 & E2 & E3 & E4).
  assert (He1 : e1 = fexp prec emax (Zdigits2 mx + ex)) by (subst e1 n; lia).
  rewrite !fexp64 in *.
  assert (Hp : 0 < 2 ^ n) by (apply Z.pow_pos_nonneg; lia).
  (* the state after the first shift: a canonical pair, or nothing left *)
  assert (Hfirst : (0 < m1 /\ Z.max (Zdigits2 m1 + e1 - 53) (-1074) = e1) \/
                   (m1 = 0 /\ e1 = -1074)).
  { destruct (Z.eq_dec m1 0) as [Hz|Hnz]; [right|left].
    - split; [exact Hz|].
      destruct (Z.eq_dec mx 0) as [->|Hx].
      + rewrite Zdigits2_zero in *. lia.
      + pose proof (Zdigits2_bounds mx ltac:(lia)) as [Hlo _].
        pose proof (Zdigits2_pos mx ltac:(lia)) as Hd.
        assert (Hlt : mx < 2 ^ n).
        { destruct (Z.lt_ge_cases mx (2 ^ n)) as [|Hge]; [assumption|].
          assert (1 <= mx / 2 ^ n)
            by (apply Z.div_le_lower_bound; lia). lia. }
        assert (Zdigits2 mx - 1 < n).
        { apply (Z.pow_lt_mono_r_iff 2); lia. }
        lia.
    - split; [lia|].
      rewrite E1, Zdigits2_div_pow2 by lia.
      replace (Zdigits2 mx - n + e1) with (Zdigits2 mx + ex) by (subst e1; lia).
      lia. }
  (* the rounded mantissa and the second shift *)
  assert (Hm2pos : 0 < m2).
  { destruct (Z.eq_dec m2 0) as [Hz|]; [|lia].
    rewrite Hz in E3. rewrite Z.div_0_l in E3; [lia|].
    apply Z.pow_nonzero; lia. }
  set (d2 := Zdigits2 m2) in *.
  set (n2 := Z.max (d2 + e1 - 53) (-1074) - e1) in *.
  assert (Hsecond : n2 = 0 \/ (n2 = 1 /\ m2 = 2 ^ (d2 - 1) /\ 2 <= d2)).
  { destruct Hfirst as [[Hpos Hc]|[Hz He]].
    - destruct E2 as [E2|E2].
      + left. subst n2 d2. rewrite E2. lia.
      + destruct (Zdigits2_succ m1 Hpos) as [Hs|[Hs Hpow]].
        * left. subst n2 d2. rewrite E2, Hs. lia.
        * pose proof (Zdigits2_pos m1 Hpos) as Hd1.
          assert (Hd2 : d2 = Zdigits2 m1 + 1) by (subst d2; now rewrite E2).
          destruct (Z.eq_dec (Zdigits2 m1) 53) as [H53|H53].
          -- right. split; [subst n2; lia|]. split; [|lia].
             rewrite Hd2, E2, Hpow. f_equal. lia.
          -- left. subst n2. lia.
    - left. assert (m2 = 1) by lia. subst n2 d2.
      replace m2 with 1 by lia. change (Zdigits2 1) with 1. lia. }
  destruct Hsecond as [H0|(H1 & Hpow & Hd2)].
  - rewrite H0 in E3, E4. simpl in E3, E4. rewrite Z.div_1_r in E3.
    subst m3 e3. fold d2. subst n2. lia.
  - rewrite H1 in E3, E4. simpl Z.max in E3, E4.
    assert (Em3 : m3 = 2 ^ (d2 - 2)).
    { rewrite E3, Hpow. change (2 ^ 1) with 2.
      replace (d2 - 1) with (1 + (d2 - 2)) by lia.
      rewrite Z.pow_add_r by lia.
      change (2 ^ 1) with 2. rewrite Z.mul_comm, Z.div_mul by lia.
      reflexivity. }
    rewrite Em3, Zdigits2_pow2 by lia. subst e3 n2. lia.
Qed.

Lemma rounded_valid sx m3 e3 :
  (0 < m3 -> fexp prec emax (Zdigits2 m3 + e3) = e3) ->
  0 <= m3 ->
  valid_binary (rounded sx m3 e3) = true.
Proof.
  intros Hc Hm. unfold rounded. destruct m3 as [|p|p]; try lia.
  - reflexivity.
  - destruct (e3 <=? emax - prec) eqn:E; [|reflexivity].
    simpl. unfold bounded. rewrite E, andb_true_r.
    apply canonical_Z. apply Hc. lia.
Qed.

(** [binary_round_aux] returns a binary64 number. *)
Lemma binary_round_aux_valid sx mx ex lx :
  0 <= mx ->
  0 <= fexp prec emax (Zdigits2 mx + ex) - ex ->
  valid_binary (binary_round_aux prec emax sx mx ex lx) = true.
Proof.
  intros Hm Hn.
  destruct (binary_round_aux_steps sx mx ex lx Hm)
    as (m1 & m2 & m3 & e3 & Ht & ->).
  apply rounded_valid.
  - now apply (round_steps_canonical mx ex m1 m2).
  - now apply (round_steps_nonneg mx ex m1 m2 m3 e3).
Qed.

(* ================================================================== *)
(** ** Magnitudes of binary64 results *)

Lemma mul_aligned (mx my : positive) (ex ey : Z) :
  canonical_mantissa prec emax mx ex = true ->
  canonical_mantissa prec emax my ey = true ->
  0 <= fexp prec emax (Zdigits2 (Zpos (mx * my)) + (ex + ey)) - (ex + ey).
Proof.
  intros Hx Hy. apply canonical_bounds in Hx, Hy.
  destruct Hx as (Hx53 & Hxmin & Hxn), Hy as (Hy53 & Hymin & Hyn).
  rewrite fexp64.
  destruct (Z.le_gt_cases (ex + ey) (-1074)) as [Hle|Hgt]; [lia|].
  assert (H52 : 2 ^ 52 <= Zpos (mx * my)).
  { rewrite Pos2Z.inj_mul.
    destruct (Z.eq_dec ex (-1074)) as [Ex|Ex].
    - specialize (Hyn ltac:(lia)). nia.
    - specialize (Hxn ltac:(lia)). nia. }
  pose proof (Zdigits2_ge _ 52 H52 ltac:(lia)). lia.
Qed.

(** The quotient and exponent [SFdiv] rounds. *)
Lemma SFdiv_core_spec (m1 m2 : positive) (e1 e2 : Z) :
  let '(q, e', _) := SFdiv_core_binary prec emax (Zpos m1) e1 (Zpos m2) e2 in
  0 <= q /\
  0 <= fexp prec emax (Zdigits2 q + e') - e' /\
  exists s, 0 <= s /\ e1 - e2 = e' + s /\ q * Zpos m2 <= Zpos m1 * 2 ^ s.
Proof.
  unfold SFdiv_core_binary.
  set (d1 := Zdigits2 (Zpos m1)). set (d2 := Zdigits2 (Zpos m2)).
  set (D := d1 + e1 - (d2 + e2)).
  set (e' := Z.min (fexp prec emax D) (e1 - e2)).
  set (s := e1 - e2 - e').
  assert (Hs : 0 <= s) by (subst s e'; lia).
  set (m' := match s with Z0 => _ | Zpos _ => _ | Zneg _ => _ end).
  assert (Em : m' = Zpos m1 * 2 ^ s).
  { subst m'. clearbody s. destruct s as [|p|p]; try lia.
    now rewrite Z.shiftl_mul_pow2 by lia. }
  assert (Hp : 0 < 2 ^ s) by (apply Z.pow_pos_nonneg; lia).
  pose proof (Z.div_mod m' (Zpos m2) ltac:(lia)) as Edm.
  pose proof (Z.mod_pos_bound m' (Zpos m2) ltac:(lia)) as Hr.
  assert (Hq : 0 <= m' / Zpos m2) by (apply Z.div_pos; nia).
  unfold Z.div, Z.modulo in Edm, Hr, Hq.
  destruct (Z.div_eucl m' (Zpos m2)) as [q r]. cbn [fst snd] in *.
  split; [exact Hq|].
  pose proof (Zdigits2_bounds (Zpos m1) ltac:(lia)) as [H1lo H1hi].
  pose proof (Zdigits2_bounds (Zpos m2) ltac:(lia)) as [H2lo H2hi].
  pose proof (Zdigits2_pos (Zpos m1) ltac:(lia)) as Hd1.
  pose proof (Zdigits2_pos (Zpos m2) ltac:(lia)) as Hd2.
  fold d1 in H1lo, H1hi, Hd1. fold d2 in H2lo, H2hi, Hd2.
  assert (Hm'lo : 2 ^ (d1 - 1 + s) <= m').
  { rewrite Em, Z.pow_add_r by lia. nia. }
  split.
  - destruct (Z.eq_dec q 0) as [->|Hq0].
    + (* nothing left of the quotient: the exponent is the smallest *)
      rewrite Zdigits2_zero.
      assert (Hlt : m' < Zpos m2) by lia.
      assert (Hds : d1 - 1 + s < d2).
      { apply (Z.pow_lt_mono_r_iff 2); lia. }
      subst e' s D. rewrite !fexp64 in *. lia.
    + pose proof (Zdigits2_bounds q ltac:(lia)) as [Hqlo Hqhi].
      pose proof (Zdigits2_pos q ltac:(lia)) as Hdq.
      set (dq := Zdigits2 q) in *.
      assert (Hdq' : d1 + s - d2 <= dq).
      { destruct (Z.le_gt_cases (d1 + s - d2) dq) as [|Hgt]; [assumption|].
        exfalso.
        assert (Hq1 : q + 1 <= 2 ^ (d1 + s - d2 - 1)).
        { assert (2 ^ dq <= 2 ^ (d1 + s - d2 - 1))
            by (apply Z.pow_le_mono_r; lia). lia. }
        assert (Hprod : (q + 1) * Zpos m2 < 2 ^ (d1 + s - d2 - 1) * 2 ^ d2).
        { assert (0 < 2 ^ (d1 + s - d2 - 1))
            by (apply Z.pow_pos_nonneg; lia). nia. }
        rewrite <- Z.pow_add_r in Hprod by lia.
        replace (d1 + s - d2 - 1 + d2) with (d1 - 1 + s) in Hprod by lia.
        nia. }
      subst e' s D. rewrite !fexp64 in *. lia.
  - exists s. split; [exact Hs|]. split; [subst s; lia|].
    rewrite <- Em. nia.
Qed.

Section Magnitudes.
Local Open Scope R_scope.

Lemma B2R_le_inv m1 m2 e : B2R m1 e <= B2R m2 e -> (m1 <= m2)%Z.
Proof.
intros H. destruct (Z.le_gt_cases m1 m2) as [|Hgt]; [assumption|].
apply (B2R_lt m2 m1 e) in Hgt. lra.
Qed.

Lemma B2R_nonneg m e : (0 <= m)%Z -> 0 <= B2R m e.
Proof.
intros H. unfold B2R. apply IZR_le in H. pose proof (pow2_pos e). nra.
Qed.

Lemma B2R_1 e : B2R 1 e = powerRZ 2 e.
Proof. unfold B2R. lra. Qed.

(** The power [2^k] as a binary64 number. *)
Lemma B2R_pow2 k : B2R 4503599627370496 (k - 52) = powerRZ 2 k.
Proof.
unfold B2R. change 4503599627370496%Z with (2 ^ 52)%Z.
rewrite <- pow2_IZR, <- pow2_add by lia. f_equal. lia.
Qed.

Lemma canonical_pow2 k :
(-1022 <= k)%Z -> canonical_mantissa prec emax 4503599627370496 (k - 52) = true.
Proof.
intros Hk. unfold canonical_mantissa.
change (Zpos (digits2_pos 4503599627370496)) with 53%Z.
rewrite fexp64. apply Z.eqb_eq. lia.
Qed.

(** [SF_le k x]: [x] is a zero or a positive number that is at most
  [2^k]; [SF_in j k x]: [x] is a positive number between [2^j] and
  [2^k]. *)
Definition SF_le (k : Z) (x : spec_float) : Prop :=
match x with
| S754_zero _ => True
| S754_finite false m e => B2R (Zpos m) e <= powerRZ 2 k
| _ => False
end.

Definition SF_in (j k : Z) (x : spec_float) : Prop :=
match x with
| S754_finite false m e => powerRZ 2 j <= B2R (Zpos m) e <= powerRZ 2 k
| _ => False
end.

Lemma SF_in_le j k x : SF_in j k x -> SF_le k x.
Proof. destruct x as [| | |[] m e]; simpl; tauto. Qed.

Lemma SF_le_weaken k k' x : (k <= k')%Z -> SF_le k x -> SF_le k' x.
Proof.
intros Hk. destruct x as [| | |[] m e]; simpl; auto.
pose proof (pow2_le k k' Hk). lra.
Qed.

Lemma SF_in_weaken j j' k k' x :
(j' <= j)%Z -> (k <= k')%Z -> SF_in j k x -> SF_in j' k' x.
Proof.
intros Hj Hk. destruct x as [| | |[] m e]; simpl; auto.
pose proof (pow2_le k k' Hk). pose proof (pow2_le j' j Hj). lra.
Qed.

(** Rounding, from any location, a value below a power of two. *)
Lemma round_any_le sx mx ex lx (K : positive) (F : Z) :
(0 <= mx)%Z ->
(0 <= fexp prec emax (Zdigits2 mx + ex) - ex)%Z ->
canonical_mantissa prec emax K F = true -> (F <= 971)%Z ->
B2R (mx + 1) ex <= B2R (Zpos K) F ->
let r := binary_round_aux prec emax sx mx ex lx in
r = S754_zero sx \/
exists m e, r = S754_finite sx m e /\ B2R (Zpos m) e <= B2R (Zpos K) F.
Proof.
intros Hm Hn HK HF HX r.
destruct (binary_round_aux_steps sx mx ex lx Hm)
  as (m1 & m2 & m3 & e3 & Ht & Er).
subst r. rewrite Er. clear Er.
pose proof (round_steps_nonneg _ _ _ _ _ _ Hm Ht) as (Hm1 & Hm2 & Hm3).
pose proof (round_steps_canonical _ _ _ _ _ _ Hm Hn Ht) as Hcan.
apply canonical_bounds in HK. destruct HK as (HK53 & HFmin & HKn).
unfold round_steps in Ht. cbv zeta in Ht.
set (n := (fexp prec emax (Zdigits2 mx + ex) - ex)%Z) in *.
replace (Z.max n 0) with n in Ht by lia.
set (e1 := (ex + n)%Z) in *.
destruct Ht as (E1 & E2 & E3 & E4).
set (n2 := Z.max (fexp prec emax (Zdigits2 m2 + e1) - e1) 0) in *.
assert (Hn2 : (0 <= n2)%Z) by (subst n2; lia).
assert (Hp : (0 < 2 ^ n)%Z) by (apply Z.pow_pos_nonneg; lia).
pose proof (B2R_lt_pow (Zpos K) 53 F HK53 ltac:(lia)) as HKhi.
(* the rounded mantissa is not above the bound *)
assert (H2 : B2R m2 e1 <= B2R (Zpos K) F).
{ destruct (Z.le_gt_cases e1 F) as [HeF|HeF].
  - replace F with (e1 + (F - e1))%Z in HX |- * by lia.
    rewrite <- B2R_shift in HX |- * by lia.
    apply B2R_le.
    assert (Hlt : (mx + 1 <= Zpos K * 2 ^ (F - e1) * 2 ^ n)%Z).
    { apply (B2R_le_inv _ _ ex). rewrite (B2R_shift _ n ex) by lia.
      exact HX. }
    assert (m1 < Zpos K * 2 ^ (F - e1))%Z; [|lia].
    rewrite E1. apply Z.div_lt_upper_bound; [exact Hp|]. lia.
  - exfalso.
    assert (He1 : e1 = fexp prec emax (Zdigits2 mx + ex)) by (subst e1 n; lia).
    rewrite fexp64 in He1.
    destruct (Z.eq_dec mx 0) as [Hz|Hnz].
    + rewrite Hz in He1. change (Zdigits2 0) with 0%Z in He1.
      unfold e1 in *. lia.
    + pose proof (Zdigits2_bounds mx ltac:(lia)) as [HMlo _].
      pose proof (Zdigits2_pos mx ltac:(lia)) as Hd.
      pose proof (B2R_ge_pow mx _ ex HMlo ltac:(lia)) as HMge.
      pose proof (B2R_lt mx (mx + 1) ex ltac:(lia)).
      pose proof (pow2_le (53 + F) (Zdigits2 mx - 1 + ex) ltac:(lia)).
      lra. }
assert (H3 : B2R m3 e3 <= B2R (Zpos K) F).
{ pose proof (B2R_floor m2 e1 n2 Hm2 Hn2) as [Hfl _].
  rewrite <- E3, <- E4 in Hfl. lra. }
unfold rounded. destruct m3 as [|m|m]; [now left| |lia].
right. destruct (e3 <=? emax - prec)%Z eqn:Ee.
- exists m, e3. split; [reflexivity|exact H3].
- exfalso. apply Z.leb_gt in Ee. change (emax - prec)%Z with 971%Z in Ee.
  specialize (Hcan ltac:(lia)). rewrite fexp64 in Hcan.
  pose proof (Zdigits2_bounds (Zpos m) ltac:(lia)) as [Hlo _].
  pose proof (B2R_ge_pow (Zpos m) _ e3 Hlo
                ltac:(pose proof (Zdigits2_pos (Zpos m)); lia)) as Hge.
  pose proof (pow2_le (53 + F) (Zdigits2 (Zpos m) - 1 + e3) ltac:(lia)).
  lra.
Qed.

Lemma round_any_le_pow2 mx ex lx k :
(0 <= mx)%Z ->
(0 <= fexp prec emax (Zdigits2 mx + ex) - ex)%Z ->
(-1022 <= k <= 1023)%Z ->
B2R (mx + 1) ex <= powerRZ 2 k ->
SF_le k (binary_round_aux prec emax false mx ex lx).
Proof.
intros Hm Hn Hk HX. rewrite <- B2R_pow2 in HX.
destruct (round_any_le false mx ex lx _ _ Hm Hn
            (canonical_pow2 k ltac:(lia)) ltac:(lia) HX)
  as [->|(m & e & -> & Hb)]; simpl; [exact I|].
now rewrite <- B2R_pow2.
Qed.

Lemma round_le_pow2 (M : positive) E k :
(0 <= fexp prec emax (Zdigits2 (Zpos M) + E) - E)%Z ->
(-1022 <= k <= 1023)%Z ->
B2R (Zpos M) E <= powerRZ 2 k ->
SF_le k (binary_round_aux prec emax false (Zpos M) E loc_Exact).
Proof.
intros Hn Hk HX. rewrite <- B2R_pow2 in HX.
destruct (round_upper M _ E _ Hn (canonical_pow2 k ltac:(lia))
            ltac:(lia) HX) as [->|(m & e & -> & Hb)]; simpl; [exact I|].
now rewrite <- B2R_pow2.
Qed.

Lemma round_ge_pow2 (M : positive) E j k :
(0 <= fexp prec emax (Zdigits2 (Zpos M) + E) - E)%Z ->
(-1022 <= j)%Z ->
powerRZ 2 j <= B2R (Zpos M) E ->
SF_le k (binary_round_aux prec emax false (Zpos M) E loc_Exact) ->
SF_in j k (binary_round_aux prec emax false (Zpos M) E loc_Exact).
Proof.
intros Hn Hj HX Hle. rewrite <- B2R_pow2 in HX.
destruct (round_lower M _ E _ Hn (canonical_pow2 j ltac:(lia)) HX)
  as [E'|(m & e & E' & Hb)]; rewrite E' in Hle |- *; simpl in *.
- contradiction.
- rewrite B2R_pow2 in Hb. lra.
Qed.

Lemma binary_round_le_pow2 (S : positive) e k :
(-1022 <= k <= 1023)%Z ->
B2R (Zpos S) e <= powerRZ 2 k ->
SF_le k (binary_round prec emax false S e).
Proof.
intros Hk HX.
destruct (binary_round_aligned S e) as (M & E & -> & Hv & Hn).
apply round_le_pow2; auto. now rewrite Hv.
Qed.

Lemma binary_round_ge_pow2 (S : positive) e j k :
(-1022 <= j)%Z ->
powerRZ 2 j <= B2R (Zpos S) e ->
SF_le k (binary_round prec emax false S e) ->
SF_in j k (binary_round prec emax false S e).
Proof.
intros Hj HX.
destruct (binary_round_aligned S e) as (M & E & -> & Hv & Hn).
apply round_ge_pow2; auto. now rewrite Hv.
Qed.

Lemma binary_round_valid (S : positive) e :
valid_binary (binary_round prec emax false S e) = true.
Proof.
destruct (binary_round_aligned S e) as (M & E & -> & Hv & Hn).
apply binary_round_aux_valid; [lia|exact Hn].
Qed.

(** *** Products, sums and quotients *)

Lemma valid_canonical s m e :
valid_binary (S754_finite s m e) = true ->
canonical_mantissa prec emax m e = true.
Proof. simpl. unfold bounded. intros H. now apply andb_prop in H. Qed.

Lemma SFmul_le a b x y :
valid_binary x = true -> valid_binary y = true ->
(-1022 <= a + b <= 1023)%Z ->
SF_le a x -> SF_le b y -> SF_le (a + b) (SF64mul x y).
Proof.
intros Vx Vy Hk.
destruct x as [sx|sx| |[] mx ex], y as [sy|sy| |[] my ey]; simpl;
  try contradiction; try (intros; exact I).
intros Hx Hy.
apply valid_canonical in Vx, Vy.
apply round_le_pow2; [now apply mul_aligned|exact Hk|].
rewrite Pos2Z.inj_mul, B2R_mul, pow2_add.
pose proof (B2R_pos (Zpos mx) ex ltac:(lia)).
pose proof (B2R_pos (Zpos my) ey ltac:(lia)).
pose proof (pow2_pos a). pose proof (pow2_pos b). nra.
Qed.

Lemma SFmul_in ja ka jb kb x y :
valid_binary x = true -> valid_binary y = true ->
(-1022 <= ja + jb)%Z -> (-1022 <= ka + kb <= 1023)%Z ->
SF_in ja ka x -> SF_in jb kb y ->
SF_in (ja + jb) (ka + kb) (SF64mul x y).
Proof.
intros Vx Vy Hj Hk Hx Hy.
pose proof (SFmul_le ka kb x y Vx Vy Hk (SF_in_le _ _ _ Hx) (SF_in_le _ _ _ Hy))
  as Hle.
destruct x as [sx|sx| |[] mx ex], y as [sy|sy| |[] my ey]; simpl in Hx, Hy;
  try contradiction.
apply valid_canonical in Vx, Vy.
unfold SF64mul, SFmul in *. cbn [xorb] in *.
apply round_ge_pow2; [now apply mul_aligned|exact Hj| |exact Hle].
rewrite Pos2Z.inj_mul, B2R_mul, pow2_add.
pose proof (pow2_pos ja). pose proof (pow2_pos jb). nra.
Qed.

Lemma SFadd_le a b c x y :
(a <= c - 1)%Z -> (b <= c - 1)%Z -> (-1022 <= c <= 1023)%Z ->
SF_le a x -> SF_le b y -> SF_le c (SF64add x y).
Proof.
intros Ha Hb Hc Hx Hy.
destruct x as [sx|sx| |[] mx ex], y as [sy|sy| |[] my ey]; simpl in Hx, Hy;
  try contradiction.
- destruct sx, sy; exact I.
- simpl. pose proof (pow2_le b c ltac:(lia)). lra.
- simpl. pose proof (pow2_le a c ltac:(lia)). lra.
- destruct (SFadd_finite mx ex my ey) as (S & e & E & Hv).
  rewrite E.
  apply binary_round_le_pow2; [exact Hc|]. rewrite Hv.
  pose proof (pow2_le a (c - 1) Ha). pose proof (pow2_le b (c - 1) Hb).
  assert (Ec : powerRZ 2 c = 2 * powerRZ 2 (c - 1)).
  { replace c with (1 + (c - 1))%Z at 1 by lia. rewrite pow2_add.
    simpl. lra. }
  lra.
Qed.

(** A sum is not below its positive term. *)
Lemma SFadd_in_l j a b c x y :
(a <= c - 1)%Z -> (b <= c - 1)%Z -> (-1022 <= c <= 1023)%Z ->
(-1022 <= j)%Z ->
SF_in j a x -> SF_le b y -> SF_in j c (SF64add x y).
Proof.
intros Ha Hb Hc Hj Hx Hy.
pose proof (SFadd_le a b c x y Ha Hb Hc (SF_in_le _ _ _ Hx) Hy) as Hle.
destruct x as [sx|sx| |[] mx ex], y as [sy|sy| |[] my ey]; simpl in Hx, Hy;
  try contradiction.
- simpl. pose proof (pow2_le a c ltac:(lia)). lra.
- destruct (SFadd_finite mx ex my ey) as (S & e & E & Hv).
  rewrite E in Hle |- *.
  apply binary_round_ge_pow2; [exact Hj| |exact Hle]. rewrite Hv.
  pose proof (B2R_pos (Zpos my) ey ltac:(lia)). lra.
Qed.

Lemma SFadd_in_r j a b c x y :
(a <= c - 1)%Z -> (b <= c - 1)%Z -> (-1022 <= c <= 1023)%Z ->
(-1022 <= j)%Z ->
SF_le a x -> SF_in j b y -> SF_in j c (SF64add x y).
Proof.
intros Ha Hb Hc Hj Hx Hy.
pose proof (SFadd_le a b c x y Ha Hb Hc Hx (SF_in_le _ _ _ Hy)) as Hle.
destruct x as [sx|sx| |[] mx ex], y as [sy|sy| |[] my ey]; simpl in Hx, Hy;
  try contradiction.
- simpl. pose proof (pow2_le b c ltac:(lia)). lra.
- destruct (SFadd_finite mx ex my ey) as (S & e & E & Hv).
  rewrite E in Hle |- *.
  apply binary_round_ge_pow2; [exact Hj| |exact Hle]. rewrite Hv.
  pose proof (B2R_pos (Zpos mx) ex ltac:(lia)). lra.
Qed.

(** A quotient by a number that is at least [2^b]. *)
Lemma SFdiv_le a b c x y :
(-1022 <= a - b + 1 <= 1023)%Z ->
SF_le a x -> SF_in b c y -> SF_le (a - b + 1) (SF64div x y).
Proof.
intros Hk.
destruct x as [sx|sx| |[] mx ex], y as [sy|sy| |[] my ey]; simpl;
  try contradiction; try (intros; exact I); try tauto.
intros Hx [Hy _].
pose proof (SFdiv_core_spec mx my ex ey) as Hc.
unfold SF64div, SFdiv. cbn [xorb].
destruct (SFdiv_core_binary prec emax (Zpos mx) ex (Zpos my) ey)
  as [[q e'] l].
destruct Hc as (Hq & Hn & s & Hs & Es & Hqm).
apply round_any_le_pow2; [exact Hq|exact Hn|exact Hk|].
assert (Eone : powerRZ 2 (a - b + 1) * powerRZ 2 b = 2 * powerRZ 2 a).
{ rewrite <- pow2_add. replace (a - b + 1 + b)%Z with (1 + a)%Z by lia.
  rewrite pow2_add. simpl. lra. }
destruct (Z.eq_dec q 0) as [->|Hq0].
- (* nothing left of the quotient *)
  rewrite Zdigits2_zero, fexp64 in Hn. simpl (0 + 1)%Z. rewrite B2R_1.
  apply pow2_le. lia.
- assert (Hval : B2R q e' * B2R (Zpos my) ey <= B2R (Zpos mx) ex).
  { rewrite <- B2R_mul.
    replace ex with (e' + ey + s)%Z by lia.
    rewrite <- (B2R_shift (Zpos mx) s (e' + ey)) by lia.
    apply B2R_le. exact Hqm. }
  assert (Hq2 : B2R (q + 1) e' <= 2 * B2R q e').
  { replace (2 * B2R q e') with (B2R (2 * q) e').
    - apply B2R_le. lia.
    - unfold B2R. rewrite mult_IZR. ring. }
  pose proof (B2R_pos q e' ltac:(lia)) as Hqpos.
  pose proof (pow2_pos a). pose proof (pow2_pos b).
  apply (Rmult_le_reg_r (powerRZ 2 b)); [assumption|]. rewrite Eone.
  assert (B2R q e' * powerRZ 2 b <= B2R q e' * B2R (Zpos my) ey) by nra.
  nra.
Qed.

(** A quotient is a binary64 number, whatever the mantissas and exponents
  of its operands. *)
Lemma SFdiv_valid x y : valid_binary (SF64div x y) = true.
Proof.
destruct x as [sx|sx| |sx mx ex], y as [sy|sy| |sy my ey]; simpl;
  try reflexivity.
pose proof (SFdiv_core_spec mx my ex ey) as Hc.
unfold SF64div, SFdiv.
destruct (SFdiv_core_binary prec emax (Zpos mx) ex (Zpos my) ey)
  as [[q e'] l].
destruct Hc as (Hq & Hn & _).
now apply binary_round_aux_valid.
Qed.
End Magnitudes.

(* ================================================================== *)
(** ** Magnitudes of Python floats *)

(** [ub k x]: the float [x] is a zero or a positive number that is at most
    [2^k]; [within j k x]: [x] is a positive number between [2^j] and
    [2^k]. *)
Definition ub (k : Z) (x : float) : Prop := SF_le k (Prim2SF x).
Definition within (j k : Z) (x : float) : Prop := SF_in j k (Prim2SF x).

(** The same read off the exponent of [x], as a test. *)
Definition ubb (k : Z) (x : float) : bool :=
  match Prim2SF x with
  | S754_zero _ => true
  | S754_finite false _ e => e + 53 <=? k
  | _ => false
  end.

Definition withinb (j k : Z) (x : float) : bool :=
  match Prim2SF x with
  | S754_finite false _ e => (-1074 <? e) && (j <=? e + 52) && (e + 53 <=? k)
  | _ => false
  end.

Lemma within_ub j k x : within j k x -> ub k x.
Proof. apply SF_in_le. Qed.

Lemma ub_weaken k k' x : k <= k' -> ub k x -> ub k' x.
Proof. apply SF_le_weaken. Qed.

Lemma within_weaken j j' k k' x :
  j' <= j -> k <= k' -> within j k x -> within j' k' x.
Proof. apply SF_in_weaken. Qed.

Section FloatMagnitudes.
Local Open Scope R_scope.

Lemma ubb_ub k x : ubb k x = true -> ub k x.
Proof.
unfold ubb, ub. pose proof (Prim2SF_valid x) as Hv.
destruct (Prim2SF x) as [s|s| |[] m e]; simpl; try discriminate; auto.
intros H. apply Z.leb_le in H.
apply valid_canonical, canonical_bounds in Hv. destruct Hv as (H53 & _).
pose proof (B2R_lt_pow (Zpos m) 53 e H53 ltac:(lia)).
pose proof (pow2_le (53 + e) k ltac:(lia)). lra.
Qed.

Lemma withinb_within j k x : withinb j k x = true -> within j k x.
Proof.
unfold withinb, within. pose proof (Prim2SF_valid x) as Hv.
destruct (Prim2SF x) as [s|s| |[] m e]; simpl; try discriminate; auto.
intros H. apply andb_prop in H. destruct H as [H Hk].
apply andb_prop in H. destruct H as [He Hj].
apply Z.ltb_lt in He. apply Z.leb_le in Hj, Hk.
apply valid_canonical, canonical_bounds in Hv.
destruct Hv as (H53 & _ & Hn).
pose proof (B2R_lt_pow (Zpos m) 53 e H53 ltac:(lia)).
pose proof (B2R_ge_pow (Zpos m) 52 e (Hn He) ltac:(lia)).
pose proof (pow2_le (53 + e) k ltac:(lia)).
pose proof (pow2_le j (52 + e) ltac:(lia)). lra.
Qed.

Lemma ub_mul a b x y :
(-1022 <= a + b <= 1023)%Z -> ub a x -> ub b y -> ub (a + b) (x * y)%float.
Proof.
intros Hk Hx Hy. unfold ub. rewrite mul_spec.
apply SFmul_le; auto using Prim2SF_valid.
Qed.

Lemma within_mul ja ka jb kb x y :
(-1022 <= ja + jb)%Z -> (-1022 <= ka + kb <= 1023)%Z ->
within ja ka x -> within jb kb y ->
within (ja + jb) (ka + kb) (x * y)%float.
Proof.
intros Hj Hk Hx Hy. unfold within. rewrite mul_spec.
apply SFmul_in; auto using Prim2SF_valid.
Qed.

Lemma ub_add a b c x y :
(a <= c - 1)%Z -> (b <= c - 1)%Z -> (-1022 <= c <= 1023)%Z ->
ub a x -> ub b y -> ub c (x + y)%float.
Proof.
intros Ha Hb Hc Hx Hy. unfold ub. rewrite add_spec.
now apply (SFadd_le a b).
Qed.

Lemma within_add_l j a b c x y :
(a <= c - 1)%Z -> (b <= c - 1)%Z -> (-1022 <= c <= 1023)%Z ->
(-1022 <= j)%Z ->
within j a x -> ub b y -> within j c (x + y)%float.
Proof.
intros Ha Hb Hc Hj Hx Hy. unfold within. rewrite add_spec.
now apply (SFadd_in_l j a b).
Qed.

Lemma within_nonzero j k y : within j k y -> (y =? 0)%float = false.
Proof.
unfold within. rewrite eqb_spec. change (Prim2SF 0) with (S754_zero false).
destruct (Prim2SF y) as [s|s| |[] m e]; simpl; try contradiction.
reflexivity.
Qed.

(** A quotient by a float that is at least [2^b] does not raise and is at
  most [2^(a - b + 1)]. *)
Lemma ub_div a b c x y :
(-1022 <= a - b + 1 <= 1023)%Z -> ub a x -> within b c y ->
py_div x y = Ok (x / y)%float /\ ub (a - b + 1) (x / y)%float.
Proof.
intros Hk Hx Hy. unfold py_div. rewrite (within_nonzero _ _ _ Hy).
split; [reflexivity|]. unfold ub. rewrite div_spec.
now apply (SFdiv_le a b c).
Qed.

Lemma ub_not_infinity k x : ub k x -> is_infinity x = false.
Proof.
unfold ub, is_infinity. rewrite eqb_spec, abs_spec.
change (Prim2SF infinity) with (S754_infinity false).
destruct (Prim2SF x) as [s|s| |[] m e]; simpl; try contradiction;
  reflexivity.
Qed.

(** [float(z)] for [0 <= z <= 2^k]. *)
Lemma Z2SF_bounds z k :
(0 <= z)%Z -> (z <= 2 ^ k)%Z -> (0 <= k <= 1023)%Z ->
valid_binary (Z2SF z) = true /\ SF_le k (Z2SF z) /\
(forall j, (0 <= j)%Z -> (2 ^ j <= z)%Z -> SF_in j k (Z2SF z)).
Proof.
intros Hz Hk Hk'. unfold Z2SF, binary_normalize.
destruct z as [|p|p]; try lia.
- split; [reflexivity|]. split; [exact I|].
  intros j Hj H. assert (0 < 2 ^ j)%Z by (apply Z.pow_pos_nonneg; lia). lia.
- assert (Hle : SF_le k (binary_round prec emax false p 0)).
  { apply binary_round_le_pow2; [lia|].
    rewrite B2R_IZR, pow2_IZR by lia. now apply IZR_le. }
  split; [apply binary_round_valid|]. split; [exact Hle|].
  intros j Hj H. apply binary_round_ge_pow2; [lia| |exact Hle].
  rewrite B2R_IZR, pow2_IZR by lia. now apply IZR_le.
Qed.

Lemma float_of_int_bounds z k :
(0 <= z)%Z -> (z <= 2 ^ k)%Z -> (0 <= k <= 1023)%Z ->
exists f,
  float_of_int z = Ok f /\ ub k f /\
  (forall j, (0 <= j)%Z -> (2 ^ j <= z)%Z -> within j k f).
Proof.
intros Hz Hk Hk'.
destruct (Z2SF_bounds z k Hz Hk Hk') as (Hv & Hle & Hin).
assert (E : Prim2SF (SF2Prim (Z2SF z)) = Z2SF z)
  by now apply Prim2SF_SF2Prim.
assert (Hub : ub k (SF2Prim (Z2SF z))) by (unfold ub; now rewrite E).
exists (SF2Prim (Z2SF z)). unfold float_of_int.
rewrite (ub_not_infinity _ _ Hub).
split; [reflexivity|]. split; [exact Hub|].
intros j Hj H. unfold within. rewrite E. now apply Hin.
Qed.

(** [int] and [round] accept every such float. *)
Lemma py_int_ub k x :
(0 <= k)%Z -> ub k x ->
exists z, py_int x = Ok z /\ (0 <= z <= 2 ^ k)%Z.
Proof.
intros Hk. unfold ub, py_int.
assert (0 < 2 ^ k)%Z by (apply Z.pow_pos_nonneg; lia).
destruct (Prim2SF x) as [s|s| |[] m e]; simpl; try contradiction.
- intros _. exists 0%Z. split; [reflexivity|lia].
- intros Hx. exists (trunc_dyadic m e). split; [reflexivity|].
  split; [apply trunc_dyadic_nonneg|].
  pose proof (trunc_dyadic_floor m e) as [Hf _].
  apply le_IZR. rewrite <- pow2_IZR by lia. lra.
Qed.

Lemma py_round_ub k x : ub k x -> exists z, py_round x = Ok z.
Proof.
unfold ub, py_round.
destruct (Prim2SF x) as [s|s| |[] m e]; simpl; try contradiction; eauto.
Qed.

(** [max(1.0, q)] is at least 1. *)
Lemma py_max_float_within k q :
(0 <= k)%Z -> ub k q -> within 0 k (py_max_float 1 q).
Proof.
intros Hk Hq. unfold py_max_float.
destruct (1 <? q)%float eqn:E.
- rewrite ltb_spec in E. unfold ub, within in *.
  pose proof (Prim2SF_valid q) as Hv.
  change (Prim2SF 1) with (S754_finite false 4503599627370496 (-52)) in E.
  destruct (Prim2SF q) as [s|s| |[] m e]; simpl in Hq; try contradiction.
  + discriminate.
  + apply valid_canonical in Hv.
    apply SFltb_canonical in E; [|reflexivity|exact Hv].
    simpl. split; [|exact Hq].
    replace (B2R 4503599627370496 (-52)) with 1 in E
      by (unfold B2R; simpl; lra).
    simpl. lra.
- unfold within.
  change (Prim2SF 1) with (S754_finite false 4503599627370496 (-52)).
  simpl. replace (B2R 4503599627370496 (-52)) with 1
    by (unfold B2R; simpl; lra).
  pose proof (pow2_ge_1 k Hk). lra.
Qed.

(** A draw of [random()] is at most 1. *)
Lemma unit_ub u :
(0 <=? u)%float = true -> (u <? 1)%float = true -> ub 0 u.
Proof.
intros H0 H1. unfold ub.
destruct (unit_float_cases u H0 H1) as [[s ->]|(m & e & -> & _ & Hu)];
  simpl; [exact I|]. lra.
Qed.

(** The rounding of a ratio to three decimals. *)
Lemma rhe_div_le n d : (0 <= n)%Z -> (0 < d)%Z -> (rhe_div n d <= n / d + 1)%Z.
Proof.
intros Hn Hd. unfold rhe_div.
destruct (2 * (n mod d) ?= d)%Z; [destruct (Z.even _)| |]; lia.
Qed.

Lemma round_dyadic_3_le m e :
B2R (Zpos m) e <= 1 -> (0 <= round_dyadic m e 3 <= 1001)%Z.
Proof.
intros Hv. split; [apply round_dyadic_nonneg; lia|].
unfold round_dyadic. change (10 ^ 3)%Z with 1000%Z.
destruct (0 <=? e)%Z eqn:E.
- apply Z.leb_le in E.
  assert (Zpos m * 2 ^ e <= 1)%Z; [|lia].
  assert (Hr : B2R (Zpos m * 2 ^ e) 0 <= 1)
    by (rewrite B2R_shift by lia; simpl (0 + e)%Z; exact Hv).
  rewrite B2R_IZR in Hr. apply le_IZR. lra.
- apply Z.leb_gt in E.
  assert (Hp : (0 < 2 ^ (- e))%Z) by (apply Z.pow_pos_nonneg; lia).
  assert (Hm : (Zpos m <= 2 ^ (- e))%Z).
  { apply (B2R_le_inv _ _ e).
    replace (2 ^ (- e))%Z with (1 * 2 ^ (- e))%Z by lia.
    rewrite (B2R_shift 1 (- e) e) by lia.
    replace (e + - e)%Z with 0%Z by lia. rewrite B2R_IZR. lra. }
  pose proof (rhe_div_le (Zpos m * 1000) (2 ^ (- e)) ltac:(lia) Hp).
  assert (Zpos m * 1000 / 2 ^ (- e) <= 1000)%Z; [|lia].
  apply Z.div_le_upper_bound; [exact Hp|]. lia.
Qed.

Lemma py_round_nd_3_ub x : ub 0 x -> ub 2 (py_round_nd x 3).
Proof.
intros Hx. unfold py_round_nd. unfold ub in Hx.
destruct (Prim2SF x) as [s|s| |[] m e] eqn:Ex; simpl in Hx;
  try contradiction.
- unfold ub. rewrite Ex. exact I.
- change (powerRZ 2 0) with 1 in Hx.
  pose proof (round_dyadic_3_le m e Hx) as Hr.
  change (10 ^ 3)%Z with 1000%Z. cbn [int_SF].
  set (q := SFdiv prec emax (int_SF false (round_dyadic m e 3))
              (S754_finite false 1000 0)).
  assert (Hq : valid_binary q = true /\ SF_le 2 q).
  { subst q. destruct (round_dyadic m e 3) as [|r|r]; try lia.
    - split; reflexivity.
    - cbn [int_SF]. split.
      + apply (SFdiv_valid (S754_finite false r 0)
                 (S754_finite false 1000 0)).
      + apply (SFdiv_le 10 9 10 (S754_finite false r 0)
                 (S754_finite false 1000 0)); [lia| |].
        * simpl. rewrite B2R_IZR. destruct Hr as [_ Hr].
          apply IZR_le in Hr. lra.
        * simpl. rewrite B2R_IZR. lra. }
  destruct Hq as [Hv Hle]. unfold ub.
  now rewrite Prim2SF_SF2Prim.
Qed.
End FloatMagnitudes.

(* ================================================================== *)
(** ** Configurations on which no row fails *)

(** A [(min, max)] tuple whose draws are at most [2^k]: ints with
    [0 <= min <= max <= 2^(k-1)] and [1 <= k], or floats with [min] and
    [max - min] at most [2^(k-1)]. *)
Definition range_sound (k : Z) (r : range) : bool :=
  match r with
  | (PyInt a, PyInt b) =>
      (1 <=? k) && (0 <=? a) && (a <=? b) && (b <=? 2 ^ (k - 1))
  | (PyFloat a, PyFloat b) => ubb (k - 1) a && ubb (k - 1) (b - a)
  | _ => false
  end.

(** A tuple of ints whose minimum is at least 1. *)
Definition range_positive (r : range) : bool :=
  match r with
  | (PyInt a, PyInt _) => 1 <=? a
  | _ => false
  end.

Definition city_sound (c : city_info) : bool :=
  ubb 10 (multiplier c) && range_sound 40 (labor_day_rate c).

Definition has_keys {V} (ks : list string) (d : dict V) : bool :=
  forallb (fun k => str_in k (keys d)) ks.

Definition keys_among {V} (ks : list string) (d : dict V) : bool :=
  forallb (fun k => str_in k ks) (keys d).

Definition nonempty {A} (l : list A) : bool :=
  match l with [] => false | _ => true end.

(** What the code takes for granted about its tables: the number of
    entries the literal weights are written for, the keys the code names,
    and prices, rates and factors of a magnitude that binary64 arithmetic
    carries without overflow. *)
Definition config_sound (cfg : Config) : bool :=
  ubb 10 (GST_RATE cfg) &&
  ubb 10 (MATERIAL_PRICE_INDEX cfg) &&
  nonempty (cities cfg) &&
  table_okb city_sound (cities cfg) &&
  nonempty (room_types cfg) &&
  nonempty (renovation_levels cfg) &&
  keys_among ["Basic"; "Mid"; "Luxury"] (renovation_levels cfg) &&
  table_okb (fun l => range_sound 0 (labor_overhead l))
    (renovation_levels cfg) &&
  (List.length (quality_tiers cfg) =? 4)%nat &&
  table_okb (ubb 10) (quality_tiers cfg) &&
  range_sound 40 (painting_psf cfg) &&
  (List.length (flooring_catalog cfg) =? 7)%nat &&
  has_keys ["Ceramic_Tile"; "Vitrified_Tile"; "Granite"]
    (flooring_catalog cfg) &&
  table_okb (range_sound 40) (flooring_catalog cfg) &&
  nonempty (ceiling_catalog cfg) &&
  table_okb (range_sound 40) (ceiling_catalog cfg) &&
  range_sound 40 (electrical_psf cfg) &&
  range_sound 40 (plumbing_per_bath cfg) &&
  range_sound 40 (plumbing_per_kitchen cfg) &&
  has_keys ["Basic_L"; "Standard_L"; "Premium_U"; "Luxury_Island"]
    (kitchen_packages cfg) &&
  table_okb (range_sound 40) (kitchen_packages cfg) &&
  has_keys ["Basic"; "Standard"; "Premium"] (bathroom_packages cfg) &&
  table_okb (range_sound 40) (bathroom_packages cfg) &&
  has_keys ["Basic"; "Standard"; "Premium"] (furniture_room cfg) &&
  table_okb (range_sound 40) (furniture_room cfg) &&
  has_keys ["painting_sqft_per_day"; "flooring_sqft_per_day";
            "ceiling_sqft_per_day"; "electrical_sqft_per_day"]
    (productivity cfg) &&
  table_okb (fun r => range_sound 40 r && range_positive r)
    (productivity cfg).

Lemma default_config_sound : config_sound default_config = true.
Proof. vm_compute. reflexivity. Qed.

(* ------------------------------------------------------------------ *)
(** *** Lookups *)

Lemma str_in_In k l : str_in k l = true <-> In k l.
Proof.
  unfold str_in. rewrite existsb_exists. split.
  - intros (x & Hx & E). apply String.eqb_eq in E. now subst.
  - intros H. exists k. split; [exact H|apply String.eqb_refl].
Qed.

Lemma has_keys_In {V} ks (d : dict V) k :
  has_keys ks d = true -> In k ks -> In k (keys d).
Proof.
  unfold has_keys. rewrite forallb_forall. intros H Hk.
  now apply str_in_In, H.
Qed.

Lemma keys_among_In {V} ks (d : dict V) k :
  keys_among ks d = true -> In k (keys d) -> In k ks.
Proof.
  unfold keys_among. rewrite forallb_forall. intros H Hk.
  now apply str_in_In, H.
Qed.

Lemma nonempty_neq {A} (l : list A) : nonempty l = true -> l <> [].
Proof. destruct l; [discriminate|congruence]. Qed.

Lemma keys_nonempty {V} (d : dict V) : nonempty d = true -> keys d <> [].
Proof. destruct d; [discriminate|]. intros _. discriminate. Qed.

Lemma getitem_sound {V} (p : V -> bool) (d : dict V) k :
  table_okb p d = true -> In k (keys d) ->
  exists v, getitem d k = Ok v /\ p v = true.
Proof.
  intros Hp Hk. destruct (In_keys_getitem d k Hk) as [v Hv].
  exists v. split; [exact Hv|]. exact (getitem_table_ok p d k v Hp Hv).
Qed.

(* ------------------------------------------------------------------ *)
(** *** Computations that return *)

Section Returns.
Context {P : PRNG}.

(** [returns c Q]: from every generator state the computation [c] returns
    a value that satisfies [Q]; it raises nothing. *)
Definition returns {A} (c : M (gen P) A) (Q : A -> Prop) : Prop :=
  forall g, exists a g', c g = Ok (a, g') /\ Q a.

Lemma returns_ret {A} (a : A) (Q : A -> Prop) : Q a -> returns (ret a) Q.
Proof. intros H g. exists a, g. split; [reflexivity|exact H]. Qed.

Lemma returns_bind {A B} (c : M (gen P) A) (k : A -> M (gen P) B)
    (Q : A -> Prop) (R : B -> Prop) :
  returns c Q -> (forall a, Q a -> returns (k a) R) ->
  returns (bind c k) R.
Proof.
  intros Hc Hk g. destruct (Hc g) as (a & g1 & E & Ha).
  destruct (Hk a Ha g1) as (b & g2 & E2 & Hb).
  exists b, g2. unfold bind. rewrite E. split; assumption.
Qed.

Lemma returns_lift {A} (r : result A) (Q : A -> Prop) :
  (exists a, r = Ok a /\ Q a) -> returns (lift r) Q.
Proof.
  intros (a & -> & Ha) g. exists a, g. split; [reflexivity|exact Ha].
Qed.

Lemma returns_weaken {A} (c : M (gen P) A) (Q R : A -> Prop) :
  returns c Q -> (forall a, Q a -> R a) -> returns c R.
Proof.
  intros Hc H g. destruct (Hc g) as (a & g1 & E & Ha). eauto.
Qed.

Lemma returns_random_random :
  returns random_random (ub 0).
Proof.
  intros g. unfold random_random.
  destruct (next_random_unit P g) as [H0 H1].
  destruct (next_random P g) as [u g1]. simpl in *.
  exists u, g1. split; [reflexivity|]. now apply unit_ub.
Qed.

Lemma returns_random_choice {A} (seq : list A) :
  seq <> [] -> returns (random_choice seq) (fun x => In x seq).
Proof.
  intros H g. destruct (random_choice_total seq g H) as (x & E & Hx). eauto.
Qed.

Lemma returns_random_choices1 {A} (pop : list A) ws :
  List.length ws = List.length pop -> weights_ok ws = true ->
  returns (random_choices1 pop ws) (fun x => In x pop).
Proof.
  intros Hl Hw g.
  destruct (random_choices1_total pop ws g Hl Hw) as (x & E & Hx). eauto.
Qed.

Lemma returns_getitem {V} (p : V -> bool) (d : dict V) k :
  table_okb p d = true -> In k (keys d) ->
  returns (lift (getitem d k)) (fun v => p v = true).
Proof. intros Hp Hk. apply returns_lift. now apply getitem_sound. Qed.

(** *** Arithmetic that returns *)

Lemma ub_mul' a b c x y :
  a + b <= c -> -1022 <= c <= 1023 -> ub a x -> ub b y -> ub c (x * y)%float.
Proof.
  intros Hab Hc Hx Hy.
  replace c with ((c - b) + b) by lia.
  apply ub_mul; [lia| |exact Hy]. apply (ub_weaken a); [lia|exact Hx].
Qed.

Lemma ub_add' a b c x y :
  a < c -> b < c -> -1022 <= c <= 1023 ->
  ub a x -> ub b y -> ub c (x + y)%float.
Proof. intros Ha Hb Hc. apply ub_add; lia. Qed.

Lemma float_mul_int_ub a b c x z :
  ub a x -> 0 <= z <= 2 ^ b -> 0 <= b <= 1023 ->
  a + b <= c -> -1022 <= c <= 1023 ->
  exists y, float_mul_int x z = Ok y /\ ub c y.
Proof.
  intros Hx Hz Hb Hab Hc. unfold float_mul_int.
  destruct (float_of_int_bounds z b ltac:(lia) ltac:(lia) Hb)
    as (f & -> & Hf & _).
  simpl. eexists. split; [reflexivity|]. now apply (ub_mul' a b).
Qed.

Lemma int_mul_float_ub a b c z x :
  0 <= z <= 2 ^ a -> 0 <= a <= 1023 -> ub b x ->
  a + b <= c -> -1022 <= c <= 1023 ->
  exists y, int_mul_float z x = Ok y /\ ub c y.
Proof.
  intros Hz Ha Hx Hab Hc. unfold int_mul_float.
  destruct (float_of_int_bounds z a ltac:(lia) ltac:(lia) Ha)
    as (f & -> & Hf & _).
  simpl. eexists. split; [reflexivity|]. now apply (ub_mul' a b).
Qed.

Lemma int_div_float_ub a b c z x :
  0 <= z <= 2 ^ a -> 0 <= a <= 1023 -> within b c x ->
  -1022 <= a - b + 1 <= 1023 ->
  exists q, int_div_float z x = Ok q /\ ub (a - b + 1) q.
Proof.
  intros Hz Ha Hx Hk. unfold int_div_float.
  destruct (float_of_int_bounds z a ltac:(lia) ltac:(lia) Ha)
    as (f & -> & Hf & _).
  simpl. destruct (ub_div a b c f x Hk Hf Hx) as [-> Hq]. eauto.
Qed.

Lemma float_div_int_returns a x z :
  ub a x -> 1 <= z <= 2 ^ 1000 -> -21 <= a <= 1000 ->
  exists q, float_div_int x z = Ok q.
Proof.
  intros Hx Hz Ha. unfold float_div_int.
  destruct (float_of_int_bounds z 1000 ltac:(lia) ltac:(lia) ltac:(lia))
    as (f & -> & _ & Hf).
  simpl. specialize (Hf 0 ltac:(lia) ltac:(simpl; lia)).
  destruct (ub_div a 0 1000 x f ltac:(lia) Hx Hf) as [-> _]. eauto.
Qed.

(** *** [rand_range] *)

Lemma next_random_ub (g : gen P) : ub 0 (fst (next_random P g)).
Proof. destruct (next_random_unit P g) as [H0 H1]. now apply unit_ub. Qed.

Lemma returns_rand_range k r :
  range_sound k r = true -> -1000 <= k <= 1023 ->
  returns (rand_range r) (ub k).
Proof.
  intros Hr Hk g. pose proof (next_random_ub g) as Hu.
  unfold rand_range, random_uniform, bind, lift, random_random,
    num_sub, num_mul_float, num_add_float, to_float, rbind.
  destruct r as [[a|a] [b|b]]; simpl in Hr; try discriminate;
    cbn [fst snd].
  - apply andb_prop in Hr. destruct Hr as [Hr Hb].
    apply andb_prop in Hr. destruct Hr as [Hr Hab].
    apply andb_prop in Hr. destruct Hr as [Hk1 Ha].
    apply Z.leb_le in Hk1, Ha, Hab, Hb.
    destruct (float_of_int_bounds (b - a) (k - 1) ltac:(lia) ltac:(lia)
                ltac:(lia)) as (fd & Ed & Hd & _).
    destruct (float_of_int_bounds a (k - 1) ltac:(lia) ltac:(lia)
                ltac:(lia)) as (fa & Ea & Hfa & _).
    rewrite Ed, Ea. cbv beta iota.
    destruct (next_random P g) as [u g1]. cbn [fst snd] in *.
    eexists _, g1. split; [reflexivity|].
    apply (ub_add' (k - 1) (k - 1)); try lia; [exact Hfa|].
    apply (ub_mul' (k - 1) 0); try lia; assumption.
  - apply andb_prop in Hr. destruct Hr as [Ha Hd].
    apply ubb_ub in Ha, Hd. cbv beta iota.
    destruct (next_random P g) as [u g1]. cbn [fst snd] in *.
    eexists _, g1. split; [reflexivity|].
    apply (ub_add' (k - 1) (k - 1)); try lia; [exact Ha|].
    apply (ub_mul' (k - 1) 0); try lia; assumption.
Qed.

(** A draw from a tuple of ints whose minimum is at least 1 is at least
    1. *)
Lemma returns_rand_range_positive k r :
  range_sound k r = true -> range_positive r = true -> k <= 1023 ->
  returns (rand_range r) (within 0 k).
Proof.
  intros Hr Hp Hk g. pose proof (next_random_ub g) as Hu.
  unfold rand_range, random_uniform, bind, lift, random_random,
    num_sub, num_mul_float, num_add_float, to_float, rbind.
  destruct r as [[a|a] [b|b]]; simpl in Hr, Hp; try discriminate;
    cbn [fst snd].
  apply andb_prop in Hr. destruct Hr as [Hr Hb].
  apply andb_prop in Hr. destruct Hr as [Hr Hab].
  apply andb_prop in Hr. destruct Hr as [Hk1 Ha].
  apply Z.leb_le in Hk1, Ha, Hab, Hb, Hp.
  destruct (float_of_int_bounds (b - a) (k - 1) ltac:(lia) ltac:(lia)
              ltac:(lia)) as (fd & Ed & Hd & _).
  destruct (float_of_int_bounds a (k - 1) ltac:(lia) ltac:(lia)
              ltac:(lia)) as (fa & Ea & _ & Hfa).
  specialize (Hfa 0 ltac:(lia) ltac:(simpl; lia)).
  rewrite Ed, Ea. cbv beta iota.
  destruct (next_random P g) as [u g1]. cbn [fst snd] in *.
  eexists _, g1. split; [reflexivity|].
  apply (within_add_l 0 (k - 1) (k - 1)); try lia; [exact Hfa|].
  apply (ub_mul' (k - 1) 0); try lia; assumption.
Qed.
End Returns.

(* ================================================================== *)
(** ** Order of the costs *)

(** Rounding half to even: the quotient is within one half of the exact
    ratio, and even when it is one half away. *)
Lemma rhe_div_spec n d :
  0 <= n -> 0 < d ->
  let z := rhe_div n d in
  (2 * z - 1) * d <= 2 * n <= (2 * z + 1) * d /\
  (2 * n = (2 * z - 1) * d \/ 2 * n = (2 * z + 1) * d -> Z.even z = true).
Proof.
  intros Hn Hd z. subst z. unfold rhe_div.
  pose proof (Z.div_mod n d ltac:(lia)) as E.
  pose proof (Z.mod_pos_bound n d Hd) as Hr.
  set (q := n / d) in *. set (r := n mod d) in *.
  destruct (Z.compare_spec (2 * r) d) as [Heq|Hlt|Hgt].
  - destruct (Z.even q) eqn:Ev.
    + split; [nia|]. intros _. exact Ev.
    + split; [nia|]. intros _.
      rewrite Z.even_add. rewrite Ev. reflexivity.
  - split; [nia|]. intros [H|H]; exfalso; nia.
  - split; [nia|]. intros [H|H]; exfalso; nia.
Qed.

Section CostOrder.
Local Open Scope R_scope.

(** The real number a finite float stands for. *)
Definition SFR (x : spec_float) : R :=
match x with
| S754_finite s m e => if s then - B2R (Zpos m) e else B2R (Zpos m) e
| _ => 0
end.

Definition FR (x : float) : R := SFR (Prim2SF x).

Lemma round_dyadic_spec m e :
let z := round_dyadic m e 0 in
IZR z - / 2 <= B2R (Zpos m) e <= IZR z + / 2 /\
(B2R (Zpos m) e = IZR z - / 2 \/ B2R (Zpos m) e = IZR z + / 2 ->
 Z.even z = true).
Proof.
intros z. subst z. unfold round_dyadic.
change (10 ^ 0)%Z with 1%Z. rewrite !Z.mul_1_r.
destruct (0 <=? e)%Z eqn:E.
- apply Z.leb_le in E.
  assert (Ev : B2R (Zpos m) e = IZR (Zpos m * 2 ^ e)).
  { rewrite <- B2R_IZR, B2R_shift by lia. f_equal. }
  rewrite Ev. split; [lra|]. intros [H|H]; exfalso; lra.
- apply Z.leb_gt in E.
  assert (Hp : (0 < 2 ^ (- e))%Z) by (apply Z.pow_pos_nonneg; lia).
  destruct (rhe_div_spec (Zpos m) (2 ^ (- e)) ltac:(lia) Hp) as [Hb Ht].
  cbv zeta in Hb, Ht.
  set (z := rhe_div (Zpos m) (2 ^ (- e))) in *.
  set (d := (2 ^ (- e))%Z) in *.
  assert (Hd : 0 < IZR d) by (now apply IZR_lt).
  assert (Ev : B2R (Zpos m) e * IZR d = IZR (Zpos m)).
  { unfold B2R. subst d. rewrite <- pow2_IZR by lia.
    rewrite Rmult_assoc, <- pow2_add.
    replace (e + - e)%Z with 0%Z by lia. simpl. ring. }
  destruct Hb as [Hlo Hhi]. apply IZR_le in Hlo, Hhi.
  rewrite !mult_IZR in Hlo, Hhi. rewrite minus_IZR, mult_IZR in Hlo.
  rewrite plus_IZR, mult_IZR in Hhi.
  set (v := B2R (Zpos m) e) in *. rewrite <- Ev in Hlo, Hhi.
  split; [split; nra|].
  intros Hv. apply Ht.
  destruct Hv as [Hv|Hv]; [left|right]; apply eq_IZR;
    rewrite !mult_IZR; [rewrite minus_IZR|rewrite plus_IZR];
    rewrite mult_IZR, <- Ev; rewrite Hv; simpl; field.
Qed.

(** [round] is monotone on positive numbers. *)
Lemma round_dyadic_mono m1 e1 m2 e2 :
B2R (Zpos m1) e1 <= B2R (Zpos m2) e2 ->
(round_dyadic m1 e1 0 <= round_dyadic m2 e2 0)%Z.
Proof.
intros Hv.
destruct (round_dyadic_spec m1 e1) as [[Hlo1 Hhi1] Ht1].
destruct (round_dyadic_spec m2 e2) as [[Hlo2 Hhi2] Ht2].
cbv zeta in *.
set (z1 := round_dyadic m1 e1 0) in *. set (z2 := round_dyadic m2 e2 0) in *.
destruct (Z.le_gt_cases z1 z2) as [|Hgt]; [assumption|exfalso].
assert (H1 : IZR z2 + 1 <= IZR z1).
{ rewrite <- plus_IZR. apply IZR_le. lia. }
assert (E1 : B2R (Zpos m1) e1 = IZR z1 - / 2) by lra.
assert (E2 : B2R (Zpos m2) e2 = IZR z2 + / 2) by lra.
assert (Ez : z1 = (z2 + 1)%Z).
{ apply eq_IZR. rewrite plus_IZR. lra. }
specialize (Ht1 (or_introl E1)). specialize (Ht2 (or_intror E2)).
rewrite Ez, Z.even_add, Ht2 in Ht1. discriminate.
Qed.

Lemma py_round_mono a b x y zx zy :
ub a x -> ub b y -> FR x <= FR y ->
py_round x = Ok zx -> py_round y = Ok zy -> (zx <= zy)%Z.
Proof.
unfold ub, FR, py_round.
destruct (Prim2SF x) as [sx|sx| |[] mx ex]; simpl; try contradiction;
  destruct (Prim2SF y) as [sy|sy| |[] my ey]; simpl; try contradiction;
  intros _ _ Hv Hx Hy; injection Hx as <-; injection Hy as <-.
- lia.
- apply round_dyadic_nonneg. lia.
- pose proof (B2R_pos (Zpos mx) ex ltac:(lia)). lra.
- now apply round_dyadic_mono.
Qed.

(** A sum of two finite costs is not below either of them. *)
Lemma SFadd_ge x y c :
valid_binary x = true -> valid_binary y = true ->
SF_le c x -> SF_le c y -> SF_le c (SF64add x y) ->
SFR x <= SFR (SF64add x y) /\ SFR y <= SFR (SF64add x y).
Proof.
intros Vx Vy Hx Hy Hs.
destruct x as [sx|sx| |[] mx ex], y as [sy|sy| |[] my ey]; simpl in Hx, Hy;
  try contradiction.
- destruct sx, sy; simpl; lra.
- simpl. pose proof (B2R_pos (Zpos my) ey ltac:(lia)). lra.
- simpl. pose proof (B2R_pos (Zpos mx) ex ltac:(lia)). lra.
- apply valid_canonical in Vx, Vy.
  destruct (SFadd_finite mx ex my ey) as (S & e & E & Hv).
  rewrite E in Hs |- *.
  pose proof (B2R_pos (Zpos mx) ex ltac:(lia)).
  pose proof (B2R_pos (Zpos my) ey ltac:(lia)).
  destruct (binary_round_lower S mx e ex Vx ltac:(lra))
    as [E1|(m1 & e1' & E1 & H1)];
    [rewrite E1 in Hs; contradiction|].
  destruct (binary_round_lower S my e ey Vy ltac:(lra))
    as [E2|(m2 & e2' & E2 & H2)];
    [rewrite E2 in Hs; contradiction|].
  rewrite E1 in E2. injection E2 as <- <-.
  rewrite E1. simpl. lra.
Qed.

Lemma add_ge a b c x y :
(a < c)%Z -> (b < c)%Z -> (-1022 <= c <= 1023)%Z ->
ub a x -> ub b y ->
ub c (x + y)%float /\ FR x <= FR (x + y)%float /\ FR y <= FR (x + y)%float.
Proof.
intros Ha Hb Hc Hx Hy.
pose proof (ub_add' a b c x y Ha Hb Hc Hx Hy) as Hs.
split; [exact Hs|]. unfold FR, ub in *. rewrite add_spec in *.
apply (SFadd_ge _ _ c); auto using Prim2SF_valid.
- apply (SF_le_weaken a); [lia|assumption].
- apply (SF_le_weaken b); [lia|assumption].
Qed.
End CostOrder.

(* ================================================================== *)
(** ** The floor of the labor costs *)

Section LaborFloor.
Local Open Scope R_scope.

Lemma SF_le_nonneg k x : SF_le k x -> 0 <= SFR x.
Proof.
destruct x as [s|s| |[] m e]; simpl; try contradiction; try lra.
intros _. pose proof (B2R_pos (Zpos m) e ltac:(lia)). lra.
Qed.

Lemma ub_nonneg k x : ub k x -> 0 <= FR x.
Proof. apply SF_le_nonneg. Qed.

(** An integer below [2^53] converts to a float without rounding. *)
Lemma Z2SF_exact z :
(0 <= z < 2 ^ 53)%Z -> SFR (Z2SF z) = IZR z.
Proof.
intros Hz. unfold Z2SF, binary_normalize.
destruct z as [|p|p]; try lia; [reflexivity|].
pose proof (Zdigits2_bounds (Zpos p) ltac:(lia)) as [Hlo Hhi].
pose proof (Zdigits2_pos (Zpos p) ltac:(lia)) as Hd.
set (d := Zdigits2 (Zpos p)) in *.
assert (Hd53 : (d <= 53)%Z).
{ destruct (Z.le_gt_cases d 53) as [|Hgt]; [assumption|].
  assert (2 ^ 53 <= 2 ^ (d - 1))%Z by (apply Z.pow_le_mono_r; lia). lia. }
assert (Hp : (0 < 2 ^ (53 - d))%Z) by (apply Z.pow_pos_nonneg; lia).
set (K := Z.to_pos (Zpos p * 2 ^ (53 - d))).
assert (EK : Zpos K = (Zpos p * 2 ^ (53 - d))%Z)
  by (subst K; rewrite Z2Pos.id; lia).
assert (HK : canonical_mantissa prec emax K (d - 53) = true).
{ apply canonical_Z. rewrite EK, Zdigits2_shift by lia. fold d.
  rewrite fexp64. lia. }
assert (Ev : B2R (Zpos K) (d - 53) = B2R (Zpos p) 0).
{ rewrite EK, B2R_shift by lia. f_equal. lia. }
destruct (binary_round_upper p K 0 (d - 53) HK ltac:(lia) ltac:(lra))
  as [E|(m & e & E & Hu)];
  destruct (binary_round_lower p K 0 (d - 53) HK ltac:(lra))
    as [E'|(m' & e' & E' & Hl)];
  rewrite E in E'; try discriminate.
injection E' as <- <-. rewrite E. simpl. rewrite <- B2R_IZR. lra.
Qed.

Lemma float_of_int_exact z f :
(0 <= z < 2 ^ 53)%Z -> float_of_int z = Ok f -> FR f = IZR z.
Proof.
intros Hz. unfold float_of_int.
destruct (is_infinity _); [discriminate|]. intros H. injection H as <-.
unfold FR. rewrite Prim2SF_SF2Prim; [now apply Z2SF_exact|].
destruct (Z2SF_bounds z 53 ltac:(lia) ltac:(lia) ltac:(lia)) as [Hv _].
exact Hv.
Qed.

(** A product by a number that is at least 1 is not below the other
  factor. *)
Lemma SFmul_ge x y b c :
valid_binary x = true -> valid_binary y = true ->
SF_le c x -> SF_in 0 b y -> SF_le c (SF64mul x y) ->
SFR x <= SFR (SF64mul x y).
Proof.
intros Vx Vy Hx Hy Hs.
destruct x as [sx|sx| |[] mx ex], y as [sy|sy| |[] my ey]; simpl in Hx, Hy;
  try contradiction.
- simpl. lra.
- apply valid_canonical in Vx, Vy.
  unfold SF64mul, SFmul in *. cbn [xorb] in *.
  pose proof (mul_aligned mx my ex ey Vx Vy) as Hn.
  pose proof (B2R_pos (Zpos mx) ex ltac:(lia)).
  change (powerRZ 2 0) with 1 in Hy.
  destruct (round_lower (mx * my) mx (ex + ey) ex Hn Vx)
    as [E|(m & e & E & Hl)].
  { rewrite Pos2Z.inj_mul, B2R_mul. nra. }
  + rewrite E in Hs. contradiction.
  + rewrite E. simpl. exact Hl.
Qed.

Lemma mul_ge a b c x y :
(a + b <= c)%Z -> (-1022 <= c <= 1023)%Z ->
ub a x -> within 0 b y ->
ub c (x * y)%float /\ FR x <= FR (x * y)%float.
Proof.
intros Hab Hc Hx Hy.
pose proof (ub_mul' a b c x y Hab Hc Hx (within_ub _ _ _ Hy)) as Hs.
split; [exact Hs|]. unfold FR, ub, within in *. rewrite mul_spec in *.
apply (SFmul_ge _ _ b c); auto using Prim2SF_valid.
apply (SF_le_weaken a); [|assumption].
destruct (Prim2SF y) as [sy|sy| |[] my ey]; simpl in Hy; try contradiction.
assert (0 <= b)%Z; [|lia].
destruct (Z.le_gt_cases 0 b) as [|Hneg]; [assumption|exfalso].
pose proof (pow2_le b (-1) ltac:(lia)).
change (powerRZ 2 0) with 1 in Hy. simpl powerRZ in H. lra.
Qed.

(** [round] of a float that is at least the integer [lo]. *)
Lemma py_round_floor a x lo z :
ub a x -> IZR lo <= FR x -> py_round x = Ok z -> (lo <= z)%Z.
Proof.
unfold ub, FR, py_round.
destruct (Prim2SF x) as [s|s| |[] m e]; simpl; try contradiction;
  intros _ Hv H; injection H as <-.
- apply le_IZR. exact Hv.
- destruct (round_dyadic_spec m e) as [[_ Hhi] _]. cbv zeta in Hhi.
  assert (IZR lo - 1 < IZR (round_dyadic m e 0)) by lra.
  rewrite <- minus_IZR in H. apply lt_IZR in H. lia.
Qed.
End LaborFloor.

Section DrawFloor.
Context {P : PRNG}.

(** A draw from a tuple of ints is not below its minimum. *)
Lemma returns_rand_range_floor k lo hi :
  range_sound k (PyInt lo, PyInt hi) = true -> k <= 53 ->
  returns (P := P) (rand_range (PyInt lo, PyInt hi))
    (fun x => ub k x /\ (IZR lo <= FR x)%R).
Proof.
  intros Hr Hk g. pose proof (next_random_ub g) as Hu.
  unfold rand_range, random_uniform, bind, lift, random_random,
    num_sub, num_mul_float, num_add_float, to_float, rbind.
  simpl in Hr. cbn [fst snd].
  apply andb_prop in Hr. destruct Hr as [Hr Hb].
  apply andb_prop in Hr. destruct Hr as [Hr Hab].
  apply andb_prop in Hr. destruct Hr as [Hk1 Ha].
  apply Z.leb_le in Hk1, Ha, Hab, Hb.
  destruct (float_of_int_bounds (hi - lo) (k - 1) ltac:(lia) ltac:(lia)
              ltac:(lia)) as (fd & Ed & Hd & _).
  destruct (float_of_int_bounds lo (k - 1) ltac:(lia) ltac:(lia)
              ltac:(lia)) as (fa & Ea & Hfa & _).
  assert (Hlo53 : 0 <= lo < 2 ^ 53).
  { split; [lia|].
    assert (2 ^ (k - 1) < 2 ^ 53) by (apply Z.pow_lt_mono_r; lia). lia. }
  pose proof (float_of_int_exact lo fa Hlo53 Ea) as Efa.
  rewrite Ed, Ea. cbv beta iota.
  destruct (next_random P g) as [u g1]. cbn [fst snd] in *.
  eexists _, g1. split; [reflexivity|].
  assert (Hp : ub (k - 1) (fd * u)%float)
    by (apply (ub_mul' (k - 1) 0); try lia; assumption).
  destruct (add_ge (k - 1) (k - 1) k fa (fd * u)%float
              ltac:(lia) ltac:(lia) ltac:(lia) Hfa Hp) as (Hs & Hge & _).
  split; [exact Hs|]. rewrite <- Efa. exact Hge.
Qed.
End DrawFloor.

(* ================================================================== *)
(** ** No row fails on a sound configuration *)

(** What [build_row] needs of the locals: the city is in the table and
    every cost is a finite float. *)
Definition locals_sound (cfg : Config) (l : Locals) : Prop :=
  In (l_city l) (city_names cfg) /\
  ub 200 (l_painting_material_cost l) /\
  ub 200 (l_painting_labor_cost l) /\
  ub 200 (l_flooring_material_cost l) /\
  ub 200 (l_flooring_labor_cost l) /\
  ub 200 (l_ceiling_material_cost l) /\
  ub 200 (l_ceiling_labor_cost l) /\
  ub 200 (l_electrical_material_cost l) /\
  ub 200 (l_electrical_labor_cost l) /\
  ub 200 (l_kitchen_pkg_cost l) /\
  ub 200 (l_bath_pkg_cost l) /\
  ub 200 (l_plumbing_cost l) /\
  ub 200 (l_furniture_cost l) /\
  ub 200 (l_wastage_cost l) /\
  ub 200 (l_contractor_overhead l) /\
  ub 200 (l_gst_amount l) /\
  ub 200 (l_grand_total l).

(** The labor cost [c] is not below the minimum day rate of the city,
    when the rates are ints. *)
Definition above_day_rate (cinfo : city_info) (c : float) : Prop :=
  forall lo hi,
    labor_day_rate cinfo = (PyInt lo, PyInt hi) -> (IZR lo <= FR c)%R.

(** Each labor cost that is charged is not below the minimum day rate. *)
Definition labor_floor (l : Locals) : Prop :=
  above_day_rate (l_cinfo l) (l_painting_labor_cost l) /\
  above_day_rate (l_cinfo l) (l_flooring_labor_cost l) /\
  (l_has_ceiling l = true ->
   above_day_rate (l_cinfo l) (l_ceiling_labor_cost l)) /\
  (l_has_electrical l = true ->
   above_day_rate (l_cinfo l) (l_electrical_labor_cost l)).

Tactic Notation "step" constr(Q) "as" ident(x) ident(H) :=
  eapply (returns_bind _ _ Q); [| intros x H; cbv zeta].

Section Sound.
Context {P : PRNG}.
Variable cfg : Config.
Hypothesis cfg_sound : config_sound cfg = true.

Ltac sound_facts :=
  let H := fresh "Hs" in
  pose proof cfg_sound as H; unfold config_sound in H;
  repeat (apply andb_prop in H; let H' := fresh "Hs" in destruct H as [H H']).

Lemma sound_index : ub 10 (MATERIAL_PRICE_INDEX cfg).
Proof. sound_facts. now apply ubb_ub. Qed.

Lemma sound_gst : ub 10 (GST_RATE cfg).
Proof. sound_facts. now apply ubb_ub. Qed.

Lemma returns_city :
  returns (P := P) (random_choice (city_names cfg))
    (fun c => In c (city_names cfg)).
Proof.
  sound_facts. apply returns_random_choice.
  unfold city_names. now apply keys_nonempty.
Qed.

Lemma returns_cinfo c :
  In c (city_names cfg) ->
  returns (P := P) (lift (getitem (cities cfg) c))
    (fun ci => city_sound ci = true).
Proof. sound_facts. intros Hc. now apply returns_getitem. Qed.

Lemma returns_room :
  returns (P := P) (random_choice (room_types cfg)) (fun _ => True).
Proof.
  sound_facts.
  eapply returns_weaken;
    [apply returns_random_choice; now apply nonempty_neq|auto].
Qed.

Lemma returns_level :
  returns (P := P) (random_choice (keys (renovation_levels cfg)))
    (fun lv => In lv (keys (renovation_levels cfg)) /\
               In lv ["Basic"; "Mid"; "Luxury"]).
Proof.
  sound_facts.
  eapply returns_weaken;
    [apply returns_random_choice; now apply keys_nonempty|].
  intros lv Hlv. split; [exact Hlv|]. eapply keys_among_In; eassumption.
Qed.

Lemma returns_linfo lv :
  In lv (keys (renovation_levels cfg)) ->
  returns (P := P) (lift (getitem (renovation_levels cfg) lv))
    (fun li => range_sound 0 (labor_overhead li) = true).
Proof.
  sound_facts. intros Hlv.
  now apply (returns_getitem (fun l => range_sound 0 (labor_overhead l))).
Qed.

Lemma returns_choose_quality :
  returns (P := P) (choose_quality cfg)
    (fun q => In q (keys (quality_tiers cfg))).
Proof.
  sound_facts. unfold choose_quality.
  apply returns_random_choices1; [|reflexivity].
  unfold keys. rewrite length_map.
  match goal with
  | H : (List.length (quality_tiers cfg) =? 4)%nat = true |- _ =>
      apply Nat.eqb_eq in H; rewrite H
  end.
  reflexivity.
Qed.

Lemma returns_quality_factor q :
  In q (keys (quality_tiers cfg)) ->
  returns (P := P) (lift (getitem (quality_tiers cfg) q)) (ub 10).
Proof.
  sound_facts. intros Hq.
  eapply returns_weaken; [apply (returns_getitem (ubb 10)); eassumption|].
  intros a. apply ubb_ub.
Qed.

Lemma returns_psf_cost rng q c :
  range_sound 40 rng = true -> ub 10 q -> ub 10 c ->
  returns (P := P) (psf_cost cfg rng q c) (ub 70).
Proof.
  intros Hr Hq Hc. unfold psf_cost.
  step (ub 40) as base Hbase; [now apply returns_rand_range|].
  apply returns_ret.
  apply (ub_mul' 60 10); try lia; [|exact sound_index].
  apply (ub_mul' 50 10); try lia; [|exact Hc].
  apply (ub_mul' 40 10); try lia; assumption.
Qed.

Lemma returns_unit_cost rng q c :
  range_sound 40 rng = true -> ub 10 q -> ub 10 c ->
  returns (P := P) (unit_cost cfg rng q c) (ub 70).
Proof. exact (returns_psf_cost rng q c). Qed.

Lemma returns_productivity k :
  In k ["painting_sqft_per_day"; "flooring_sqft_per_day";
        "ceiling_sqft_per_day"; "electrical_sqft_per_day"] ->
  returns (P := P)
    (r <- lift (getitem (productivity cfg) k) ;; rand_range r)
    (within 0 40).
Proof.
  sound_facts. intros Hk.
  step (fun r => range_sound 40 r && range_positive r = true) as r Hr.
  - apply (returns_getitem
             (fun r => range_sound 40 r && range_positive r));
      [assumption|].
    eapply has_keys_In; eassumption.
  - apply andb_prop in Hr. destruct Hr as [Hr1 Hr2].
    apply returns_rand_range_positive; [assumption|assumption|lia].
Qed.

Lemma returns_day_rate cinfo :
  city_sound cinfo = true ->
  returns (P := P) (rand_range (labor_day_rate cinfo))
    (fun x => ub 40 x /\ above_day_rate cinfo x).
Proof.
  intros Hc. unfold city_sound in Hc.
  apply andb_prop in Hc. destruct Hc as [_ Hrate].
  unfold above_day_rate.
  destruct (labor_day_rate cinfo) as [[lo|a] [hi|b]] eqn:E;
    try discriminate Hrate.
  - eapply returns_weaken;
      [apply (returns_rand_range_floor 40); [exact Hrate|lia]|].
    intros x [Hx Hlo]. split; [exact Hx|].
    intros lo' hi' E'. injection E' as <- <-. exact Hlo.
  - eapply returns_weaken;
      [apply (returns_rand_range 40); [exact Hrate|lia]|].
    intros x Hx. split; [exact Hx|]. intros lo' hi' E'. discriminate E'.
Qed.

Lemma returns_labor area cinfo cat :
  0 <= area <= 2 ^ 12 -> city_sound cinfo = true ->
  returns (P := P) (labor_component_cost cfg area cinfo cat)
    (fun c => ub 100 c /\ above_day_rate cinfo c).
Proof.
  intros Ha Hc. unfold labor_component_cost.
  step (fun x => ub 40 x /\ above_day_rate cinfo x) as day_rate Hday;
    [now apply returns_day_rate|].
  destruct Hday as [Hday Hfloor].
  step (within 0 40) as sqft Hsqft.
  { destruct (String.eqb cat "painting");
      [apply returns_productivity; simpl; auto|].
    destruct (String.eqb cat "flooring");
      [apply returns_productivity; simpl; auto|].
    destruct (String.eqb cat "ceiling");
      [apply returns_productivity; simpl; auto|].
    destruct (String.eqb cat "electrical");
      [apply returns_productivity; simpl; tauto|].
    apply returns_ret. apply withinb_within. reflexivity. }
  step (ub 13) as q Hq.
  { apply returns_lift.
    exact (int_div_float_ub 12 0 40 area sqft Ha ltac:(lia) Hsqft ltac:(lia)). }
  apply returns_ret.
  destruct (mul_ge 40 13 100 day_rate (py_max_float 1 q)
              ltac:(lia) ltac:(lia) Hday
              (py_max_float_within 13 q ltac:(lia) Hq)) as [Hub Hge].
  split; [exact Hub|].
  intros lo hi E. specialize (Hfloor lo hi E). lra.
Qed.

Lemma returns_choose_flooring room :
  returns (P := P) (choose_flooring_type cfg room)
    (fun t => In t (keys (flooring_catalog cfg))).
Proof.
  sound_facts. unfold choose_flooring_type.
  destruct (str_in room _).
  - eapply returns_weaken;
      [apply returns_random_choices1; reflexivity|].
    intros t Ht. eapply has_keys_In; eassumption.
  - apply returns_random_choices1; [|reflexivity].
    unfold keys. rewrite length_map.
    match goal with
    | H : (List.length (flooring_catalog cfg) =? 7)%nat = true |- _ =>
        apply Nat.eqb_eq in H; rewrite H
    end.
    reflexivity.
Qed.

Lemma returns_range (d : dict range) k :
  table_okb (range_sound 40) d = true -> In k (keys d) ->
  returns (P := P) (lift (getitem d k)) (fun r => range_sound 40 r = true).
Proof. intros Hd Hk. now apply returns_getitem. Qed.

Lemma returns_choose_ceiling :
  returns (P := P) (choose_ceiling_type cfg)
    (fun t => In t (keys (ceiling_catalog cfg))).
Proof.
  sound_facts. unfold choose_ceiling_type.
  apply returns_random_choice. now apply keys_nonempty.
Qed.

Lemma returns_choose_furniture room :
  returns (P := P) (choose_furniture_level room)
    (fun f => In f ["None"; "Basic"; "Standard"; "Premium"]).
Proof.
  unfold choose_furniture_level. destruct (str_in room _).
  - apply returns_ret. simpl. auto.
  - apply returns_random_choices1; reflexivity.
Qed.

Lemma returns_kitchen_package level :
  returns (P := P) (kitchen_package_by_level level)
    (fun k => In k (keys (kitchen_packages cfg))).
Proof.
  sound_facts. unfold kitchen_package_by_level.
  assert (Hk : forall k,
             In k ["Basic_L"; "Standard_L"; "Premium_U"; "Luxury_Island"] ->
             In k (keys (kitchen_packages cfg)))
    by (intros k; now apply has_keys_In).
  destruct (String.eqb level "Basic").
  - apply returns_ret. apply Hk. simpl. auto.
  - destruct (String.eqb level "Mid").
    + eapply returns_weaken;
        [apply returns_random_choice; discriminate|].
      intros k Hin. apply Hk. simpl in *. tauto.
    + eapply returns_weaken;
        [apply returns_random_choice; discriminate|].
      intros k Hin. apply Hk. simpl in *. tauto.
Qed.

Lemma returns_bathroom_package level :
  returns (P := P) (bathroom_package_by_level level)
    (fun k => In k (keys (bathroom_packages cfg))).
Proof.
  sound_facts. unfold bathroom_package_by_level.
  assert (Hk : forall k,
             In k ["Basic"; "Standard"; "Premium"] ->
             In k (keys (bathroom_packages cfg)))
    by (intros k; now apply has_keys_In).
  destruct (String.eqb level "Basic").
  - apply returns_ret. apply Hk. simpl. auto.
  - destruct (String.eqb level "Mid").
    + eapply returns_weaken;
        [apply returns_random_choice; discriminate|].
      intros k Hin. apply Hk. simpl in *. tauto.
    + eapply returns_weaken;
        [apply returns_random_choice; discriminate|].
      intros k Hin. apply Hk. simpl in *. tauto.
Qed.

(** Every cost the body computes is a finite float. *)
Ltac ub_weak k := eapply (ub_weaken k); [lia|].

Lemma returns_body_floor :
  returns (P := P) (generate_row_body cfg)
    (fun l => locals_sound cfg l /\ labor_floor l).
Proof.
  sound_facts.
  pose proof sound_index as Hidx. pose proof sound_gst as Hgst.
  assert (Hone : ub 10 1%float) by (apply ubb_ub; reflexivity).
  assert (Hzero : forall k, ub k 0%float) by (intros k; exact I).
  unfold generate_row_body.
  step (fun c => In c (city_names cfg)) as city Hcity;
    [exact returns_city|].
  step (fun ci => city_sound ci = true) as cinfo Hcinfo;
    [now apply returns_cinfo|].
  assert (Hmult : ub 10 (multiplier cinfo)).
  { unfold city_sound in Hcinfo. apply andb_prop in Hcinfo.
    now apply ubb_ub. }
  step (fun _ : string => True) as room_type Hroom; [exact returns_room|].
  step (ub 11) as area_f Harea_f;
    [apply returns_rand_range; [reflexivity|lia]|].
  step (fun a => 0 <= a <= 2 ^ 11) as area Harea;
    [apply returns_lift; apply py_int_ub; [lia|assumption]|].
  assert (Harea12 : 0 <= area <= 2 ^ 12) by (simpl in *; lia).
  step (fun lv => In lv (keys (renovation_levels cfg)) /\
                  In lv ["Basic"; "Mid"; "Luxury"]) as renov_level Hlevel;
    [exact returns_level|].
  destruct Hlevel as [Hlevel Hlevel3].
  step (fun li => range_sound 0 (labor_overhead li) = true) as linfo Hlinfo;
    [now apply returns_linfo|].
  step (ub 0) as overhead_f Hoverhead;
    [apply returns_rand_range; [assumption|lia]|].
  assert (Hpct : ub 10 (py_round_nd overhead_f 3)).
  { ub_weak 2. now apply py_round_nd_3_ub. }
  step (fun q => In q (keys (quality_tiers cfg))) as paint_quality Hpq;
    [exact returns_choose_quality|].
  step (fun q => In q (keys (quality_tiers cfg))) as floor_quality Hfq;
    [exact returns_choose_quality|].
  step (fun q => In q (keys (quality_tiers cfg))) as ceiling_quality Hcq;
    [exact returns_choose_quality|].
  (* Painting *)
  step (ub 10) as paint_q Hpaint_q; [now apply returns_quality_factor|].
  step (ub 70) as painting_rate_psf Hprate;
    [apply returns_psf_cost; assumption|].
  step (ub 100) as painting_material_cost Hpm.
  { apply returns_lift.
    apply (float_mul_int_ub 70 11); try lia; assumption. }
  step (fun c => ub 100 c /\ above_day_rate cinfo c)
    as painting_labor_cost Hpl;
    [apply returns_labor; assumption|].
  destruct Hpl as [Hpl HplF].
  (* Flooring *)
  step (fun t => In t (keys (flooring_catalog cfg))) as floor_type Hft;
    [exact (returns_choose_flooring room_type)|].
  step (fun r => range_sound 40 r = true) as floor_rng Hfrng;
    [apply returns_range; assumption|].
  step (ub 10) as floor_q Hfloor_q; [now apply returns_quality_factor|].
  step (ub 70) as floor_rate_psf Hfrate;
    [apply returns_psf_cost; assumption|].
  step (ub 100) as flooring_material_cost Hfm.
  { apply returns_lift.
    apply (float_mul_int_ub 70 11); try lia; assumption. }
  step (fun c => ub 100 c /\ above_day_rate cinfo c)
    as flooring_labor_cost Hfl;
    [apply returns_labor; assumption|].
  destruct Hfl as [Hfl HflF].
  (* False ceiling *)
  step (fun _ : bool => True) as has_ceiling Hhc.
  { destruct (negb _); [|now apply returns_ret].
    step (ub 0) as u Hu; [exact returns_random_random|].
    now apply returns_ret. }
  step (fun t => has_ceiling = true -> In t (keys (ceiling_catalog cfg)))
    as ceiling_type Hct.
  { destruct has_ceiling.
    - eapply returns_weaken; [exact returns_choose_ceiling|]. auto.
    - apply returns_ret. discriminate. }
  step (fun a => 0 <= a <= 2 ^ 12) as ceiling_area Hca.
  { destruct has_ceiling; [|apply returns_ret; simpl; lia].
    step (ub 1) as f Hf; [apply returns_rand_range; [reflexivity|lia]|].
    step (ub 12) as a Ha.
    { apply returns_lift.
      apply (int_mul_float_ub 11 1); try lia; assumption. }
    apply returns_lift. apply py_int_ub; [lia|assumption]. }
  step (ub 70) as ceiling_rate_psf Hcrate.
  { destruct has_ceiling; [|apply returns_ret; apply Hzero].
    step (fun r => range_sound 40 r = true) as ceil_rng Hcrng;
      [apply returns_range; [assumption|now apply Hct]|].
    step (ub 10) as ceil_q Hceil_q; [now apply returns_quality_factor|].
    apply returns_psf_cost; assumption. }
  step (ub 100) as ceiling_material_cost Hcm.
  { apply returns_lift.
    apply (float_mul_int_ub 70 12); try lia; assumption. }
  step (fun c => ub 100 c /\
                 (has_ceiling = true -> above_day_rate cinfo c))
    as ceiling_labor_cost Hcl.
  { destruct has_ceiling.
    - eapply returns_weaken; [apply returns_labor; assumption|].
      intros c [H1 H2]. auto.
    - apply returns_ret. split; [apply Hzero|discriminate]. }
  destruct Hcl as [Hcl HclF].
  (* Electrical rewiring *)
  step (ub 0) as u_el Hu_el; [exact returns_random_random|].
  step (fun _ : float => True) as p_el Hp_el.
  { apply returns_lift.
    destruct (In_keys_getitem
                [("Basic", 0.4%float); ("Mid", 0.65%float);
                 ("Luxury", 0.9%float)] renov_level Hlevel3) as [v ->].
    eauto. }
  step (ub 70) as electrical_rate_psf Herate.
  { destruct (u_el <? p_el)%float; [|apply returns_ret; apply Hzero].
    apply returns_psf_cost; assumption. }
  step (ub 100) as electrical_material_cost Hem.
  { apply returns_lift.
    apply (float_mul_int_ub 70 11); try lia; assumption. }
  step (fun c => ub 100 c /\
                 ((u_el <? p_el)%float = true -> above_day_rate cinfo c))
    as electrical_labor_cost Hel.
  { destruct (u_el <? p_el)%float.
    - eapply returns_weaken; [apply returns_labor; assumption|].
      intros c [H1 H2]. auto.
    - apply returns_ret. split; [apply Hzero|discriminate]. }
  destruct Hel as [Hel HelF].
  (* Kitchen package *)
  step (fun p : string * float => ub 100 (snd p)) as kpkg Hkpkg.
  { destruct (String.eqb room_type "Kitchen");
      [|apply returns_ret; apply Hzero].
    step (fun k => In k (keys (kitchen_packages cfg))) as kname Hkname;
      [exact (returns_kitchen_package renov_level)|].
    step (fun r => range_sound 40 r = true) as k_rng Hkrng;
      [apply returns_range; assumption|].
    step (fun q => In q (keys (quality_tiers cfg))) as k_quality Hkq;
      [exact returns_choose_quality|].
    step (ub 10) as k_q Hk_q; [now apply returns_quality_factor|].
    step (ub 70) as kcost Hkcost; [apply returns_unit_cost; assumption|].
    apply returns_ret. simpl. now ub_weak 70. }
  destruct kpkg as [kitchen_pkg_name kitchen_pkg_cost]. simpl in Hkpkg.
  (* Bathroom package *)
  step (fun p : string * float => ub 100 (snd p)) as bpkg Hbpkg.
  { destruct (String.eqb room_type "Bathroom");
      [|apply returns_ret; apply Hzero].
    step (fun k => In k (keys (bathroom_packages cfg))) as bname Hbname;
      [exact (returns_bathroom_package renov_level)|].
    step (fun r => range_sound 40 r = true) as b_rng Hbrng;
      [apply returns_range; assumption|].
    step (fun q => In q (keys (quality_tiers cfg))) as b_quality Hbq;
      [exact returns_choose_quality|].
    step (ub 10) as b_q Hb_q; [now apply returns_quality_factor|].
    step (ub 70) as bcost Hbcost; [apply returns_unit_cost; assumption|].
    apply returns_ret. simpl. now ub_weak 70. }
  destruct bpkg as [bath_pkg_name bath_pkg_cost]. simpl in Hbpkg.
  (* Plumbing *)
  step (ub 80) as plumbing_cost1 Hpl1.
  { destruct (String.eqb room_type "Kitchen");
      [|apply returns_ret; apply Hzero].
    step (ub 70) as c Hc; [apply returns_unit_cost; assumption|].
    apply returns_ret. apply (ub_add' 70 70); try lia; [apply Hzero|exact Hc]. }
  step (ub 100) as plumbing_cost Hplumb.
  { destruct (String.eqb room_type "Bathroom");
      [|apply returns_ret; now ub_weak 80].
    step (ub 70) as c Hc; [apply returns_unit_cost; assumption|].
    apply returns_ret. apply (ub_add' 80 70); try lia; assumption. }
  (* Furniture *)
  step (fun f => In f ["None"; "Basic"; "Standard"; "Premium"])
    as furniture_level Hfurn;
    [exact (returns_choose_furniture room_type)|].
  step (ub 100) as furniture_cost Hfc.
  { destruct (String.eqb_spec furniture_level "None") as [|Hne];
      [apply returns_ret; apply Hzero|]. simpl.
    step (fun r => range_sound 40 r = true) as f_rng Hfr.
    { apply returns_range; [assumption|].
      eapply has_keys_In; [eassumption|].
      destruct Hfurn as [E|[E|[E|[E|[]]]]]; subst; simpl; auto;
        congruence. }
    eapply returns_weaken; [apply returns_unit_cost; assumption|].
    intros a Ha. now ub_weak 70. }
  (* Wastage, overhead, GST *)
  step (ub 0) as wastage_pct Hwp;
    [apply returns_rand_range; [reflexivity|lia]|].
  set (material_subtotal :=
         (painting_material_cost + flooring_material_cost
          + ceiling_material_cost + electrical_material_cost
          + kitchen_pkg_cost + bath_pkg_cost + plumbing_cost
          + furniture_cost)%float).
  assert (Hmat : ub 110 material_subtotal).
  { subst material_subtotal.
    apply (ub_add' 107 100); try lia; [|assumption].
    apply (ub_add' 106 100); try lia; [|assumption].
    apply (ub_add' 105 100); try lia; [|assumption].
    apply (ub_add' 104 100); try lia; [|assumption].
    apply (ub_add' 103 100); try lia; [|assumption].
    apply (ub_add' 102 100); try lia; [|assumption].
    apply (ub_add' 100 100); try lia; assumption. }
  set (labor_subtotal :=
         (painting_labor_cost + flooring_labor_cost + ceiling_labor_cost
          + electrical_labor_cost)%float).
  assert (Hlab : ub 110 labor_subtotal).
  { subst labor_subtotal.
    apply (ub_add' 103 100); try lia; [|assumption].
    apply (ub_add' 102 100); try lia; [|assumption].
    apply (ub_add' 100 100); try lia; assumption. }
  set (wastage_cost := (material_subtotal * wastage_pct)%float).
  assert (Hwaste : ub 120 wastage_cost)
    by (apply (ub_mul' 110 0); try lia; assumption).
  set (contractor_overhead :=
         ((material_subtotal + labor_subtotal)
          * py_round_nd overhead_f 3)%float).
  assert (Hover : ub 130 contractor_overhead).
  { apply (ub_mul' 111 10); try lia; [|assumption].
    apply (ub_add' 110 110); try lia; assumption. }
  set (subtotal_pre_tax :=
         (material_subtotal + wastage_cost + labor_subtotal
          + contractor_overhead)%float).
  assert (Hsub : ub 140 subtotal_pre_tax).
  { subst subtotal_pre_tax.
    apply (ub_add' 131 130); try lia; [|assumption].
    apply (ub_add' 130 110); try lia; [|assumption].
    apply (ub_add' 110 120); try lia; assumption. }
  set (gst_amount := if INCLUDE_GST cfg
                     then (subtotal_pre_tax * GST_RATE cfg)%float
                     else 0%float).
  assert (Hgsta : ub 150 gst_amount).
  { subst gst_amount. destruct (INCLUDE_GST cfg); [|apply Hzero].
    apply (ub_mul' 140 10); try lia; assumption. }
  set (grand_total := (subtotal_pre_tax + gst_amount)%float).
  assert (Hgrand : ub 160 grand_total)
    by (apply (ub_add' 140 150); try lia; assumption).
  step (fun _ : float => True) as total_psf Hpsf.
  { apply returns_lift.
    destruct (float_div_int_returns 160 grand_total (py_max_int 1 area)
                Hgrand) as [q Hq]; [|lia|eauto].
    unfold py_max_int. destruct (1 <? area) eqn:E.
    - apply Z.ltb_lt in E. split; [lia|].
      assert (2 ^ 11 <= 2 ^ 1000) by (apply Z.pow_le_mono_r; lia). lia.
    - split; [lia|]. apply Z.pow_le_mono_r with (b := 0) (c := 1000); lia. }
  apply returns_ret. split.
  - unfold locals_sound. simpl.
    repeat match goal with |- _ /\ _ => split end;
      first [ assumption
            | now ub_weak 100
            | now ub_weak 120
            | now ub_weak 130
            | now ub_weak 150
            | now ub_weak 160 ].
  - unfold labor_floor. simpl. repeat split; assumption.
Qed.

Lemma returns_body :
  returns (P := P) (generate_row_body cfg) (locals_sound cfg).
Proof.
  eapply returns_weaken; [exact returns_body_floor|].
  intros l [H _]. exact H.
Qed.
End Sound.

Lemma build_row_returns cfg idx l :
  locals_sound cfg l -> exists row, build_row cfg idx l = Ok row.
Proof.
  unfold locals_sound. intros (Hcity & H).
  destruct (In_keys_getitem (cities cfg) (l_city l) Hcity) as [c Hc].
  unfold build_row. rewrite Hc. cbn [rbind].
  repeat match goal with
  | Hx : ub 200 _ /\ _ |- _ => destruct Hx as [?Hu Hx]
  end.
  repeat match goal with
  | Hu : ub 200 ?x |- context [py_round ?x] =>
      destruct (py_round_ub _ _ Hu) as [? ->]; clear Hu; cbn [rbind]
  end.
  eauto.
Qed.

Lemma mapM_returns {G A B} (f : A -> M G B) :
  (forall x g, exists y g', f x g = Ok (y, g')) ->
  forall xs g, exists ys g', mapM f xs g = Ok (ys, g').
Proof.
  intros Hf. induction xs as [|x xs IH]; intros g; simpl.
  - exists [], g. reflexivity.
  - destruct (Hf x g) as (y & g1 & E).
    destruct (IH g1) as (ys & g2 & E2).
    exists (y :: ys), g2. unfold bind. rewrite E.
    unfold bind. rewrite E2. reflexivity.
Qed.

Section SoundRun.
Context {P : PRNG}.
Variable cfg : Config.
Hypothesis cfg_sound : config_sound cfg = true.

Lemma generate_row_returns idx (g : gen P) :
  exists row g', generate_row cfg idx g = Ok (row, g').
Proof.
  destruct (returns_body cfg cfg_sound g) as (l & g1 & E & Hl).
  destruct (build_row_returns cfg idx l Hl) as [row Hrow].
  exists row, g1. unfold generate_row, bind. rewrite E.
  unfold lift. rewrite Hrow. reflexivity.
Qed.

Lemma rows_returns (g : gen P) : exists rs g', rows cfg g = Ok (rs, g').
Proof. unfold rows. apply mapM_returns. exact generate_row_returns. Qed.

Lemma run_returns s :
  exists rs,
    run (P := P) cfg s = Ok rs /\
    len rs = Z.max 0 (N_ROWS cfg) /\
    map Row_ID rs = py_range 1 (N_ROWS cfg + 1).
Proof.
  destruct (rows_returns (seed P s)) as (rs & g' & E).
  exists rs. unfold run. rewrite E. split; [reflexivity|].
  unfold rows in E. apply mapM_steps in E.
  pose proof (steps_length _ _ _ _ _ E) as Hlen.
  rewrite py_range_length in Hlen. split; [unfold len; lia|].
  rewrite <- (map_id (py_range 1 (N_ROWS cfg + 1))).
  eapply steps_map; [|exact E].
  intros x g0 y g0' Hx. now apply generate_row_id in Hx.
Qed.
End SoundRun.

(** X14: on a configuration that passes [config_sound], [generate_row]
    returns a row from every generator state and for every index: no
    table lookup, weighted choice, division, conversion or rounding in it
    raises. *)
Theorem generate_row_never_fails (P : PRNG) cfg idx (g : gen P) :
  config_sound cfg = true ->
  exists row g', generate_row cfg idx g = Ok (row, g').
Proof. intros H. now apply generate_row_returns. Qed.

(** X15: the program as the source configures it returns its 10000 rows,
    numbered 1 to 10000 in order, whatever the generator draws. *)
Theorem program_returns_10000_rows (P : PRNG) :
  exists rs,
    program P = Ok rs /\ len rs = 10000 /\ map Row_ID rs = py_range 1 10001.
Proof.
  destruct (run_returns (P := P) default_config default_config_sound SEED)
    as (rs & E & Hlen & Hids).
  exists rs. auto.
Qed.

Lemma generate_row_never_fails_witness :
  exists row g',
    generate_row (P := replay sample_script) default_config 1 sample_script
      = Ok (row, g').
Proof.
  apply (generate_row_never_fails (replay sample_script) default_config 1
           sample_script).
  vm_compute. reflexivity.
Defined.

Section GrandTotal.
Context {P : PRNG}.
Variable cfg : Config.
Hypothesis cfg_sound : config_sound cfg = true.

Lemma body_sound (g g' : gen P) l :
  generate_row_body cfg g = Ok (l, g') -> locals_sound cfg l.
Proof.
  intros H. destruct (returns_body cfg cfg_sound g) as (l0 & g0 & E & Hl).
  rewrite H in E. injection E as <- <-. exact Hl.
Qed.

(** The unrounded grand total is not below any unrounded cost. *)
Lemma body_grand_total_dominates (g g' : gen P) l :
  generate_row_body cfg g = Ok (l, g') ->
  let G := FR (l_grand_total l) in
  (FR (l_painting_material_cost l) <= G /\
   FR (l_painting_labor_cost l) <= G /\
   FR (l_flooring_material_cost l) <= G /\
   FR (l_flooring_labor_cost l) <= G /\
   FR (l_ceiling_material_cost l) <= G /\
   FR (l_ceiling_labor_cost l) <= G /\
   FR (l_electrical_material_cost l) <= G /\
   FR (l_electrical_labor_cost l) <= G /\
   FR (l_kitchen_pkg_cost l) <= G /\
   FR (l_bath_pkg_cost l) <= G /\
   FR (l_plumbing_cost l) <= G /\
   FR (l_furniture_cost l) <= G /\
   FR (l_wastage_cost l) <= G /\
   FR (l_contractor_overhead l) <= G /\
   FR (l_gst_amount l) <= G)%R.
Proof.
  intros H G. subst G.
  pose proof (body_sound _ _ _ H) as Hl.
  pose proof (body_subtotals cfg _ _ _ H) as Hs.
  unfold locals_sound in Hl. unfold subtotals in Hs.
  destruct Hl as (_ & Hpm & HpL & Hfm & HfL & Hcm & HcL & Hem & HeL & Hk & Hb
                  & Hpl & Hf & Hw & Ho & Hg & _).
  destruct Hs as (Emat & Elab & Esub & _ & Egrand).
  rewrite Egrand, Esub, Emat, Elab.
  set (pm := l_painting_material_cost l) in *.
  set (pL := l_painting_labor_cost l) in *.
  set (fm := l_flooring_material_cost l) in *.
  set (fL := l_flooring_labor_cost l) in *.
  set (cm := l_ceiling_material_cost l) in *.
  set (cL := l_ceiling_labor_cost l) in *.
  set (em := l_electrical_material_cost l) in *.
  set (eL := l_electrical_labor_cost l) in *.
  set (k := l_kitchen_pkg_cost l) in *.
  set (b := l_bath_pkg_cost l) in *.
  set (pl := l_plumbing_cost l) in *.
  set (f := l_furniture_cost l) in *.
  set (w := l_wastage_cost l) in *.
  set (o := l_contractor_overhead l) in *.
  set (gst := l_gst_amount l) in *.
  destruct (add_ge 200 200 201 pm fm) as (U1 & A1 & B1); try lia; auto.
  destruct (add_ge 201 200 202 _ cm ltac:(lia) ltac:(lia) ltac:(lia) U1 Hcm)
    as (U2 & A2 & B2).
  destruct (add_ge 202 200 203 _ em ltac:(lia) ltac:(lia) ltac:(lia) U2 Hem)
    as (U3 & A3 & B3).
  destruct (add_ge 203 200 204 _ k ltac:(lia) ltac:(lia) ltac:(lia) U3 Hk)
    as (U4 & A4 & B4).
  destruct (add_ge 204 200 205 _ b ltac:(lia) ltac:(lia) ltac:(lia) U4 Hb)
    as (U5 & A5 & B5).
  destruct (add_ge 205 200 206 _ pl ltac:(lia) ltac:(lia) ltac:(lia) U5 Hpl)
    as (U6 & A6 & B6).
  destruct (add_ge 206 200 207 _ f ltac:(lia) ltac:(lia) ltac:(lia) U6 Hf)
    as (U7 & A7 & B7).
  destruct (add_ge 200 200 201 pL fL) as (V1 & C1 & D1); try lia; auto.
  destruct (add_ge 201 200 202 _ cL ltac:(lia) ltac:(lia) ltac:(lia) V1 HcL)
    as (V2 & C2 & D2).
  destruct (add_ge 202 200 203 _ eL ltac:(lia) ltac:(lia) ltac:(lia) V2 HeL)
    as (V3 & C3 & D3).
  set (mat := (pm + fm + cm + em + k + b + pl + f)%float) in *.
  set (lab := (pL + fL + cL + eL)%float) in *.
  destruct (add_ge 207 200 208 mat w ltac:(lia) ltac:(lia) ltac:(lia) U7 Hw)
    as (W1 & E1 & F1).
  destruct (add_ge 208 203 209 _ lab ltac:(lia) ltac:(lia) ltac:(lia) W1 V3)
    as (W2 & E2 & F2).
  destruct (add_ge 209 200 210 _ o ltac:(lia) ltac:(lia) ltac:(lia) W2 Ho)
    as (W3 & E3 & F3).
  destruct (add_ge 210 200 211 _ gst ltac:(lia) ltac:(lia) ltac:(lia) W3 Hg)
    as (W4 & E4 & F4).
  repeat split; lra.
Qed.

(** X16: on a sound configuration the grand total of a row is at least
    each of its fifteen cost components: rounding keeps the order of the
    unrounded sums. *)
Theorem grand_total_dominates_each_cost idx (g g' : gen P) row :
  generate_row cfg idx g = Ok (row, g') ->
  Painting_Material_Cost row <= Grand_Total row /\
  Painting_Labor_Cost row <= Grand_Total row /\
  Flooring_Material_Cost row <= Grand_Total row /\
  Flooring_Labor_Cost row <= Grand_Total row /\
  Ceiling_Material_Cost row <= Grand_Total row /\
  Ceiling_Labor_Cost row <= Grand_Total row /\
  Electrical_Material_Cost row <= Grand_Total row /\
  Electrical_Labor_Cost row <= Grand_Total row /\
  Kitchen_Package_Cost row <= Grand_Total row /\
  Bathroom_Package_Cost row <= Grand_Total row /\
  Plumbing_Cost row <= Grand_Total row /\
  Furniture_Cost row <= Grand_Total row /\
  Wastage_Sundries_Cost row <= Grand_Total row /\
  Contractor_Overhead_Cost row <= Grand_Total row /\
  GST_Amount row <= Grand_Total row.
Proof.
  intros H. destruct (generate_row_locals _ _ _ _ _ H) as (l & Hb & Hr).
  pose proof (build_row_rounded _ _ _ _ Hr) as Hc.
  pose proof (body_sound _ _ _ Hb) as Hl.
  pose proof (body_grand_total_dominates _ _ _ Hb) as Hd. cbv zeta in Hd.
  unfold rounded_costs in Hc. unfold locals_sound in Hl.
  destruct Hl as (_ & Hl).
  repeat match goal with
  | Hx : _ /\ _ |- _ => destruct Hx
  end.
  repeat match goal with |- _ /\ _ => split end;
    (eapply py_round_mono; [| | |eassumption|eassumption]; eassumption).
Qed.
End GrandTotal.

Lemma grand_total_dominates_each_cost_witness :
  Painting_Material_Cost kitchen_row <= Grand_Total kitchen_row /\
  Painting_Labor_Cost kitchen_row <= Grand_Total kitchen_row /\
  Flooring_Material_Cost kitchen_row <= Grand_Total kitchen_row /\
  Flooring_Labor_Cost kitchen_row <= Grand_Total kitchen_row /\
  Ceiling_Material_Cost kitchen_row <= Grand_Total kitchen_row /\
  Ceiling_Labor_Cost kitchen_row <= Grand_Total kitchen_row /\
  Electrical_Material_Cost kitchen_row <= Grand_Total kitchen_row /\
  Electrical_Labor_Cost kitchen_row <= Grand_Total kitchen_row /\
  Kitchen_Package_Cost kitchen_row <= Grand_Total kitchen_row /\
  Bathroom_Package_Cost kitchen_row <= Grand_Total kitchen_row /\
  Plumbing_Cost kitchen_row <= Grand_Total kitchen_row /\
  Furniture_Cost kitchen_row <= Grand_Total kitchen_row /\
  Wastage_Sundries_Cost kitchen_row <= Grand_Total kitchen_row /\
  Contractor_Overhead_Cost kitchen_row <= Grand_Total kitchen_row /\
  GST_Amount kitchen_row <= Grand_Total kitchen_row.
Proof.
  apply (grand_total_dominates_each_cost (P := replay kitchen_script)
           default_config default_config_sound 7 kitchen_script spent
           kitchen_row).
  vm_compute. reflexivity.
Defined.

Section LaborMinimum.
Context {P : PRNG}.
Variable cfg : Config.
Hypothesis cfg_sound : config_sound cfg = true.

Lemma body_labor_floor (g g' : gen P) l :
  generate_row_body cfg g = Ok (l, g') -> labor_floor l.
Proof.
  intros H.
  destruct (returns_body_floor cfg cfg_sound g) as (l0 & g0 & E & _ & Hl).
  rewrite H in E. injection E as <- <-. exact Hl.
Qed.

Lemma sound_city k c :
  getitem (cities cfg) k = Ok c -> city_sound c = true.
Proof.
  intros H. pose proof cfg_sound as Hs'. unfold config_sound in Hs'.
  repeat match type of Hs' with
  | (_ && _ = true) => apply andb_prop in Hs'; destruct Hs' as [Hs' ?Hx]
  end.
  eapply getitem_table_ok; [|exact H]. assumption.
Qed.

(** X17: on a sound configuration with integer day rates, a labor cost
    that is charged is at least one minimum day rate of the row's city:
    painting and flooring always, the ceiling when one is installed, the
    electrical work when the row has it. *)
Theorem labor_costs_cover_one_day idx (g g' : gen P) row lo :
  generate_row cfg idx g = Ok (row, g') ->
  Labor_Day_Rate_Min row = PyInt lo ->
  lo <= Painting_Labor_Cost row /\
  lo <= Flooring_Labor_Cost row /\
  (Ceiling_Type row <> "None" -> lo <= Ceiling_Labor_Cost row) /\
  (Has_Electrical row = true -> lo <= Electrical_Labor_Cost row).
Proof.
  intros H Hmin.
  destruct (generate_row_locals _ _ _ _ _ H) as (l & Hb & Hr).
  pose proof (build_row_rounded _ _ _ _ Hr) as Hc.
  pose proof (build_row_copied _ _ _ _ Hr) as Hf.
  pose proof (build_row_selections _ _ _ _ Hr) as Hsel.
  pose proof (body_sound cfg cfg_sound _ _ _ Hb) as Hl.
  pose proof (body_labor_floor _ _ _ Hb) as Hfl.
  pose proof (body_city _ _ _ _ Hb) as Hcity.
  pose proof (body_ceiling _ _ _ _ Hb) as Hceil.
  unfold copied_fields in Hf.
  destruct Hf as (_ & _ & _ & _ & (c & Hc1 & Hc2 & _) & _ & _ & Hct & _).
  rewrite Hcity in Hc1. injection Hc1 as <-.
  pose proof (sound_city _ _ Hcity) as Hcs.
  unfold city_sound in Hcs. apply andb_prop in Hcs. destruct Hcs as [_ Hrs].
  rewrite Hmin in Hc2.
  destruct (labor_day_rate (l_cinfo l)) as [[lo'|a] [hi|b]] eqn:Er;
    try discriminate Hrs; try discriminate Hc2.
  simpl in Hc2. injection Hc2 as <-.
  unfold labor_floor, above_day_rate in Hfl.
  destruct Hfl as (F1 & F2 & F3 & F4).
  unfold copied_selections in Hsel.
  destruct Hsel as (_ & _ & _ & _ & Hel).
  unfold rounded_costs in Hc. unfold locals_sound in Hl.
  destruct Hl as (_ & Hl).
  repeat match goal with
  | Hx : _ /\ _ |- _ => destruct Hx
  end.
  repeat split.
  - eapply py_round_floor; [| |eassumption]; [eassumption|].
    eapply F1; eassumption.
  - eapply py_round_floor; [| |eassumption]; [eassumption|].
    eapply F2; eassumption.
  - intros Hn. rewrite Hct in Hn.
    destruct Hceil as [(_ & E & _)|(E & _)]; [contradiction|].
    eapply py_round_floor; [| |eassumption]; [eassumption|].
    eapply F3; eassumption.
  - intros He. rewrite Hel in He.
    eapply py_round_floor; [| |eassumption]; [eassumption|].
    eapply F4; eassumption.
Qed.
End LaborMinimum.

Lemma labor_costs_cover_one_day_witness :
  800 <= Painting_Labor_Cost kitchen_row /\
  800 <= Flooring_Labor_Cost kitchen_row /\
  (Ceiling_Type kitchen_row <> "None" ->
   800 <= Ceiling_Labor_Cost kitchen_row) /\
  (Has_Electrical kitchen_row = true ->
   800 <= Electrical_Labor_Cost kitchen_row).
Proof.
  apply (labor_costs_cover_one_day (P := replay kitchen_script)
           default_config default_config_sound 7 kitchen_script spent
           kitchen_row 800).
  - vm_compute. reflexivity.
  - reflexivity.
Defined.

(* ================================================================== *)
(** ** The two general helpers *)

(** X18: [pick_weighted] on a table whose weights have a positive, finite
    sum returns one of the table's keys and draws [random()] once. *)
Theorem pick_weighted_returns_a_key (P : PRNG) (d : dict float) (g : gen P) :
  weights_ok (map snd d) = true ->
  exists k,
    pick_weighted d g = Ok (k, snd (next_random P g)) /\ In k (keys d).
Proof.
  intros H. unfold pick_weighted.
  apply random_choices1_total; [|exact H].
  unfold keys. now rewrite !length_map.
Qed.

Lemma pick_weighted_returns_a_key_witness :
  exists k,
    pick_weighted (P := replay sample_script)
      [("Basic", 0.5%float); ("Luxury", 0.25%float)] sample_script
    = Ok (k, snd (next_random (replay sample_script) sample_script)) /\
    In k (keys [("Basic", 0.5%float); ("Luxury", 0.25%float)]).
Proof.
  apply (pick_weighted_returns_a_key (replay sample_script)
           [("Basic", 0.5%float); ("Luxury", 0.25%float)] sample_script).
  vm_compute. reflexivity.
Defined.

(** X19: [rand_range] on two ints [0 <= lo <= hi <= 2^52] does not raise and
    returns a float that is not below [lo] (and is at most [2^53]). *)
Theorem rand_range_not_below_minimum (P : PRNG) lo hi (g : gen P) :
  0 <= lo <= hi -> hi <= 2 ^ 52 ->
  exists x g',
    rand_range (PyInt lo, PyInt hi) g = Ok (x, g') /\
    ub 53 x /\ (IZR lo <= FR x)%R.
Proof.
  intros Hlo Hhi.
  apply (returns_rand_range_floor 53 lo hi); [|lia].
  simpl. change (2 ^ (53 - 1)) with (2 ^ 52).
  apply andb_true_intro; split; [|now apply Z.leb_le].
  apply andb_true_intro; split; [|apply Z.leb_le; lia].
  apply Z.leb_le. lia.
Qed.

Lemma rand_range_not_below_minimum_witness :
  exists x g',
    rand_range (P := replay sample_script) (PyInt 800, PyInt 950)
      sample_script = Ok (x, g') /\
    ub 53 x /\ (IZR 800 <= FR x)%R.
Proof.
  apply (rand_range_not_below_minimum (replay sample_script) 800 950
           sample_script).
  - lia.
  - vm_compute. discriminate.
Defined.

(* ================================================================== *)
(** ** The list of rows *)

Lemma py_range_shift lo mid (b : nat) :
  lo <= mid ->
  forall s,
    map (fun k => lo + Z.of_nat k) (seq (Z.to_nat (mid - lo) + s) b)
    = map (fun k => mid + Z.of_nat k) (seq s b).
Proof.
  intros H. induction b as [|b IH]; intros s; simpl; [reflexivity|].
  f_equal; [lia|]. rewrite <- Nat.add_succ_r. apply IH.
Qed.

Lemma py_range_app lo mid hi :
  lo <= mid <= hi -> py_range lo hi = (py_range lo mid ++ py_range mid hi)%list.
Proof.
  intros H. unfold py_range.
  replace (Z.to_nat (hi - lo))
    with (Z.to_nat (mid - lo) + Z.to_nat (hi - mid))%nat by lia.
  rewrite seq_app, map_app. f_equal.
  rewrite Nat.add_0_l.
  rewrite <- (Nat.add_0_r (Z.to_nat (mid - lo))).
  apply py_range_shift. lia.
Qed.

Lemma py_range_cons lo hi :
  lo < hi -> py_range lo hi = lo :: py_range (lo + 1) hi.
Proof.
  intros H. rewrite (py_range_app lo (lo + 1) hi) by lia.
  unfold py_range at 1.
  replace (Z.to_nat (lo + 1 - lo)) with 1%nat by lia.
  simpl. now rewrite Z.add_0_r.
Qed.

Lemma steps_app {G A B} (f : A -> M G B) xs ys :
  forall g rs g',
    steps f (xs ++ ys)%list g rs g' ->
    exists g1,
      steps f xs g (firstn (List.length xs) rs) g1 /\
      steps f ys g1 (skipn (List.length xs) rs) g'.
Proof.
  induction xs as [|x xs IH]; intros g rs g' H; simpl in *.
  - exists g. split; [constructor|exact H].
  - inversion H as [|? ? ? y g1 rs' ? Hx Hs]; subst.
    destruct (IH _ _ _ Hs) as (g2 & H1 & H2).
    exists g2. split; [|exact H2]. simpl.
    econstructor; eassumption.
Qed.

Lemma mapM_raise {G A B} (f : A -> M G B) xs x ys e :
  forall g rs g1,
    steps f xs g rs g1 -> f x g1 = Raise e ->
    mapM f (xs ++ x :: ys)%list g = Raise e.
Proof.
  induction xs as [|x0 xs IH]; intros g rs g1 H Hx; simpl.
  - inversion H; subst. unfold bind. now rewrite Hx.
  - inversion H as [|? ? ? y g2 rs' ? Hx0 Hs]; subst.
    unfold bind. rewrite Hx0. fold (@bind G).
    unfold bind. rewrite (IH _ _ _ Hs Hx). reflexivity.
Qed.

Lemma generate_row_with_rows (P : PRNG) cfg n :
  generate_row (P := P) (with_rows cfg n) = generate_row cfg.
Proof. reflexivity. Qed.

(** X20: with the same seed, a run configured for fewer rows returns the
    first rows of the longer run: row [i] does not depend on [N_ROWS]. *)
Theorem fewer_rows_is_a_prefix (P : PRNG) cfg n m s rs :
  n <= m ->
  run (P := P) (with_rows cfg m) s = Ok rs ->
  run (P := P) (with_rows cfg n) s = Ok (firstn (Z.to_nat n) rs).
Proof.
  intros Hnm. unfold run, rows.
  rewrite !generate_row_with_rows. cbn [N_ROWS with_rows].
  destruct (mapM (generate_row cfg) (py_range 1 (m + 1)) (seed P s))
    as [[rs0 g']|e] eqn:E; [|discriminate].
  intros H. injection H as <-.
  apply mapM_steps in E.
  destruct (Z.le_gt_cases n 0) as [Hn|Hn].
  - replace (py_range 1 (n + 1)) with (@nil Z).
    + replace (Z.to_nat n) with 0%nat by lia. reflexivity.
    + unfold py_range. replace (Z.to_nat (n + 1 - 1)) with 0%nat by lia.
      reflexivity.
  - rewrite (py_range_app 1 (n + 1) (m + 1)) in E by lia.
    apply steps_app in E. destruct E as (g1 & E1 & _).
    rewrite py_range_length in E1.
    replace (Z.to_nat (n + 1 - 1)) with (Z.to_nat n) in E1 by lia.
    apply mapM_steps in E1. now rewrite E1.
Qed.

Definition two_rows : list Row :=
  Eval vm_compute in
    match run (P := replay sample_script) (with_rows default_config 2) 42 with
    | Ok rs => rs
    | Raise _ => []
    end.

Lemma fewer_rows_is_a_prefix_witness :
  run (P := replay sample_script) (with_rows default_config 1) 42
  = Ok (firstn (Z.to_nat 1) two_rows).
Proof.
  apply (fewer_rows_is_a_prefix (replay sample_script) default_config 1 2 42
           two_rows).
  - lia.
  - vm_compute. reflexivity.
Defined.

(** X21: the dataset is all or nothing: when the rows before row [i] are
    generated and [generate_row] raises on row [i], the run raises the same
    exception and returns no rows. *)
Theorem failing_row_aborts_the_run (P : PRNG) cfg s i rs (g : gen P) e :
  1 <= i <= N_ROWS cfg ->
  steps (generate_row cfg) (py_range 1 i) (seed P s) rs g ->
  generate_row cfg i g = Raise e ->
  run (P := P) cfg s = Raise e.
Proof.
  intros Hi Hs He. unfold run, rows.
  rewrite (py_range_app 1 i (N_ROWS cfg + 1)) by lia.
  rewrite (py_range_cons i (N_ROWS cfg + 1)) by lia.
  now rewrite (mapM_raise _ _ _ _ _ _ _ _ Hs He).
Qed.

(** A configuration whose painting rate is too large for a float. *)
Definition overflowing_config : Config :=
  with_painting_psf (with_rows default_config 3)
    (PyInt (2 ^ 1100), PyInt (2 ^ 1100)).

Lemma failing_row_aborts_the_run_witness :
  run (P := replay sample_script) overflowing_config 42 = Raise OverflowError.
Proof.
  apply (failing_row_aborts_the_run (replay sample_script) overflowing_config
           42 1 [] sample_script OverflowError).
  - vm_compute. split; discriminate.
  - constructor.
  - vm_compute. reflexivity.
Defined.

(* ================================================================== *)
(** ** The dataset depends on the generator through its draws only *)

Section SameDraws.
Variables P1 P2 : PRNG.

(** [R] relates the states of two generators that draw alike from then
    on: whatever is drawn next, by [random()] or by [_randbelow(n)], is the
    same value on both sides and leaves related states. *)
Variable R : gen P1 -> gen P2 -> Prop.
Hypothesis R_random : forall g1 g2,
  R g1 g2 ->
  fst (next_random P1 g1) = fst (next_random P2 g2) /\
  R (snd (next_random P1 g1)) (snd (next_random P2 g2)).
Hypothesis R_randbelow : forall n g1 g2,
  R g1 g2 ->
  fst (randbelow P1 n g1) = fst (randbelow P2 n g2) /\
  R (snd (randbelow P1 n g1)) (snd (randbelow P2 n g2)).

(** Two outcomes agree: the same exception, or the same value and related
    states. *)
Definition agree {A} (r1 : result (A * gen P1)) (r2 : result (A * gen P2))
  : Prop :=
  match r1, r2 with
  | Ok (a1, g1), Ok (a2, g2) => a1 = a2 /\ R g1 g2
  | Raise e1, Raise e2 => e1 = e2
  | _, _ => False
  end.

Definition sim {A} (c1 : M (gen P1) A) (c2 : M (gen P2) A) : Prop :=
  forall g1 g2, R g1 g2 -> agree (c1 g1) (c2 g2).

Lemma sim_ret {A} (a : A) : sim (ret a) (ret a).
Proof. intros g1 g2 H. simpl. auto. Qed.

Lemma sim_raise {A} e : sim (A := A) (raise e) (raise e).
Proof. intros g1 g2 H. reflexivity. Qed.

Lemma sim_lift {A} (r : result A) : sim (lift r) (lift r).
Proof. intros g1 g2 H. unfold lift. destruct r; simpl; auto. Qed.

Lemma sim_bind {A B} (c1 : M (gen P1) A) (c2 : M (gen P2) A)
    (k1 : A -> M (gen P1) B) (k2 : A -> M (gen P2) B) :
  sim c1 c2 -> (forall a, sim (k1 a) (k2 a)) -> sim (bind c1 k1) (bind c2 k2).
Proof.
  intros Hc Hk g1 g2 H. unfold bind. specialize (Hc g1 g2 H).
  unfold agree in Hc.
  destruct (c1 g1) as [[a1 g1']|e1], (c2 g2) as [[a2 g2']|e2];
    try contradiction.
  - destruct Hc as [<- Hg]. now apply Hk.
  - exact Hc.
Qed.

Lemma sim_random_random : sim (random_random (P := P1)) random_random.
Proof.
  intros g1 g2 H. unfold random_random. simpl.
  destruct (R_random g1 g2 H) as [Hv Hg].
  destruct (next_random P1 g1), (next_random P2 g2). simpl in *. auto.
Qed.

Lemma sim_random_choice {A} (seq : list A) :
  sim (random_choice (P := P1) seq) (random_choice seq).
Proof.
  unfold random_choice. destruct (len seq =? 0); [apply sim_raise|].
  intros g1 g2 H.
  destruct (R_randbelow (len seq) g1 g2 H) as [Hv Hg].
  destruct (randbelow P1 (len seq) g1) as [i1 g1'],
           (randbelow P2 (len seq) g2) as [i2 g2'].
  simpl in Hv, Hg. subst i2. now apply sim_lift.
Qed.

Ltac sim_step :=
  first
    [ apply sim_ret
    | apply sim_raise
    | apply sim_lift
    | apply sim_random_random
    | apply sim_random_choice
    | apply sim_bind; [|intros ?]
    | match goal with
      | |- sim (if ?b then _ else _) (if ?b then _ else _) => destruct b
      | |- sim (match ?x with _ => _ end) (match ?x with _ => _ end) =>
          destruct x
      end
    | progress cbv zeta ].

Ltac sim_auto := repeat sim_step.

Lemma sim_random_uniform a b :
  sim (random_uniform (P := P1) a b) (random_uniform a b).
Proof. unfold random_uniform. sim_auto. Qed.

Lemma sim_random_choices1 {A} (pop : list A) ws :
  sim (random_choices1 (P := P1) pop ws) (random_choices1 pop ws).
Proof. unfold random_choices1. sim_auto. Qed.

Variable cfg : Config.

Lemma sim_rand_range r : sim (rand_range (P := P1) r) (rand_range r).
Proof. apply sim_random_uniform. Qed.

Lemma sim_choose_quality :
  sim (choose_quality (P := P1) cfg) (choose_quality cfg).
Proof. apply sim_random_choices1. Qed.

Lemma sim_cost r q m : sim (psf_cost (P := P1) cfg r q m) (psf_cost cfg r q m).
Proof.
  unfold psf_cost. apply sim_bind; [apply sim_rand_range|intros ?].
  sim_auto.
Qed.

Lemma sim_unit_cost r q m :
  sim (unit_cost (P := P1) cfg r q m) (unit_cost cfg r q m).
Proof.
  unfold unit_cost. apply sim_bind; [apply sim_rand_range|intros ?].
  sim_auto.
Qed.

Ltac sim_call :=
  first
    [ apply sim_rand_range
    | apply sim_choose_quality
    | apply sim_random_choices1
    | apply sim_cost
    | apply sim_unit_cost
    | sim_step ].

Lemma sim_labor area cinfo cat :
  sim (labor_component_cost (P := P1) cfg area cinfo cat)
      (labor_component_cost cfg area cinfo cat).
Proof. unfold labor_component_cost. repeat sim_call. Qed.

Lemma sim_generate_row_body :
  sim (generate_row_body (P := P1) cfg) (generate_row_body cfg).
Proof.
  unfold generate_row_body, choose_flooring_type, choose_ceiling_type,
    choose_furniture_level, kitchen_package_by_level,
    bathroom_package_by_level.
  repeat first [apply sim_labor | sim_call].
Qed.

Lemma sim_generate_row idx :
  sim (generate_row (P := P1) cfg idx) (generate_row cfg idx).
Proof.
  unfold generate_row.
  apply sim_bind; [apply sim_generate_row_body|]. intros l. apply sim_lift.
Qed.

Lemma sim_mapM {A B} (f1 : A -> M (gen P1) B) (f2 : A -> M (gen P2) B) :
  (forall x, sim (f1 x) (f2 x)) -> forall xs, sim (mapM f1 xs) (mapM f2 xs).
Proof.
  intros Hf. induction xs as [|x xs IH]; simpl.
  - apply sim_ret.
  - apply sim_bind; [apply Hf|]. intros y.
    apply sim_bind; [exact IH|]. intros ys. apply sim_ret.
Qed.

Lemma sim_rows : sim (rows (P := P1) cfg) (rows cfg).
Proof. unfold rows. apply sim_mapM. exact sim_generate_row. Qed.
End SameDraws.

(** C3: a run is a function of the values its generator draws, in order,
    and of nothing else.  Two runs with the same tables and the same row
    count whose generators, once seeded, draw alike return the same
    result: the same records in the same order, or the same exception.
    Two runs of one generator with the same seed are the case where [R]
    is equality. *)
Theorem same_draws_same_dataset (P1 P2 : PRNG) (R : gen P1 -> gen P2 -> Prop)
    (cfg : Config) (N s1 s2 : Z) :
  R (seed P1 s1) (seed P2 s2) ->
  (forall g1 g2,
     R g1 g2 ->
     fst (next_random P1 g1) = fst (next_random P2 g2) /\
     R (snd (next_random P1 g1)) (snd (next_random P2 g2))) ->
  (forall n g1 g2,
     R g1 g2 ->
     fst (randbelow P1 n g1) = fst (randbelow P2 n g2) /\
     R (snd (randbelow P1 n g1)) (snd (randbelow P2 n g2))) ->
  run (P := P1) (with_rows cfg N) s1 = run (P := P2) (with_rows cfg N) s2.
Proof.
  intros Hseed Hrandom Hbelow. unfold run.
  pose proof (sim_rows P1 P2 R Hrandom Hbelow (with_rows cfg N) _ _ Hseed)
    as H.
  unfold agree in H.
  destruct (rows (with_rows cfg N) (seed P1 s1)) as [[rs1 g1]|e1],
           (rows (with_rows cfg N) (seed P2 s2)) as [[rs2 g2]|e2];
    try contradiction.
  - destruct H as [-> _]. reflexivity.
  - now subst.
Qed.

(** The script of the bedroom followed by draws of 0, which is what the
    replay generator returns once a script is played to its end. *)
Definition padded_script : script := {|
  floats := [0.5; 0.5; 0.5; 0.5; 0.5; 0.5; 0.5; 0.5; 0.5; 0.5; 0.5; 0.5;
             0.75; 0.75; 0.5; 0.5; 0.15625; 0; 0]%float;
  ints := [0; 0; 0; 0]
|}.

(** [padding g1 g2]: the script [g2] is [g1] followed by zeros. *)
Definition padding (g1 g2 : script) : Prop :=
  exists j k,
    floats g2 = (floats g1 ++ repeat 0%float j)%list /\
    ints g2 = (ints g1 ++ repeat 0 k)%list.

Lemma padding_random g1 g2 :
  padding g1 g2 ->
  fst (replay_random g1) = fst (replay_random g2) /\
  padding (snd (replay_random g1)) (snd (replay_random g2)).
Proof.
  intros (j & k & Hf & Hi). unfold replay_random. rewrite Hf.
  destruct (floats g1) as [|x xs] eqn:E; simpl.
  - destruct j as [|j]; simpl.
    + split; [reflexivity|]. exists 0%nat, k. rewrite E. auto.
    + split; [reflexivity|]. exists j, k. simpl. rewrite E. auto.
  - split; [reflexivity|]. exists j, k. simpl. auto.
Qed.

Lemma padding_randbelow n g1 g2 :
  padding g1 g2 ->
  fst (replay_randbelow n g1) = fst (replay_randbelow n g2) /\
  padding (snd (replay_randbelow n g1)) (snd (replay_randbelow n g2)).
Proof.
  intros (j & k & Hf & Hi). unfold replay_randbelow. rewrite Hi.
  destruct (ints g1) as [|z zs] eqn:E; simpl.
  - destruct k as [|k]; simpl.
    + split; [reflexivity|]. exists j, 0%nat. rewrite E. auto.
    + split; [now rewrite Zmod_0_l|]. exists j, k. simpl. rewrite E. auto.
  - split; [reflexivity|]. exists j, k. simpl. auto.
Qed.

Lemma same_draws_same_dataset_witness :
  run (P := replay sample_script) (with_rows default_config 2) 42
  = run (P := replay padded_script) (with_rows default_config 2) 42.
Proof.
  apply (same_draws_same_dataset (replay sample_script) (replay padded_script)
           padding default_config 2 42 42).
  - exists 2%nat, 1%nat. split; reflexivity.
  - exact padding_random.
  - exact padding_randbelow.
Defined.

(* ================================================================== *)
(** ** Where a run can fail *)





